(** * MiniJava front end: symbol table, scope stack, attribute store and
      semantic analyzer, embedded from [tree.c], [symbol_table.c],
      [string_hash_table.c] and [semantic_analyzer.c].

    The C program keeps all of its state in globals and on the malloc heap.
    The embedding threads one record [State] through every routine; a routine
    is a function from the state to an [outcome]: it returns, it calls
    [exit], it steps outside what C defines (an array index outside the
    array, a pointer that is not live), or the model's loop budget ends. *)

From Stdlib Require Import ZArith List String Ascii Bool Lia.
Import ListNotations.
Open Scope string_scope.
Open Scope list_scope.
Open Scope Z_scope.

(** ** Constants of [symbol_table.h] *)

Definition STACK_SIZE : Z := 100.
Definition ST_SIZE : Z := 500.
Definition ATTR_SIZE : Z := 2000.

Definition STACK_OVERFLOW : Z := 100.
Definition REDECLARATION : Z := 101.
Definition ST_OVERFLOW : Z := 102.
Definition UNDECLARATION : Z := 103.
Definition ATTR_OVERFLOW : Z := 104.
Definition NOT_USED : Z := 105.
Definition ARGUMENTS_NUM1 : Z := 106.
Definition ARGUMENTS_NUM2 : Z := 107.
Definition BOUND : Z := 108.
Definition PROCE_MISMATCH : Z := 109.
Definition VAR_VAL : Z := 110.
Definition CONSTANT_VAR : Z := 111.
Definition EXPR_VAR : Z := 112.
Definition CONSTANT_ASSIGN : Z := 113.
Definition INDX_MIS : Z := 114.
Definition FIELD_MIS : Z := 115.
Definition FORW_REDECLARE : Z := 116.
Definition REC_TYPE_MIS : Z := 117.
Definition ARR_TYPE_MIS : Z := 118.
Definition VARIABLE_MIS : Z := 119.
Definition FUNC_MISMATCH : Z := 120.
Definition TYPE_MIS : Z := 121.
Definition NOT_TYPE : Z := 122.
Definition ARR_DIME_MIS : Z := 123.
Definition MULTI_MAIN : Z := 124.

Definition CONTINUE : Z := 0.
Definition ABORT : Z := 1.

Definition NAME_ATTR : Z := 1.
Definition NEST_ATTR : Z := 2.
Definition TREE_ATTR : Z := 3.
Definition KIND_ATTR : Z := 5.
Definition TYPE_ATTR : Z := 6.
Definition VALUE_ATTR : Z := 7.
Definition OFFSET_ATTR : Z := 8.
Definition DIMEN_ATTR : Z := 9.
Definition ARGNUM_ATTR : Z := 10.

Definition CONST : Z := 1.
Definition VAR : Z := 2.
Definition FUNCFORWARD : Z := 3.
Definition FUNC : Z := 4.
Definition REF_ARG : Z := 5.
Definition VALUE_ARG : Z := 6.
Definition FIELD : Z := 7.
Definition TYPEDEF : Z := 8.
Definition PROCFORWARD : Z := 9.
Definition PROCE : Z := 10.
Definition CLASS : Z := 11.
Definition ARR : Z := 12.

(** ** Constants of [tree.h] *)

Definition ProgramOp : Z := 100.
Definition DeclOp : Z := 102.
Definition CommaOp : Z := 103.
Definition ArrayTypeOp : Z := 104.
Definition TypeIdOp : Z := 105.
Definition BoundOp : Z := 106.
Definition RecompOp : Z := 107.
Definition ToOp : Z := 108.
Definition DownToOp : Z := 109.
Definition ConstantIdOp : Z := 110.
Definition ProceOp : Z := 111.
Definition FuncOp : Z := 112.
Definition HeadOp : Z := 113.
Definition RArgTypeOp : Z := 114.
Definition VArgTypeOp : Z := 115.
Definition StmtOp : Z := 116.
Definition IfElseOp : Z := 117.
Definition LoopOp : Z := 118.
Definition SpecOp : Z := 119.
Definition RoutineCallOp : Z := 120.
Definition AssignOp : Z := 121.
Definition ReturnOp : Z := 122.
Definition AddOp : Z := 123.
Definition SubOp : Z := 124.
Definition MultOp : Z := 125.
Definition DivOp : Z := 126.
Definition LTOp : Z := 127.
Definition GTOp : Z := 128.
Definition EQOp : Z := 129.
Definition NEOp : Z := 130.
Definition LEOp : Z := 131.
Definition GEOp : Z := 132.
Definition AndOp : Z := 133.
Definition OrOp : Z := 134.
Definition UnaryNegOp : Z := 135.
Definition NotOp : Z := 136.
Definition VarOp : Z := 137.
Definition SelectOp : Z := 138.
Definition IndexOp : Z := 139.
Definition FieldOp : Z := 140.
Definition SubrangeOp : Z := 141.
Definition ExitOp : Z := 142.
Definition ClassOp : Z := 143.
Definition MethodOp : Z := 144.
Definition ClassDefOp : Z := 145.

Definition IDNode : Z := 200.
Definition NUMNode : Z := 201.
Definition CHARNode : Z := 202.
Definition STRINGNode : Z := 203.
Definition DUMMYNode : Z := 204.
Definition EXPRNode : Z := 205.
Definition INTEGERTNode : Z := 206.
Definition CHARTNode : Z := 207.
Definition BOOLEANTNode : Z := 208.
Definition STNode : Z := 209.

(** ** Data structures *)

(** [StackEntry] of [symbol_table.h].  The three flags are C [char]s that
    only ever hold [true] or [false]. *)
Record StackEntry : Type := mkStackEntry {
  marker : bool;
  name : Z;
  st_ptr : Z;
  dummy : bool;
  used : bool
}.

(** [attr_type]: [attr_num] is a C [char], [attr_val] and [next_attr] are
    [int]s. *)
Record attr_type : Type := mkAttr {
  attr_num : Z;
  attr_val : Z;
  next_attr : Z
}.

(** [ILTree]: a node of the syntax tree; [tree] is a pointer to it. *)
Record ILTree : Type := mkNode {
  nodekind : Z;
  nodeoptype : Z;
  intval : Z;
  leftc : Z;
  rightc : Z
}.

Definition tree : Type := Z.

(** What one [printf] conversion puts on standard output.  [OName i] is the
    text [getname(i)] points at, the C string at offset [i] of the string
    table. *)
Inductive out_item : Type :=
| OStr (s : string)
| OInt (z : Z)
| OName (i : Z).

(** The globals of the program and its heap.
    - [stack], [st], [attrarray] with their tops, and [nesting], are the
      globals of [symbol_table.c]; an array is the function from its indices
      to its elements, and every access checks the index against the array
      size.
    - [strg_tbl] is the string table, as the list of the C strings it holds
      one after the other, each closed by the separator.
    - [heap] holds the malloc'ed tree nodes, [brk] is the next address
      [malloc] hands out; the global node [dummy] of [tree.c] is not in the
      heap, it lives at [dummy_addr].
    - [out] is what has been printed. *)
Record State : Type := mkState {
  stack : Z -> StackEntry;
  st : Z -> Z;
  attrarray : Z -> attr_type;
  stack_top : Z;
  st_top : Z;
  nesting : Z;
  attr_top : Z;
  yyline : Z;
  strg_tbl : list string;
  heap : Z -> option ILTree;
  brk : Z;
  out : list out_item
}.

Definition upd {A : Type} (f : Z -> A) (i : Z) (v : A) : Z -> A :=
  fun j => if j =? i then v else f j.

Definition set_stack (f : Z -> StackEntry) (s : State) : State :=
  mkState f (st s) (attrarray s) (stack_top s) (st_top s) (nesting s)
          (attr_top s) (yyline s) (strg_tbl s) (heap s) (brk s) (out s).
Definition set_st (f : Z -> Z) (s : State) : State :=
  mkState (stack s) f (attrarray s) (stack_top s) (st_top s) (nesting s)
          (attr_top s) (yyline s) (strg_tbl s) (heap s) (brk s) (out s).
Definition set_attrarray (f : Z -> attr_type) (s : State) : State :=
  mkState (stack s) (st s) f (stack_top s) (st_top s) (nesting s)
          (attr_top s) (yyline s) (strg_tbl s) (heap s) (brk s) (out s).
Definition set_stack_top (n : Z) (s : State) : State :=
  mkState (stack s) (st s) (attrarray s) n (st_top s) (nesting s)
          (attr_top s) (yyline s) (strg_tbl s) (heap s) (brk s) (out s).
Definition set_st_top (n : Z) (s : State) : State :=
  mkState (stack s) (st s) (attrarray s) (stack_top s) n (nesting s)
          (attr_top s) (yyline s) (strg_tbl s) (heap s) (brk s) (out s).
Definition set_nesting (n : Z) (s : State) : State :=
  mkState (stack s) (st s) (attrarray s) (stack_top s) (st_top s) n
          (attr_top s) (yyline s) (strg_tbl s) (heap s) (brk s) (out s).
Definition set_attr_top (n : Z) (s : State) : State :=
  mkState (stack s) (st s) (attrarray s) (stack_top s) (st_top s) (nesting s)
          n (yyline s) (strg_tbl s) (heap s) (brk s) (out s).
Definition set_heap (h : Z -> option ILTree) (s : State) : State :=
  mkState (stack s) (st s) (attrarray s) (stack_top s) (st_top s) (nesting s)
          (attr_top s) (yyline s) (strg_tbl s) h (brk s) (out s).
Definition set_brk (n : Z) (s : State) : State :=
  mkState (stack s) (st s) (attrarray s) (stack_top s) (st_top s) (nesting s)
          (attr_top s) (yyline s) (strg_tbl s) (heap s) n (out s).
Definition set_out (o : list out_item) (s : State) : State :=
  mkState (stack s) (st s) (attrarray s) (stack_top s) (st_top s) (nesting s)
          (attr_top s) (yyline s) (strg_tbl s) (heap s) (brk s) o.

(** ** Outcomes and the state monad *)

Inductive outcome (A : Type) : Type :=
| Ret (a : A) (s : State)     (* the routine returned [a] *)
| Exit (code : Z) (s : State) (* the routine called [exit(code)] *)
| Undef                       (* behaviour that C leaves undefined *)
| Fuel.                       (* the loop budget of the model ended *)
Arguments Ret {A} a s.
Arguments Exit {A} code s.
Arguments Undef {A}.
Arguments Fuel {A}.

Definition M (A : Type) : Type := State -> outcome A.

Definition ret {A : Type} (a : A) : M A := fun s => Ret a s.

Definition bind {A B : Type} (c : M A) (k : A -> M B) : M B :=
  fun s => match c s with
           | Ret a s' => k a s'
           | Exit code s' => Exit code s'
           | Undef => Undef
           | Fuel => Fuel
           end.

Notation "x <- c ;; k" := (bind c (fun x => k))
  (at level 61, c at next level, right associativity).
Notation "c ;;; k" := (bind c (fun _ => k))
  (at level 61, right associativity).

Definition get {A : Type} (f : State -> A) : M A := fun s => Ret (f s) s.
Definition modify (f : State -> State) : M unit := fun s => Ret tt (f s).
Definition undef {A : Type} : M A := fun _ => Undef.
Definition exit {A : Type} (code : Z) : M A := fun s => Exit code s.
Definition printf (items : list out_item) : M unit :=
  modify (fun s => set_out (out s ++ items) s).

Definition in_range (i size : Z) : bool := (0 <=? i) && (i <? size).

Definition rd_stack (i : Z) : M StackEntry :=
  fun s => if in_range i STACK_SIZE then Ret (stack s i) s else Undef.
Definition wr_stack (i : Z) (e : StackEntry) : M unit :=
  fun s => if in_range i STACK_SIZE
           then Ret tt (set_stack (upd (stack s) i e) s) else Undef.
Definition rd_st (i : Z) : M Z :=
  fun s => if in_range i ST_SIZE then Ret (st s i) s else Undef.
Definition wr_st (i v : Z) : M unit :=
  fun s => if in_range i ST_SIZE
           then Ret tt (set_st (upd (st s) i v) s) else Undef.
Definition rd_attr (i : Z) : M attr_type :=
  fun s => if in_range i ATTR_SIZE then Ret (attrarray s i) s else Undef.
Definition wr_attr (i : Z) (c : attr_type) : M unit :=
  fun s => if in_range i ATTR_SIZE
           then Ret tt (set_attrarray (upd (attrarray s) i c) s) else Undef.

(** ** [symbol_table.c] *)

(** [seq_str]: the ordinal of [seq]; the default case is
    [sprintf(s, "%dth", seq)]. *)
Definition seq_str (seq : Z) : list out_item :=
  if seq =? 0 then [OStr "0th"]
  else if seq =? 1 then [OStr "1st"]
  else if seq =? 2 then [OStr "2nd"]
  else if seq =? 3 then [OStr "3rd"]
  else [OInt seq; OStr "th"].

(** The text the [switch] of [error_msg] prints for an error type. *)
Definition error_text (type id seq : Z) : list out_item :=
  if type =? STACK_OVERFLOW then [OStr "stack overflow.\n"]
  else if type =? REDECLARATION then
    [OStr "symbol "; OName id; OStr ": redeclared.\n"]
  else if type =? ST_OVERFLOW then [OStr "symbol table overflow.\n"]
  else if type =? UNDECLARATION then
    [OStr "symbol "; OName id; OStr ": undeclared.\n"]
  else if type =? ATTR_OVERFLOW then [OStr "attribute array overflowed.\n"]
  else if type =? BOUND then
    [OStr "symbol "; OName id;
     OStr ": not declared as a constant, can't be used as subrange bound.\n"]
  else if type =? ARGUMENTS_NUM1 then
    [OStr "routine "; OName id;
     OStr ": argument number in definition is different from the previous forward declaration.\n"]
  else if type =? ARGUMENTS_NUM2 then
    [OStr "routine "; OName id;
     OStr ": argument number is different from the previous declaration.\n"]
  else if type =? FORW_REDECLARE then
    [OStr "routine "; OName id; OStr ": forward redeclaration.\n"]
  else if type =? PROCE_MISMATCH then
    [OStr "symbol "; OName id; OStr ": can't act as a procedure call.\n"]
  else if type =? FUNC_MISMATCH then
    [OStr "symbol "; OName id; OStr ": can't act as a function call.\n"]
  else if type =? VAR_VAL then
    [OStr "routine "; OName id; OStr ": reference/value type of the "]
    ++ seq_str seq
    ++ [OStr " parameter is different from the previous forward declaration.\n"]
  else if type =? CONSTANT_VAR then
    [OStr "routine "; OName id; OStr ": the "] ++ seq_str seq
    ++ [OStr " parameter is a reference argument, can't be a constant.\n"]
  else if type =? EXPR_VAR then
    [OStr "routine "; OName id; OStr ": reference argument of the "]
    ++ seq_str seq ++ [OStr " parameter can't be an expression.\n"]
  else if type =? CONSTANT_ASSIGN then
    [OStr "symbol "; OName id;
     OStr ": declared as a constant, can't be assigned a new value.\n"]
  else if type =? ARR_TYPE_MIS then
    if seq =? 0 then
      [OStr "symbol "; OName id; OStr ": isn't defined as an array.\n"]
    else
      [OStr "symbol "; OName id; OStr ": the "] ++ seq_str seq
      ++ [OStr " index isn't defined as an array.\n"]
  else if type =? ARR_DIME_MIS then
    [OStr "symbol "; OName id; OStr ": inappropriate usage of array element.\n"]
  else if type =? REC_TYPE_MIS then
    [OStr "symbol "; OName id; OStr ": illegal usage of a field name.\n"]
  else if type =? INDX_MIS then
    [OStr "symbol "; OName id; OStr ": has incorrect number of dimensions.\n"]
  else if type =? FIELD_MIS then
    [OStr "symbol "; OName id; OStr ": is an undeclared field name.\n"]
  else if type =? VARIABLE_MIS then
    [OStr "symbol "; OName id; OStr ": can't be used as a variable.\n"]
  else if type =? NOT_TYPE then
    [OStr "symbol "; OName id; OStr ": is not declared as a type.\n"]
  else if type =? TYPE_MIS then
    [OStr "symbol "; OName id; OStr ": incorrect type usage.\n"]
  else if type =? MULTI_MAIN then [OStr "main() method already declared.\n"]
  else [OStr "error type: "; OInt type; OStr ".\n"].

(** [error_msg(type, action, id, seq)] *)
Definition error_msg (type action id seq : Z) : M unit :=
  line <- get yyline ;;
  printf [OStr "Semantic Error--line: "; OInt line; OStr ", "] ;;;
  printf (error_text type id seq) ;;;
  if action =? ABORT then exit 0 else ret tt.

(** [Push(marker, name, st_ptr, dummy)] *)
Definition Push (mk : bool) (nm ptr : Z) (dm : bool) : M unit :=
  top <- get stack_top ;;
  (if top >=? STACK_SIZE - 1
   then error_msg STACK_OVERFLOW ABORT 0 0 else ret tt) ;;;
  modify (fun s => set_stack_top (stack_top s + 1) s) ;;;
  top <- get stack_top ;;
  wr_stack top (mkStackEntry mk nm ptr dm false).

(** The [for] loop of [LookUp]; [n] is the index [i], which runs from
    [stack_top] down to 1. *)
Fixpoint LookUp_loop (n : nat) (id : Z) : M (option Z) :=
  match n with
  | O => ret None
  | S n' =>
      e <- rd_stack (Z.of_nat n) ;;
      if negb (marker e) && (name e =? id) then
        wr_stack (Z.of_nat n)
                 (mkStackEntry (marker e) (name e) (st_ptr e) (dummy e) true) ;;;
        ret (Some (st_ptr e))
      else LookUp_loop n' id
  end.

(** [LookUp(id)] *)
Definition LookUp (id : Z) : M Z :=
  top <- get stack_top ;;
  r <- LookUp_loop (Z.to_nat top) id ;;
  match r with
  | Some p => ret p
  | None =>
      error_msg UNDECLARATION CONTINUE id 0 ;;;
      Push false id 0 true ;;;
      ret 0
  end.

(** The [for] loop of [LookUpHere] and of [CloseBlock]: from index [i]
    downwards until a marker; [n] counts the indices left above -1, and the
    read of [stack[-1]] is outside the array. *)
Fixpoint LookUpHere_loop (n : nat) (i id : Z) : M Z :=
  match n with
  | O => undef
  | S n' =>
      e <- rd_stack i ;;
      if marker e then ret 0
      else if (name e =? id) && negb (dummy e) then ret (st_ptr e)
      else LookUpHere_loop n' (i - 1) id
  end.

(** [LookUpHere(id)] *)
Definition LookUpHere (id : Z) : M Z :=
  top <- get stack_top ;;
  LookUpHere_loop (Z.to_nat (top + 1)) top id.

(** [OpenBlock()] *)
Definition OpenBlock : M unit :=
  modify (fun s => set_nesting (nesting s + 1) s) ;;;
  Push true 0 0 false.

(** The loop of [CloseBlock]: the index of the first marker at or below
    [i].  Its body reads [used] and [dummy] and does nothing with them. *)
Fixpoint CloseBlock_loop (n : nat) (i : Z) : M Z :=
  match n with
  | O => undef
  | S n' =>
      e <- rd_stack i ;;
      if marker e then ret i else CloseBlock_loop n' (i - 1)
  end.

(** [CloseBlock()] *)
Definition CloseBlock : M unit :=
  top <- get stack_top ;;
  i <- CloseBlock_loop (Z.to_nat (top + 1)) top ;;
  modify (fun s => set_nesting (nesting s - 1) s) ;;;
  modify (fun s => set_stack_top (i - 1) s).

(** The [while (i)] loop of [IsAttr].  The pool has [ATTR_SIZE] cells, so a
    walk of more than [ATTR_SIZE] steps has entered a cycle and the C loop
    does not end: [IsAttr] starts the loop with that budget. *)
Fixpoint IsAttr_loop (fuel : nat) (i num : Z) : M Z :=
  match fuel with
  | O => fun _ => Fuel
  | S fuel' =>
      if i =? 0 then ret 0
      else
        c <- rd_attr i ;;
        if attr_num c =? num then ret i
        else if attr_num c >? num then ret 0
        else IsAttr_loop fuel' (next_attr c) num
  end.

Definition attr_budget : nat := Z.to_nat ATTR_SIZE + 1.

(** [IsAttr(st_ptr, attr_num)] *)
Definition IsAttr (ptr num : Z) : M Z :=
  i <- rd_st ptr ;;
  IsAttr_loop attr_budget i num.

(** [GetAttr(st_ptr, attr_num)] *)
Definition GetAttr (ptr num : Z) : M Z :=
  i <- IsAttr ptr num ;;
  if i =? 0 then
    printf [OStr "DEBUG--The wanted attribute number "; OInt num;
            OStr " does not exist\n"] ;;;
    ret 0
  else
    c <- rd_attr i ;;
    ret (attr_val c).

(** The pointer [p] of [SetAttr]: it points at [st[st_ptr]] or at the
    [next_attr] field of a cell. *)
Inductive link : Type :=
| LSt (ptr : Z)
| LNext (cell : Z).

Definition wr_link (p : link) (v : Z) : M unit :=
  match p with
  | LSt ptr => wr_st ptr v
  | LNext cell =>
      c <- rd_attr cell ;;
      wr_attr cell (mkAttr (attr_num c) (attr_val c) v)
  end.

(** The [while (next)] loop of [SetAttr]: the link to overwrite and the
    cell that follows the insertion point. *)
Fixpoint SetAttr_loop (fuel : nat) (p : link) (next num : Z) : M (link * Z) :=
  match fuel with
  | O => fun _ => Fuel
  | S fuel' =>
      if next =? 0 then ret (p, next)
      else
        c <- rd_attr next ;;
        if attr_num c <? num
        then SetAttr_loop fuel' (LNext next) (next_attr c) num
        else ret (p, next)
  end.

(** Conversion of an [int] to the (signed) [char] that [attr_num] is. *)
Definition to_char (z : Z) : Z := (z + 128) mod 256 - 128.

(** [SetAttr(st_ptr, attr_num, attr_val)] *)
Definition SetAttr (ptr num val : Z) : M unit :=
  i <- IsAttr ptr num ;;
  if negb (i =? 0) then
    c <- rd_attr i ;;
    wr_attr i (mkAttr (attr_num c) val (next_attr c))
  else
    next <- rd_st ptr ;;
    pn <- SetAttr_loop attr_budget (LSt ptr) next num ;;
    top <- get attr_top ;;
    (if top >=? ATTR_SIZE - 1
     then error_msg ATTR_OVERFLOW ABORT 0 0 else ret tt) ;;;
    modify (fun s => set_attr_top (attr_top s + 1) s) ;;;
    top <- get attr_top ;;
    wr_attr top (mkAttr (to_char num) val (snd pn)) ;;;
    wr_link (fst pn) top.

(** [InsertEntry(id)] *)
Definition InsertEntry (id : Z) : M Z :=
  here <- LookUpHere id ;;
  if negb (here =? 0) then
    error_msg REDECLARATION CONTINUE id 0 ;;;
    ret 0
  else
    top <- get st_top ;;
    (if top >=? ST_SIZE - 1
     then error_msg ST_OVERFLOW ABORT 0 0 else ret tt) ;;;
    modify (fun s => set_st_top (st_top s + 1) s) ;;;
    top <- get st_top ;;
    wr_st top 0 ;;;
    nest <- get nesting ;;
    SetAttr top NAME_ATTR id ;;;
    SetAttr top NEST_ATTR nest ;;;
    Push false id top false ;;;
    get st_top.


(** ** [string_hash_table.c] *)

(** [loc_str(string)]: the offset of the first entry of the string table
    equal to [string], or -1.  The loop steps from one entry to the next by
    [strlen + 1]; [i] is the offset of the entry at the head of [tbl]. *)
Fixpoint loc_str_from (tbl : list string) (i : Z) (str : string) : Z :=
  match tbl with
  | [] => -1
  | e :: tbl' =>
      if String.eqb e str then i
      else loc_str_from tbl' (i + Z.of_nat (String.length e) + 1) str
  end.

Definition loc_str (str : string) : M Z :=
  tbl <- get strg_tbl ;;
  ret (loc_str_from tbl 0 str).


(** ** [tree.c] *)

(** The address of the global node [dummy]; the node itself sits in [heap]
    from the start (see [init_state]), and it was not malloc'ed. *)
Definition dummy_addr : tree := 1.
Definition dummy_node : ILTree := mkNode DUMMYNode 0 0 0 0.

(** Reading and writing through a [tree] pointer: the pointer has to be
    live. *)
Definition load (p : tree) : M ILTree :=
  fun s => match heap s p with Some n => Ret n s | None => Undef end.
Definition store (p : tree) (n : ILTree) : M unit :=
  fun s => match heap s p with
           | Some _ => Ret tt (set_heap (upd (heap s) p (Some n)) s)
           | None => Undef
           end.

(** [malloc(sizeof(ILTree))]: a block that no live pointer refers to.  The
    fields of the new block are not set by [malloc]; the model zeroes them,
    and the one field [MakeLeaf] leaves unset, [NodeOpType], is read by no
    routine on a leaf. *)
Definition malloc : M tree :=
  p <- get brk ;;
  modify (fun s => set_heap (upd (heap s) p (Some (mkNode 0 0 0 0 0)))
                            (set_brk (brk s + 1) s)) ;;;
  ret p.

(** [free(p)]: [p] has to be a live malloc'ed block. *)
Definition free (p : tree) : M unit :=
  fun s => if p =? dummy_addr then Undef
           else match heap s p with
                | Some _ => Ret tt (set_heap (upd (heap s) p None) s)
                | None => Undef
                end.

Definition NullExp : M tree := ret dummy_addr.

Definition MakeLeaf (Kind N : Z) : M tree :=
  p <- malloc ;;
  d1 <- NullExp ;;
  d2 <- NullExp ;;
  store p (mkNode Kind 0 N d1 d2) ;;;
  ret p.

Definition MakeTree (NodeOp : Z) (Left Right : tree) : M tree :=
  p <- malloc ;;
  store p (mkNode EXPRNode NodeOp 0 Left Right) ;;;
  ret p.

Definition NodeKind (T : tree) : M Z :=
  n <- load T ;; ret (nodekind n).

Definition LeftChild (T : tree) : M tree :=
  k <- NodeKind T ;;
  if negb (k =? EXPRNode) then NullExp
  else n <- load T ;; ret (leftc n).

Definition RightChild (T : tree) : M tree :=
  k <- NodeKind T ;;
  if negb (k =? EXPRNode) then NullExp
  else n <- load T ;; ret (rightc n).

Definition NodeOp (T : tree) : M Z :=
  k <- NodeKind T ;;
  if negb (k =? EXPRNode) then ret 0
  else n <- load T ;; ret (nodeoptype n).

Definition IntVal (T : tree) : M Z :=
  k <- NodeKind T ;;
  if k =? EXPRNode then
    printf [OStr "IntVal(): This node must be a leaf node!\n"] ;;;
    ret (-1)
  else n <- load T ;; ret (intval n).

Definition IsNull (T : tree) : M bool :=
  k <- NodeKind T ;; ret (k =? DUMMYNode).

Definition SetLeftChild (T NewC : tree) : M unit :=
  k <- NodeKind T ;;
  if negb (k =? EXPRNode) then
    printf [OStr "SetLeftChild(): This node must be an EXPRNode!\n"]
  else
    n <- load T ;;
    store T (mkNode (nodekind n) (nodeoptype n) (intval n) NewC (rightc n)).

Definition SetRightChild (T NewC : tree) : M unit :=
  k <- NodeKind T ;;
  if negb (k =? EXPRNode) then
    printf [OStr "SetRightChild(): This node must be an EXPRNode!\n"]
  else
    n <- load T ;;
    store T (mkNode (nodekind n) (nodeoptype n) (intval n) (leftc n) NewC).

(** The [while] loop of [LeftDepth]; the budget bounds the length of the
    left spine. *)
Fixpoint LeftDepth_loop (fuel : nat) (treenode : tree) (r : Z) : M Z :=
  match fuel with
  | O => fun _ => Fuel
  | S fuel' =>
      null <- IsNull treenode ;;
      if null then ret r
      else
        l <- LeftChild treenode ;;
        LeftDepth_loop fuel' l (r + 1)
  end.

Definition LeftDepth (fuel : nat) (treenode : tree) : M Z :=
  LeftDepth_loop fuel treenode 0.

(** The loop of [MkLeftC]: [while (!IsNull(q)) { p = q; q = LeftChild(p); }];
    it falls through with [p]. *)
Fixpoint MkLeftC_loop (fuel : nat) (p q : tree) : M tree :=
  match fuel with
  | O => fun _ => Fuel
  | S fuel' =>
      null <- IsNull q ;;
      if null then ret p
      else
        q' <- LeftChild q ;;
        MkLeftC_loop fuel' q q'
  end.

(** [MkLeftC(T1, T2)]; the assignment [p->LeftC = T1] goes through the
    pointer without a test of the kind of the node. *)
Definition MkLeftC (fuel : nat) (T1 T2 : tree) : M tree :=
  null <- IsNull T2 ;;
  if null then ret T1
  else
    q <- LeftChild T2 ;;
    p <- MkLeftC_loop fuel T2 q ;;
    n <- load p ;;
    store p (mkNode (nodekind n) (nodeoptype n) (intval n) T1 (rightc n)) ;;;
    ret T2.

Fixpoint MkRightC_loop (fuel : nat) (p q : tree) : M tree :=
  match fuel with
  | O => fun _ => Fuel
  | S fuel' =>
      null <- IsNull q ;;
      if null then ret p
      else
        q' <- RightChild q ;;
        MkRightC_loop fuel' q q'
  end.

(** [MkRightC(T1, T2)] *)
Definition MkRightC (fuel : nat) (T1 T2 : tree) : M tree :=
  null <- IsNull T2 ;;
  if null then ret T1
  else
    q <- RightChild T2 ;;
    p <- MkRightC_loop fuel T2 q ;;
    n <- load p ;;
    store p (mkNode (nodekind n) (nodeoptype n) (intval n) (leftc n) T1) ;;;
    ret T2.

(** [SetNode(Target, Source)]: the fields are assigned one by one, each
    right-hand side read when its assignment is reached. *)
Definition SetNode (Target Source : tree) : M unit :=
  sn <- load Source ;;
  tn <- load Target ;;
  store Target (mkNode (nodekind sn) (nodeoptype tn) (intval tn) (leftc tn)
                       (rightc tn)) ;;;
  if negb (nodekind sn =? EXPRNode) then
    sn <- load Source ;;
    tn <- load Target ;;
    store Target (mkNode (nodekind tn) (nodeoptype tn) (intval sn) (leftc tn)
                         (rightc tn)) ;;;
    d <- NullExp ;;
    tn <- load Target ;;
    store Target (mkNode (nodekind tn) (nodeoptype tn) (intval tn) d
                         (rightc tn)) ;;;
    d <- NullExp ;;
    tn <- load Target ;;
    store Target (mkNode (nodekind tn) (nodeoptype tn) (intval tn) (leftc tn)
                         d)
  else
    sn <- load Source ;;
    tn <- load Target ;;
    store Target (mkNode (nodekind tn) (nodeoptype sn) (intval tn) (leftc tn)
                         (rightc tn)) ;;;
    sn <- load Source ;;
    tn <- load Target ;;
    store Target (mkNode (nodekind tn) (nodeoptype tn) (intval tn) (leftc sn)
                         (rightc tn)) ;;;
    sn <- load Source ;;
    tn <- load Target ;;
    store Target (mkNode (nodekind tn) (nodeoptype tn) (intval tn) (leftc tn)
                         (rightc sn)).

(** [SetNodeOp(T, Op)] *)
Definition SetNodeOp (T Op : Z) : M unit :=
  k <- NodeKind T ;;
  if negb (k =? EXPRNode) then
    printf [OStr "SetNodeOp(): This node must be an EXPRNode!\n"]
  else
    n <- load T ;;
    store T (mkNode (nodekind n) Op (intval n) (leftc n) (rightc n)).

(** [SetLeftTreeOp(T, Op)]: the [do ... while (!IsNull(p))] along the left
    children. *)
Fixpoint SetLeftTreeOp_loop (fuel : nat) (p : tree) (Op : Z) : M unit :=
  match fuel with
  | O => fun _ => Fuel
  | S fuel' =>
      SetNodeOp p Op ;;;
      p' <- LeftChild p ;;
      null <- IsNull p' ;;
      if negb null then SetLeftTreeOp_loop fuel' p' Op else ret tt
  end.

Definition SetLeftTreeOp (fuel : nat) (T : tree) (Op : Z) : M unit :=
  SetLeftTreeOp_loop fuel T Op.

(** [SetRightTreeOp(T, Op)] *)
Fixpoint SetRightTreeOp_loop (fuel : nat) (p : tree) (Op : Z) : M unit :=
  match fuel with
  | O => fun _ => Fuel
  | S fuel' =>
      SetNodeOp p Op ;;;
      p' <- RightChild p ;;
      null <- IsNull p' ;;
      if negb null then SetRightTreeOp_loop fuel' p' Op else ret tt
  end.

Definition SetRightTreeOp (fuel : nat) (T : tree) (Op : Z) : M unit :=
  SetRightTreeOp_loop fuel T Op.

(** ** [semantic_analyzer.c] *)

(** A routine body that can [return] from inside a loop: [Return] is the
    early return, [Next a] falls through with the loop variables [a]. *)
Inductive ctl (A : Type) : Type :=
| Return
| Next (a : A).
Arguments Return {A}.
Arguments Next {A} a.

(** The handlers call [MkST] and [MkST] calls the handlers.  Each handler
    takes the recursive call as its argument [rec], and every loop takes a
    budget [fuel]; [MkST] closes the recursion on that budget. *)
Section Handlers.

Variable rec : tree -> M unit.

(** [classdefop(node)] *)
Definition classdefop (node : tree) : M unit :=
  child <- RightChild node ;;
  nStrInd <- IntVal child ;;
  nSymInd <- InsertEntry nStrInd ;;
  SetAttr nSymInd KIND_ATTR CLASS ;;;
  OpenBlock ;;;
  free child ;;;
  leaf <- MakeLeaf STNode nSymInd ;;
  SetRightChild node leaf ;;;
  body <- LeftChild node ;;
  rec body ;;;
  CloseBlock.

(** The scan of [methodop] for an entry already named like the method:
    [for (i = 0; i <= st_top; i++)], [n] entries still to visit from [i];
    [true] when the scan reported the redeclaration. *)
Fixpoint main_scan (n : nat) (i nStrInd : Z) : M bool :=
  match n with
  | O => ret false
  | S n' =>
      a <- IsAttr i NAME_ATTR ;;
      if negb (a =? 0) then
        v <- GetAttr i NAME_ATTR ;;
        if v =? nStrInd then
          error_msg REDECLARATION CONTINUE nStrInd 0 ;;;
          ret true
        else main_scan n' (i + 1) nStrInd
      else main_scan n' (i + 1) nStrInd
  end.

(** [methodop(node)] *)
Definition methodop (node : tree) : M unit :=
  child <- LeftChild node ;;
  nameleaf <- LeftChild child ;;
  nStrInd <- IntVal nameleaf ;;
  main <- loc_str "main" ;;
  dup <- (if nStrInd =? main then
            top <- get st_top ;;
            main_scan (Z.to_nat (top + 1)) 0 nStrInd
          else ret false) ;;
  if dup then ret tt
  else
    nSymInd <- InsertEntry nStrInd ;;
    OpenBlock ;;;
    spec <- RightChild child ;;
    child1 <- RightChild spec ;;
    null <- IsNull child1 ;;
    (if negb null then
       SetAttr nSymInd KIND_ATTR FUNC ;;;
       SetAttr nSymInd TYPE_ATTR child1
     else SetAttr nSymInd KIND_ATTR PROCE) ;;;
    old <- LeftChild child ;;
    free old ;;;
    leaf <- MakeLeaf STNode nSymInd ;;
    SetLeftChild child leaf ;;;
    params <- RightChild child ;;
    rec params ;;;
    body <- RightChild node ;;
    rec body ;;;
    CloseBlock.

(** The [while] loop of [typeidop] down the right spine. *)
Fixpoint typeidop_loop (fuel : nat) (lchild rchild : tree) : M unit :=
  match fuel with
  | O => fun _ => Fuel
  | S fuel' =>
      null <- IsNull rchild ;;
      if null then ret tt
      else
        lnull <- IsNull lchild ;;
        k <- (if negb lnull then NodeKind lchild else ret INTEGERTNode) ;;
        (if negb lnull && negb (k =? INTEGERTNode) then
           v <- IntVal lchild ;;
           nSymInd <- LookUp v ;;
           free lchild ;;;
           leaf <- MakeLeaf STNode nSymInd ;;
           SetLeftChild rchild leaf
         else ret tt) ;;;
        rchild' <- RightChild rchild ;;
        lchild' <- LeftChild rchild' ;;
        typeidop_loop fuel' lchild' rchild'
  end.

(** [typeidop(node)] *)
Definition typeidop (fuel : nat) (node : tree) : M unit :=
  lchild <- LeftChild node ;;
  typeidop_loop fuel lchild node.

(** The loop variables of [varop] that live across the [do ... while]:
    [found] is declared without a value; [None] is the variable before its
    first assignment, and the program may not read it then. *)
Record varop_vars : Type := mkVars {
  st_ind0 : Z;
  nest0 : Z;
  rchild : tree;
  found : option bool
}.

(** The field search of the [CLASS] case:
    [do { ... i++; } while (i <= st_top && GetAttr(i, NEST_ATTR) > nest0)].
    The two operands of the [==] on the names are evaluated left to
    right. *)
Fixpoint field_scan (fuel : nat) (i : Z) (fld_indop : tree) (v : varop_vars)
  : M varop_vars :=
  match fuel with
  | O => fun _ => Fuel
  | S fuel' =>
      nm <- GetAttr i NAME_ATTR ;;
      fleaf <- LeftChild fld_indop ;;
      fid <- IntVal fleaf ;;
      hit <- (if nm =? fid then
                nst <- GetAttr i NEST_ATTR ;;
                ret (nst =? nest0 v + 1)
              else ret false) ;;
      if hit then
        old <- LeftChild fld_indop ;;
        free old ;;;
        leaf <- MakeLeaf STNode i ;;
        SetLeftChild fld_indop leaf ;;;
        r <- RightChild (rchild v) ;;
        ret (mkVars i (nest0 v + 1) r (Some true))
      else
        top <- get st_top ;;
        if i + 1 <=? top then
          nst <- GetAttr (i + 1) NEST_ATTR ;;
          if nst >? nest0 v
          then field_scan fuel' (i + 1) fld_indop v
          else ret v
        else ret v
  end.

(** The [while (!IsNull(rchild))] loop of the [CLASS] case in a
    declaration. *)
Fixpoint class_index_loop (fuel : nat) (r : tree) : M (ctl tree) :=
  match fuel with
  | O => fun _ => Fuel
  | S fuel' =>
      null <- IsNull r ;;
      if null then ret (Next r)
      else
        r' <- RightChild r ;;
        fld_indop <- LeftChild r' ;;
        op <- NodeOp fld_indop ;;
        if negb (op =? IndexOp) then
          fleaf <- LeftChild fld_indop ;;
          fid <- IntVal fleaf ;;
          error_msg FIELD_MIS CONTINUE fid 0 ;;;
          ret Return
        else class_index_loop fuel' r'
  end.

(** The index loop of the [ARR] case:
    [while (!IsNull(rchild) && NodeOp(fld_indop) != FieldOp)].
    It falls through with [rchild] (which [selectop] equals), [fld_indop]
    and [d]. *)
Fixpoint index_loop (fuel : nat) (sym dimension : Z) (r fld_indop : tree)
         (d : Z) : M (ctl (tree * tree * Z)) :=
  match fuel with
  | O => fun _ => Fuel
  | S fuel' =>
      null <- IsNull r ;;
      op <- (if null then ret FieldOp else NodeOp fld_indop) ;;
      if null || (op =? FieldOp) then ret (Next (r, fld_indop, d))
      else
        if d + 1 >? dimension then
          nm <- GetAttr sym NAME_ATTR ;;
          error_msg INDX_MIS CONTINUE nm 0 ;;;
          ret Return
        else
          e <- LeftChild fld_indop ;;
          k <- NodeKind e ;;
          (if k =? EXPRNode then
             e' <- LeftChild fld_indop ;;
             rec e'
           else ret tt) ;;;
          r' <- RightChild r ;;
          f' <- LeftChild r' ;;
          index_loop fuel' sym dimension r' f' (d + 1)
  end.

(** One turn of the [do ... while] of [varop]: the [switch] on the kind of
    the anchor symbol. *)
Definition varop_case (fuel : nat) (lchild : tree) (declop : Z)
           (v : varop_vars) : M (ctl varop_vars) :=
  kind <- GetAttr (st_ind0 v) KIND_ATTR ;;
  if kind =? VAR then
    typeidop <- GetAttr (st_ind0 v) TYPE_ATTR ;;
    temp <- LeftChild typeidop ;;
    k <- NodeKind temp ;;
    if k =? INTEGERTNode then
      null <- IsNull (rchild v) ;;
      if null then ret Return
      else
        nm <- GetAttr (st_ind0 v) NAME_ATTR ;;
        printf [OName nm; OStr " :"] ;;;
        f <- LeftChild (rchild v) ;;
        fleaf <- LeftChild f ;;
        fid <- IntVal fleaf ;;
        error_msg FIELD_MIS CONTINUE fid 0 ;;;
        ret Return
    else
      cls <- IntVal temp ;;
      if negb (cls =? 0) then
        nst <- GetAttr cls NEST_ATTR ;;
        ret (Next (mkVars cls nst (rchild v) (found v)))
      else ret (Next (mkVars cls (nest0 v) (rchild v) (found v)))
  else if (kind =? PROCE) || (kind =? FUNC) then
    null <- IsNull (rchild v) ;;
    if null then ret Return
    else
      nm <- IntVal lchild ;;
      printf [OStr "method "; OName nm;
              OStr " members cannot be accessed\n"] ;;;
      free lchild ;;;
      exit 1
  else if kind =? CLASS then
    nst <- GetAttr (st_ind0 v) NEST_ATTR ;;
    let v1 := mkVars (st_ind0 v) nst (rchild v) (found v) in
    fld_indop <- LeftChild (rchild v) ;;
    op <- NodeOp fld_indop ;;
    if op =? FieldOp then
      v2 <- field_scan fuel (st_ind0 v + 1) fld_indop v1 ;;
      match found v2 with
      | None => undef
      | Some false =>
          fleaf <- LeftChild fld_indop ;;
          fid <- IntVal fleaf ;;
          error_msg UNDECLARATION CONTINUE fid 0 ;;;
          ret Return
      | Some true => ret (Next v2)
      end
    else if op =? IndexOp then
      if negb (declop =? 1) then
        nm <- GetAttr (st_ind0 v) NAME_ATTR ;;
        error_msg TYPE_MIS CONTINUE nm 0 ;;;
        ret Return
      else
        r <- RightChild (rchild v) ;;
        c <- class_index_loop fuel r ;;
        match c with
        | Return => ret Return
        | Next r' => ret (Next (mkVars (st_ind0 v) nst r' (found v)))
        end
    else ret (Next v1)
  else if kind =? ARR then
    null <- IsNull (rchild v) ;;
    if null then
      nm <- GetAttr (st_ind0 v) NAME_ATTR ;;
      error_msg INDX_MIS CONTINUE nm 0 ;;;
      ret Return
    else
      typeidop <- GetAttr (st_ind0 v) TYPE_ATTR ;;
      temp <- LeftChild typeidop ;;
      fld0 <- LeftChild (rchild v) ;;
      dimension <- GetAttr (st_ind0 v) DIMEN_ATTR ;;
      k <- NodeKind temp ;;
      if k =? INTEGERTNode then
        c <- index_loop fuel (st_ind0 v) dimension (rchild v) fld0 0 ;;
        match c with
        | Return => ret Return
        | Next (r, fld_indop, d) =>
            null <- IsNull r ;;
            if null && (d <? dimension) then
              nm <- GetAttr (st_ind0 v) NAME_ATTR ;;
              error_msg INDX_MIS CONTINUE nm 0 ;;;
              ret Return
            else if negb null then
              fleaf <- LeftChild fld_indop ;;
              fid <- IntVal fleaf ;;
              len <- loc_str "length" ;;
              if negb (fid =? len) then
                nm <- GetAttr (st_ind0 v) NAME_ATTR ;;
                error_msg TYPE_MIS CONTINUE nm 0 ;;;
                ret Return
              else
                after <- RightChild r ;;
                anull <- IsNull after ;;
                if negb anull then
                  nm <- GetAttr (st_ind0 v) NAME_ATTR ;;
                  error_msg TYPE_MIS CONTINUE nm 0 ;;;
                  ret Return
                else
                  r' <- RightChild r ;;
                  _ <- LeftChild r ;;
                  ret (Next (mkVars (st_ind0 v) (nest0 v) r' (found v)))
            else ret (Next (mkVars (st_ind0 v) (nest0 v) r (found v)))
        end
      else
        tempind <- IntVal temp ;;
        if negb (tempind =? 0) then
          c <- index_loop fuel (st_ind0 v) dimension (rchild v) fld0 0 ;;
          match c with
          | Return => ret Return
          | Next (r, fld_indop, d) =>
              null <- IsNull r ;;
              if null && (d <? dimension) then
                nm <- GetAttr (st_ind0 v) NAME_ATTR ;;
                error_msg INDX_MIS CONTINUE nm 0 ;;;
                ret Return
              else if negb null then
                fleaf <- LeftChild fld_indop ;;
                fid <- IntVal fleaf ;;
                len <- loc_str "length" ;;
                if negb (fid =? len) then
                  nst <- GetAttr tempind NEST_ATTR ;;
                  ret (Next (mkVars tempind nst r (found v)))
                else
                  after <- RightChild r ;;
                  anull <- IsNull after ;;
                  if negb anull then
                    nm <- GetAttr (st_ind0 v) NAME_ATTR ;;
                    error_msg TYPE_MIS CONTINUE nm 0 ;;;
                    ret Return
                  else
                    r' <- RightChild r ;;
                    _ <- LeftChild r ;;
                    ret (Next (mkVars (st_ind0 v) (nest0 v) r' (found v)))
              else ret (Next (mkVars (st_ind0 v) (nest0 v) r (found v)))
          end
        else ret (Next v)
  else ret (Next v).

(** The [do ... while (!IsNull(rchild))] of [varop]. *)
Fixpoint varop_loop (fuel : nat) (lchild : tree) (declop : Z)
         (v : varop_vars) : M unit :=
  match fuel with
  | O => fun _ => Fuel
  | S fuel' =>
      c <- varop_case fuel' lchild declop v ;;
      match c with
      | Return => ret tt
      | Next v' =>
          null <- IsNull (rchild v') ;;
          if null then ret tt else varop_loop fuel' lchild declop v'
      end
  end.

(** [varop(node, declop)] *)
Definition varop (fuel : nat) (node : tree) (declop : Z) : M unit :=
  lchild <- LeftChild node ;;
  r <- RightChild node ;;
  nm <- IntVal lchild ;;
  nSymInd <- LookUp nm ;;
  if negb (nSymInd =? 0) then
    leaf <- MakeLeaf STNode nSymInd ;;
    SetLeftChild node leaf ;;;
    varop_loop fuel lchild declop (mkVars nSymInd (-1) r None)
  else
    nm' <- IntVal lchild ;;
    error_msg UNDECLARATION CONTINUE nm' 0.

(** The loop of [declop] that counts the [IndexOp] chain of an array
    type. *)
Fixpoint dimen_loop (fuel : nat) (temp : tree) (n : Z) : M Z :=
  match fuel with
  | O => fun _ => Fuel
  | S fuel' =>
      null <- IsNull temp ;;
      if null then ret n
      else
        temp' <- RightChild temp ;;
        dimen_loop fuel' temp' (n + 1)
  end.

(** The [while (!IsNull(child))] loop of [declop] along the left spine. *)
Fixpoint declop_loop (fuel : nat) (child : tree) : M unit :=
  match fuel with
  | O => fun _ => Fuel
  | S fuel' =>
      null <- IsNull child ;;
      if null then ret tt
      else
        child1 <- RightChild child ;;
        nameleaf <- LeftChild child1 ;;
        nStrInd <- IntVal nameleaf ;;
        nSymInd <- InsertEntry nStrInd ;;
        if nSymInd =? 0 then ret tt
        else
          rc1 <- RightChild child1 ;;
          typenode <- LeftChild rc1 ;;
          SetAttr nSymInd TYPE_ATTR typenode ;;;
          old <- LeftChild child1 ;;
          free old ;;;
          leaf <- MakeLeaf STNode nSymInd ;;
          SetLeftChild child1 leaf ;;;
          typeidop fuel' typenode ;;;
          dims <- RightChild typenode ;;
          dnull <- IsNull dims ;;
          (if dnull then SetAttr nSymInd KIND_ATTR VAR
           else
             dims' <- RightChild typenode ;;
             op <- NodeOp dims' ;;
             if op =? IndexOp then
               temp <- RightChild typenode ;;
               n <- dimen_loop fuel' temp 0 ;;
               SetAttr nSymInd DIMEN_ATTR n ;;;
               SetAttr nSymInd KIND_ATTR ARR
             else ret tt) ;;;
          rc1' <- RightChild child1 ;;
          child2 <- RightChild rc1' ;;
          op2 <- NodeOp child2 ;;
          (if op2 =? VarOp then varop fuel' child2 1 else rec child2) ;;;
          child' <- LeftChild child ;;
          declop_loop fuel' child'
  end.

(** [declop(node)] *)
Definition declop (fuel : nat) (node : tree) : M unit :=
  declop_loop fuel node.

(** The [while (!IsNull(child))] loop of [specop] over the parameters. *)
Fixpoint specop_loop (fuel : nat) (child : tree) : M unit :=
  match fuel with
  | O => fun _ => Fuel
  | S fuel' =>
      null <- IsNull child ;;
      if null then ret tt
      else
        child1 <- LeftChild child ;;
        nameleaf <- LeftChild child1 ;;
        nStrInd <- IntVal nameleaf ;;
        nSymInd <- InsertEntry nStrInd ;;
        ty <- RightChild child1 ;;
        SetAttr nSymInd TYPE_ATTR ty ;;;
        op <- NodeOp child ;;
        (if op =? VArgTypeOp then SetAttr nSymInd KIND_ATTR VALUE_ARG
         else
           op' <- NodeOp child ;;
           if op' =? RArgTypeOp then SetAttr nSymInd KIND_ATTR REF_ARG
           else ret tt) ;;;
        old <- LeftChild child1 ;;
        free old ;;;
        leaf <- MakeLeaf STNode nSymInd ;;
        SetLeftChild child1 leaf ;;;
        child' <- RightChild child ;;
        specop_loop fuel' child'
  end.

(** [specop(node)] *)
Definition specop (fuel : nat) (node : tree) : M unit :=
  child <- LeftChild node ;;
  specop_loop fuel child.

(** [routinecallop(node)] *)
Definition routinecallop (fuel : nat) (node : tree) : M unit :=
  lchild <- LeftChild node ;;
  r <- RightChild node ;;
  varop fuel lchild 2 ;;;
  rec r.

(** The body of [MkST(treenode)]: the [switch] on the operator. *)
Definition MkST_body (fuel : nat) (treenode : tree) : M unit :=
  null <- IsNull treenode ;;
  if negb null then
    op <- NodeOp treenode ;;
    if op =? ClassDefOp then classdefop treenode
    else if op =? MethodOp then methodop treenode
    else if op =? DeclOp then declop fuel treenode
    else if op =? SpecOp then specop fuel treenode
    else if op =? TypeIdOp then typeidop fuel treenode
    else if op =? VarOp then varop fuel treenode 0
    else if op =? RoutineCallOp then routinecallop fuel treenode
    else
      l <- LeftChild treenode ;;
      rec l ;;;
      r <- RightChild treenode ;;
      rec r
  else ret tt.

End Handlers.

(** [MkST(treenode)]: [fuel] bounds the depth of the calls and the turns of
    every loop below them. *)
Fixpoint MkST (fuel : nat) (treenode : tree) : M unit :=
  match fuel with
  | O => fun _ => Fuel
  | S fuel' => MkST_body (MkST fuel') fuel' treenode
  end.

(** ** The initial state

    Every global is zero, nothing is allocated, and [dummy] holds its
    initializer. *)

Definition zero_entry : StackEntry := mkStackEntry false 0 0 false false.
Definition zero_attr : attr_type := mkAttr 0 0 0.

Definition init_state (tbl : list string) (line : Z) : State :=
  mkState (fun _ => zero_entry) (fun _ => 0) (fun _ => zero_attr)
          0 0 0 0 line tbl
          (fun p => if p =? dummy_addr then Some dummy_node else None)
          1000 [].

(** ** Vocabulary of the statements *)

(** The state after [error_msg(type, _, id, seq)] has printed: the line
    header and the text for [type] are added to the output. *)
Definition reported (type id seq : Z) (s : State) : State :=
  set_out ((out s ++ [OStr "Semantic Error--line: "; OInt (yyline s); OStr ", "])
           ++ error_text type id seq) s.

(** A frame that [LookUp] takes for [id]: not a marker, and named [id]. *)
Definition names (e : StackEntry) (id : Z) : bool :=
  negb (marker e) && (name e =? id).

(** A frame that [LookUpHere] takes for [id]: named [id] and not a dummy. *)
Definition binds (e : StackEntry) (id : Z) : bool :=
  (name e =? id) && negb (dummy e).

Definition mark_used (e : StackEntry) : StackEntry :=
  mkStackEntry (marker e) (name e) (st_ptr e) (dummy e) true.

(** The state after [Push(mk, nm, ptr, dm)] on a stack with room. *)
Definition pushed (mk : bool) (nm ptr : Z) (dm : bool) (s : State) : State :=
  set_stack (upd (stack s) (stack_top s + 1) (mkStackEntry mk nm ptr dm false))
            (set_stack_top (stack_top s + 1) s).

(** The attribute list of a symbol is a chain of cells of the pool:
    [seg s i l j] walks from cell [i] along [next_attr] over the cells [l]
    (all of them in use, that is between 1 and [attr_top]) and arrives at
    [j]; a chain ends at 0. *)
Inductive seg (s : State) : Z -> list Z -> Z -> Prop :=
| seg_nil : forall i, seg s i [] i
| seg_cons : forall i l j,
    1 <= i <= attr_top s ->
    seg s (next_attr (attrarray s i)) l j ->
    seg s i (i :: l) j.

Definition chain (s : State) (i : Z) (l : list Z) : Prop := seg s i l 0.

Definition kind_of (s : State) (c : Z) : Z := attr_num (attrarray s c).
Definition kinds (s : State) (l : list Z) : list Z := map (kind_of s) l.

(** The attributes a chain holds, in chain order, as (kind, value). *)
Definition alist (s : State) (l : list Z) : list (Z * Z) :=
  map (fun c => (attr_num (attrarray s c), attr_val (attrarray s c))) l.

(** The values a C [char] holds. *)
Definition is_char (k : Z) : Prop := -128 <= k <= 127.

(** Ascending order of a list of kinds, without repetition. *)
Inductive ascending : list Z -> Prop :=
| asc_nil : ascending []
| asc_cons : forall k l,
    Forall (fun k' => k < k') l -> ascending l -> ascending (k :: l).

(** A chain is well formed when its kinds are [char]s in ascending order. *)
Definition attrs_ok (s : State) (l : list Z) : Prop :=
  ascending (kinds s l) /\ Forall is_char (kinds s l).

(** The attribute list after [set_attr], in the words of the
    specification: overwrite the attribute if it exists, else insert it so
    that the list stays keyed by ascending kind. *)
Fixpoint insert_sorted (k v : Z) (l : list (Z * Z)) : list (Z * Z) :=
  match l with
  | [] => [(k, v)]
  | (k', v') :: l' =>
      if k' <? k then (k', v') :: insert_sorted k v l' else (k, v) :: l
  end.

Definition overwrite (k v : Z) (l : list (Z * Z)) : list (Z * Z) :=
  map (fun kv => if fst kv =? k then (k, v) else kv) l.

Definition has_kind (k : Z) (l : list (Z * Z)) : bool :=
  existsb (fun kv => fst kv =? k) l.

Definition set_assoc (k v : Z) (l : list (Z * Z)) : list (Z * Z) :=
  if has_kind k l then overwrite k v l else insert_sorted k v l.

(** The value of kind [k] in an attribute list. *)
Fixpoint assoc (k : Z) (l : list (Z * Z)) : option Z :=
  match l with
  | [] => None
  | (k', v') :: l' => if k' =? k then Some v' else assoc k l'
  end.

(** The cell [IsAttr] stops at when it walks the cells [l] for kind [k]. *)
Fixpoint find_cell (s : State) (k : Z) (l : list Z) : Z :=
  match l with
  | [] => 0
  | c :: l' =>
      if kind_of s c =? k then c
      else if kind_of s c >? k then 0
      else find_cell s k l'
  end.

(** The link [SetAttr] ends its walk on: the link it started from when the
    walk passed no cell, else the [next_attr] field of the last cell
    passed. *)
Definition last_link (p : link) (l : list Z) : link :=
  match rev l with
  | [] => p
  | c :: _ => LNext c
  end.

Definition head_or_0 (l : list Z) : Z :=
  match l with
  | [] => 0
  | c :: _ => c
  end.

(** The state after [SetAttr] has overwritten the value of cell [c]. *)
Definition overwritten (c v : Z) (s : State) : State :=
  set_attrarray
    (upd (attrarray s) c
         (mkAttr (attr_num (attrarray s c)) v (next_attr (attrarray s c)))) s.

(** The state after [SetAttr] has filled the next free cell with
    [(k, v, next)] and made the link [p] point to it. *)
Definition new_cell (k v next : Z) (s : State) : State :=
  set_attrarray (upd (attrarray s) (attr_top s + 1) (mkAttr (to_char k) v next))
                (set_attr_top (attr_top s + 1) s).

Definition relinked (p : link) (n : Z) (s : State) : State :=
  match p with
  | LSt ptr => set_st (upd (st s) ptr n) s
  | LNext c =>
      set_attrarray
        (upd (attrarray s) c
             (mkAttr (attr_num (attrarray s c)) (attr_val (attrarray s c)) n)) s
  end.

Definition inserted (p : link) (k v next : Z) (s : State) : State :=
  relinked p (attr_top s + 1) (new_cell k v next s).

(** The current scope of a state whose nearest marker is at index [b]:
    no frame above [b] is a marker. *)
Definition scope_from (s : State) (b : Z) : Prop :=
  0 <= b <= stack_top s /\
  marker (stack s b) = true /\
  forall j, b < j <= stack_top s -> marker (stack s j) = false.

(** Name [id] is not bound in the scope that starts at [b]. *)
Definition unbound_here (s : State) (b id : Z) : Prop :=
  forall j, b < j <= stack_top s -> binds (stack s j) id = false.

(** Name [id] is bound in the current scope, by frame [i]: no marker from
    [i] up, frame [i] is the topmost that binds [id], and it carries a
    symbol. *)
Definition bound_here (s : State) (i id : Z) : Prop :=
  0 <= i <= stack_top s /\
  (forall j, i <= j <= stack_top s -> marker (stack s j) = false) /\
  binds (stack s i) id = true /\
  (forall j, i < j <= stack_top s -> binds (stack s j) id = false) /\
  st_ptr (stack s i) <> 0.

(** The table after [InsertEntry] has taken and cleared the next slot. *)
Definition slot_taken (s : State) : State :=
  set_st (upd (st s) (st_top s + 1) 0) (set_st_top (st_top s + 1) s).

(** The state after [InsertEntry(id)] has entered a new symbol: the next
    slot of the table is cleared, the Name and Nest cells are taken from
    the pool and linked, and the frame is pushed. *)
Definition entered (id : Z) (s : State) : State :=
  pushed false id (st_top s + 1) false
    (inserted (LNext (attr_top s + 1)) NEST_ATTR (nesting s) 0
       (inserted (LSt (st_top s + 1)) NAME_ATTR id 0
          (set_st (upd (st s) (st_top s + 1) 0)
                  (set_st_top (st_top s + 1) s)))).

(** Symbol [p] has attribute [k] with value [v]: its chain is well formed
    and holds [(k, v)]. *)
Definition has_attr (s : State) (p k v : Z) : Prop :=
  exists l, chain s (st s p) l /\ attrs_ok s l /\ assoc k (alist s l) = Some v.

(** The attribute store is well formed: the top of the pool is inside the
    pool, every slot of the table heads a well-formed chain, and no cell
    lies on the chains of two slots. *)
Definition pool_inv (s : State) : Prop :=
  0 <= attr_top s < ATTR_SIZE /\
  exists cells : Z -> list Z,
    (forall p, 0 <= p < ST_SIZE ->
               chain s (st s p) (cells p) /\ attrs_ok s (cells p)) /\
    (forall p q c, 0 <= p < ST_SIZE -> 0 <= q < ST_SIZE ->
                   In c (cells p) -> In c (cells q) -> p = q).

(** The table and the stack are well formed. *)
Definition table_inv (s : State) : Prop :=
  pool_inv s /\
  0 <= st_top s < ST_SIZE /\
  0 <= stack_top s < STACK_SIZE.

(** Two frames are the same binding: they agree on everything but the
    [used] flag, which may only have been set. *)
Definition same_binding (e e' : StackEntry) : Prop :=
  marker e' = marker e /\ name e' = name e /\ st_ptr e' = st_ptr e /\
  dummy e' = dummy e /\ (used e = true -> used e' = true).

(** Calls of the symbol-table interface, with matched blocks: [OBlock body]
    is [OpenBlock], the calls of [body], [CloseBlock]. *)
#[warnings="-register-all"]
Inductive op : Type :=
| OInsert (id : Z)
| OLookUp (id : Z)
| OSetAttr (sym k v : Z)
| OBlock (body : list op).

Fixpoint run_op (o : op) : M unit :=
  match o with
  | OInsert id => InsertEntry id ;;; ret tt
  | OLookUp id => LookUp id ;;; ret tt
  | OSetAttr sym k v => SetAttr sym k v
  | OBlock body =>
      OpenBlock ;;;
      (fix run_list (l : list op) : M unit :=
         match l with
         | [] => ret tt
         | o' :: l' => run_op o' ;;; run_list l'
         end) body ;;;
      CloseBlock
  end.

Fixpoint run_list (l : list op) : M unit :=
  match l with
  | [] => ret tt
  | o :: l' => run_op o ;;; run_list l'
  end.

(** The calls that leave Nest attributes alone: every [SetAttr] is for a
    kind that fits the [char] field and is not Nest. *)
Fixpoint op_ok (o : op) : Prop :=
  match o with
  | OInsert _ => True
  | OLookUp _ => True
  | OSetAttr _ k _ => is_char k /\ k <> NEST_ATTR
  | OBlock body =>
      (fix ops_ok (l : list op) : Prop :=
         match l with
         | [] => True
         | o' :: l' => op_ok o' /\ ops_ok l'
         end) body
  end.

Fixpoint ops_ok (l : list op) : Prop :=
  match l with
  | [] => True
  | o :: l' => op_ok o /\ ops_ok l'
  end.

(** What a sequence of calls that returns, run at one block level from
    [s] to [s'], has done: the table is still well formed and the nesting
    depth is the same; the frames that were on the stack are the same
    bindings; the frames pushed since are no markers, and each one that is
    not a dummy carries a symbol whose Nest is the depth; and no symbol has
    lost or changed its Nest. *)
Definition level_step (s s' : State) : Prop :=
  table_inv s' /\
  nesting s' = nesting s /\
  0 <= stack_top s <= stack_top s' /\
  st_top s <= st_top s' /\
  (forall j, 1 <= j <= stack_top s -> same_binding (stack s j) (stack s' j)) /\
  (forall j, stack_top s < j <= stack_top s' ->
     marker (stack s' j) = false /\
     (dummy (stack s' j) = false ->
      1 <= st_ptr (stack s' j) <= st_top s' /\
      has_attr s' (st_ptr (stack s' j)) NEST_ATTR (nesting s))) /\
  (forall p v, 0 <= p <= st_top s ->
     has_attr s p NEST_ATTR v -> has_attr s' p NEST_ATTR v).

(** Slot [p] of the table heads a well-formed chain. *)
Definition slot_ok (s : State) (p : Z) : Prop :=
  exists l, chain s (st s p) l /\ attrs_ok s l.

(** Shapes of the nodes of the heap: an operator node with its operator and
    children, a leaf with its kind and value, the absent child. *)
Definition expr_node (s : State) (p : tree) (op : Z) (l r : tree) : Prop :=
  exists iv, heap s p = Some (mkNode EXPRNode op iv l r).

Definition leaf_node (s : State) (p : tree) (kind v : Z) : Prop :=
  kind <> EXPRNode /\
  exists op l r, heap s p = Some (mkNode kind op v l r).

Definition null_node (s : State) (p : tree) : Prop :=
  exists n, heap s p = Some n /\ nodekind n = DUMMYNode.

(** The seven operators [MkST] hands to a handler. *)
Definition dispatched (op : Z) : bool :=
  (op =? ClassDefOp) || (op =? MethodOp) || (op =? DeclOp) || (op =? SpecOp)
  || (op =? TypeIdOp) || (op =? VarOp) || (op =? RoutineCallOp).

(** A tree of the heap that holds no dispatched operator; the number bounds
    its height. *)
Inductive plain (s : State) : tree -> nat -> Prop :=
| plain_null : forall p n, null_node s p -> plain s p n
| plain_leaf : forall p kind v n,
    leaf_node s p kind v -> kind <> DUMMYNode ->
    null_node s dummy_addr -> plain s p (S n)
| plain_op : forall p op l r n,
    expr_node s p op l r -> dispatched op = false ->
    plain s l n -> plain s r n -> plain s p (S n).

(** The block that [malloc] hands out next is not live. *)
Definition fresh_block (s : State) : Prop := heap s (brk s) = None.

(** The state after [MakeLeaf(k, v)]. *)
Definition allocated (k v : Z) (t : State) : State :=
  set_heap (upd (upd (heap t) (brk t) (Some (mkNode 0 0 0 0 0))) (brk t)
                (Some (mkNode k 0 v dummy_addr dummy_addr)))
           (set_brk (brk t + 1) t).

(** The state after [SetLeftChild(node, new)] on the operator node [n]. *)
Definition left_set (node new : tree) (n : ILTree) (t : State) : State :=
  set_heap (upd (heap t) node
                (Some (mkNode (nodekind n) (nodeoptype n) (intval n) new
                              (rightc n)))) t.

(** The state in which [varop] enters its loop: the lookup has marked the
    frame [f] of the base name used, and the left child of the [VarOp] node
    is a new [STNode] leaf for the symbol [arr]. *)
Definition resolved (node : tree) (f arr : Z) (n : ILTree) (s : State)
  : State :=
  left_set node (brk s) n
    (allocated STNode arr
       (set_stack (upd (stack s) f (mark_used (stack s f))) s)).

(** [s'] is [s] on the nodes [nodes], and symbol [arr] is still named
    [nm]. *)
Definition keeps (nodes : list tree) (arr nm : Z) (s s' : State) : Prop :=
  (forall q, In q nodes -> heap s' q = heap s q) /\
  has_attr s' arr NAME_ATTR nm /\
  attr_top s' < ATTR_SIZE /\
  strg_tbl s' = strg_tbl s.

(** The index loop of [varop] has dealt with the operand [e] of an
    [IndexOp], from state [s] to state [s']: a leaf is left alone; an
    operator node is analyzed by the recursive call [rec], which returned
    and kept the nodes [nodes] and the name of the array. *)
Definition analysed (rec : tree -> M unit) (nodes : list tree) (arr nm : Z)
           (e : tree) (s s' : State) : Prop :=
  exists n, heap s e = Some n /\
    ((nodekind n <> EXPRNode /\ s' = s) \/
     (nodekind n = EXPRNode /\ rec e s = Ret tt s' /\
      keeps nodes arr nm s s')).

(** A spine of a tree: from the root along [LeftChild] (or [RightChild]) to
    the last node before a null node, the nodes [LeftDepth] counts and
    [MkLeftC] walks.  [LeftChild] and [RightChild] of a leaf are the node
    [dummy]. *)
Definition left_of (n : ILTree) : tree :=
  if nodekind n =? EXPRNode then leftc n else dummy_addr.

Definition right_of (n : ILTree) : tree :=
  if nodekind n =? EXPRNode then rightc n else dummy_addr.

Inductive spine (next : ILTree -> tree) (s : State)
  : tree -> list tree -> Prop :=
| spine_end : forall p, null_node s p -> spine next s p []
| spine_step : forall p n l,
    heap s p = Some n -> nodekind n <> DUMMYNode ->
    spine next s (next n) l ->
    spine next s p (p :: l).

(** The state after the assignment [p->LeftC = c] (or [p->RightC = c]) on
    the node [n]. *)
Definition left_written (p c : tree) (n : ILTree) (s : State) : State :=
  set_heap (upd (heap s) p
                (Some (mkNode (nodekind n) (nodeoptype n) (intval n) c
                              (rightc n)))) s.

Definition right_written (p c : tree) (n : ILTree) (s : State) : State :=
  set_heap (upd (heap s) p
                (Some (mkNode (nodekind n) (nodeoptype n) (intval n)
                              (leftc n) c))) s.

(** The heap after [SetNodeOp] has set the operator of the nodes [l], one
    after the other. *)
Fixpoint ops_set (l : list tree) (Op : Z) (h : Z -> option ILTree)
  : Z -> option ILTree :=
  match l with
  | [] => h
  | p :: l' =>
      ops_set l' Op
        (upd h p
             (match h p with
              | Some n => Some (mkNode (nodekind n) Op (intval n) (leftc n)
                                       (rightc n))
              | None => None
              end))
  end.

(** The node [SetNode] leaves in the target: a leaf takes the kind and the
    value of the source and the node [dummy] as children, an operator node
    takes the operator and the children of the source; the other fields of
    the target stay. *)
Definition copied (tn sn : ILTree) : ILTree :=
  if nodekind sn =? EXPRNode
  then mkNode (nodekind sn) (nodeoptype sn) (intval tn) (leftc sn) (rightc sn)
  else mkNode (nodekind sn) (nodeoptype tn) (intval sn) dummy_addr dummy_addr.

(** The node after [SetNodeOp] has set its operator. *)
Definition with_op (Op : Z) (n : ILTree) : ILTree :=
  mkNode (nodekind n) Op (intval n) (leftc n) (rightc n).

(** Every node of [l] is an operator node. *)
Definition all_expr (s : State) (l : list tree) : Prop :=
  Forall (fun q => exists n, heap s q = Some n /\ nodekind n = EXPRNode) l.

(** ** States used as examples

    They are reached by running the routines from [init_state]. *)

Definition final {A : Type} (o : outcome A) : State :=
  match o with
  | Ret _ s => s
  | Exit _ s => s
  | _ => init_state [] 0
  end.

(** One block is open and nothing is declared. *)
Definition st_block : State := final (OpenBlock (init_state [] 1)).

(** One block is open and name 5 is declared in it. *)
Definition st_decl5 : State :=
  final ((OpenBlock ;;; InsertEntry 5) (init_state [] 1)).

(** One block is open and name 7 was looked up without being declared, so
    a dummy frame for 7 lies on the stack. *)
Definition st_dummy7 : State :=
  final ((OpenBlock ;;; LookUp 7) (init_state [] 1)).

(** [n] calls of a routine on the consecutive names [i], [i + 1], ... *)
Fixpoint each_name (n : nat) (f : Z -> M Z) (i : Z) : M unit :=
  match n with
  | O => ret tt
  | S n' => f i ;;; each_name n' f (i + 1)
  end.

(** One block is open and 98 undeclared names were looked up: the stack
    holds the marker and 98 dummy frames, its top is 99. *)
Definition st_full_stack : State :=
  final ((OpenBlock ;;; each_name 98 LookUp 100) (init_state [] 1)).

(** 499 names were declared, each in a block of its own that is closed
    again: the table holds 499 symbols, the stack is empty. *)
Definition st_499 : State :=
  final (each_name 499
           (fun i => OpenBlock ;;; r <- InsertEntry i ;; CloseBlock ;;; ret r)
           1 (init_state [] 1)).

(** The state [st_499] with a block opened: the table holds 499 symbols
    and the stack the one marker. *)
Definition st_499_open : State := final (OpenBlock st_499).

(** The calls run inside a block in the example of the round trip: a
    declaration, a use of the outer name 5, an attribute, and a nested
    block that declares 5 again. *)
Definition example_body : list op :=
  [OInsert 9; OLookUp 5; OSetAttr 1 KIND_ATTR VAR; OBlock [OInsert 5]].

Definition st_in_block : State :=
  final ((OpenBlock ;;; run_list example_body) st_decl5).

(** A block that only looks up the outer name 5, run and closed. *)
Definition st_after_lookup_block : State :=
  final ((OpenBlock ;;; LookUp 5 ;;; CloseBlock) st_decl5).





(** The tree of the expression [1 + 2]. *)
Definition build_sum : M tree :=
  a <- MakeLeaf NUMNode 1 ;;
  b <- MakeLeaf NUMNode 2 ;;
  MakeTree AddOp a b.

Definition st_sum : State := final (build_sum (init_state [] 1)).

(** The tree of [class a { method void main() {} }
    class b { method void main() {} }], built bottom-up in a state where a
    block is open; the routine returns the root. *)
Definition two_mains_tbl : list string := ["p"; "a"; "main"; "b"].

Definition build_class (name : Z) : M tree :=
  d <- NullExp ;;
  m <- MakeLeaf IDNode 4 ;;
  sp <- MakeTree SpecOp d d ;;
  h <- MakeTree HeadOp m sp ;;
  meth <- MakeTree MethodOp h d ;;
  c <- MakeLeaf IDNode name ;;
  MakeTree ClassDefOp meth c.

Definition build_two_mains : M tree :=
  OpenBlock ;;;
  a <- build_class 2 ;;
  b <- build_class 9 ;;
  MakeTree ClassOp a b.

(** The state when class [a] has been analyzed and class [b] not yet. *)
Definition st_one_main : State :=
  final ((build_two_mains ;;; MkST 10 1005) (init_state two_mains_tbl 1)).

(** Two one-element lists as the parser links them: each a [CommaOp] node
    with a null left child and a number as right child. *)
Definition build_list : M tree :=
  d <- NullExp ;;
  a <- MakeLeaf NUMNode 1 ;;
  c <- MakeTree CommaOp d a ;;
  b <- MakeLeaf NUMNode 2 ;;
  MakeTree CommaOp d b.

Definition st_list : State := final (build_list (init_state [] 1)).

(** A 2-dimensional array of integers [a] is declared in an open block,
    with the attributes [declop] gives it, and two uses of it are built as
    the parser builds them: [a[1][2 + 3][4]], whose root is 1014, and
    [a.length], whose root is 1019. *)
Definition array_tbl : list string := ["a"; "length"].

Definition build_array : M tree :=
  OpenBlock ;;;
  a <- InsertEntry 0 ;;
  d <- NullExp ;;
  it <- MakeLeaf INTEGERTNode 0 ;;
  ty <- MakeTree TypeIdOp it d ;;
  SetAttr a TYPE_ATTR ty ;;;
  SetAttr a DIMEN_ATTR 2 ;;;
  SetAttr a KIND_ATTR ARR ;;;
  base <- MakeLeaf IDNode 0 ;;
  n1 <- MakeLeaf NUMNode 1 ;;
  n2 <- MakeLeaf NUMNode 2 ;;
  n3 <- MakeLeaf NUMNode 3 ;;
  sum <- MakeTree AddOp n2 n3 ;;
  n4 <- MakeLeaf NUMNode 4 ;;
  x3 <- MakeTree IndexOp n4 d ;;
  r3 <- MakeTree SelectOp x3 d ;;
  x2 <- MakeTree IndexOp sum d ;;
  r2 <- MakeTree SelectOp x2 r3 ;;
  x1 <- MakeTree IndexOp n1 d ;;
  r1 <- MakeTree SelectOp x1 r2 ;;
  _ <- MakeTree VarOp base r1 ;;
  lf <- MakeLeaf IDNode 2 ;;
  fx <- MakeTree FieldOp lf d ;;
  fr <- MakeTree SelectOp fx d ;;
  base2 <- MakeLeaf IDNode 0 ;;
  MakeTree VarOp base2 fr.

Definition st_array : State := final (build_array (init_state array_tbl 1)).

(** A 2-dimensional array of integers [a] and a method [m] are declared in
    an open block, and [a[m.x][0][0]] is built as the parser builds it:
    the operand of the first index is the [VarOp] 1006 on [m.x], and the
    root is 1016. *)
Definition method_tbl : list string := ["a"; "m"; "x"].

Definition build_method_index : M tree :=
  OpenBlock ;;;
  a <- InsertEntry 0 ;;
  d <- NullExp ;;
  it <- MakeLeaf INTEGERTNode 0 ;;
  ty <- MakeTree TypeIdOp it d ;;
  SetAttr a TYPE_ATTR ty ;;;
  SetAttr a DIMEN_ATTR 2 ;;;
  SetAttr a KIND_ATTR ARR ;;;
  m <- InsertEntry 2 ;;
  SetAttr m KIND_ATTR PROCE ;;;
  mb <- MakeLeaf IDNode 2 ;;
  xl <- MakeLeaf IDNode 4 ;;
  fx <- MakeTree FieldOp xl d ;;
  fr <- MakeTree SelectOp fx d ;;
  mv <- MakeTree VarOp mb fr ;;
  z1 <- MakeLeaf NUMNode 0 ;;
  z2 <- MakeLeaf NUMNode 0 ;;
  x3 <- MakeTree IndexOp z2 d ;;
  r3 <- MakeTree SelectOp x3 d ;;
  x2 <- MakeTree IndexOp z1 d ;;
  r2 <- MakeTree SelectOp x2 r3 ;;
  x1 <- MakeTree IndexOp mv d ;;
  r1 <- MakeTree SelectOp x1 r2 ;;
  base <- MakeLeaf IDNode 0 ;;
  MakeTree VarOp base r1.

Definition st_method_index : State :=
  final (build_method_index (init_state method_tbl 1)).

(** The 2-dimensional array of integers [a] again, with four more uses of
    it: [a[1]], whose root is 1006, [a.length.x], whose root is 1014,
    [a[1].length.x], whose root is 1025, and [a[1][2].length.x], whose root
    is 1039. *)
Definition chains_tbl : list string := ["a"; "length"; "x"].

Definition build_length_x : M tree :=
  d <- NullExp ;;
  xl <- MakeLeaf IDNode 9 ;;
  fx <- MakeTree FieldOp xl d ;;
  rx <- MakeTree SelectOp fx d ;;
  ll <- MakeLeaf IDNode 2 ;;
  fl <- MakeTree FieldOp ll d ;;
  MakeTree SelectOp fl rx.

Definition build_index (v : Z) (rest : tree) : M tree :=
  d <- NullExp ;;
  n <- MakeLeaf NUMNode v ;;
  x <- MakeTree IndexOp n d ;;
  MakeTree SelectOp x rest.

Definition build_chains : M tree :=
  OpenBlock ;;;
  a <- InsertEntry 0 ;;
  d <- NullExp ;;
  it <- MakeLeaf INTEGERTNode 0 ;;
  ty <- MakeTree TypeIdOp it d ;;
  SetAttr a TYPE_ATTR ty ;;;
  SetAttr a DIMEN_ATTR 2 ;;;
  SetAttr a KIND_ATTR ARR ;;;
  b1 <- MakeLeaf IDNode 0 ;;
  r1 <- build_index 1 d ;;
  _ <- MakeTree VarOp b1 r1 ;;
  b2 <- MakeLeaf IDNode 0 ;;
  r2 <- build_length_x ;;
  _ <- MakeTree VarOp b2 r2 ;;
  b3 <- MakeLeaf IDNode 0 ;;
  l3 <- build_length_x ;;
  r3 <- build_index 1 l3 ;;
  _ <- MakeTree VarOp b3 r3 ;;
  b4 <- MakeLeaf IDNode 0 ;;
  l4 <- build_length_x ;;
  j4 <- build_index 2 l4 ;;
  r4 <- build_index 1 j4 ;;
  MakeTree VarOp b4 r4.

Definition st_chains : State :=
  final (build_chains (init_state chains_tbl 1)).


(** * Properties of the error reporter *)

Lemma error_msg_eq : forall type action id seq s,
  error_msg type action id seq s =
  if action =? ABORT then Exit 0 (reported type id seq s)
  else Ret tt (reported type id seq s).
Proof.
  intros. unfold error_msg, bind, get, printf, modify, exit, ret, reported.
  destruct (action =? ABORT); reflexivity.
Qed.

Lemma error_msg_continue : forall type id seq s,
  error_msg type CONTINUE id seq s = Ret tt (reported type id seq s).
Proof. intros. rewrite error_msg_eq. reflexivity. Qed.

Lemma error_msg_abort : forall type id seq s,
  error_msg type ABORT id seq s = Exit 0 (reported type id seq s).
Proof. intros. rewrite error_msg_eq. reflexivity. Qed.

(** C3, as the code has it: for every error code, [error_msg] prints the
    line header and the diagnostic; with severity [ABORT] it then ends the
    process with [exit(0)], exit status zero, and with any other severity it
    returns to the caller. *)
Theorem error_msg_abort_exits_with_status_zero :
  forall type action id seq s,
    (action = ABORT ->
     error_msg type action id seq s = Exit 0 (reported type id seq s)) /\
    (action <> ABORT ->
     error_msg type action id seq s = Ret tt (reported type id seq s)).
Proof.
  intros. rewrite error_msg_eq. split; intros H.
  - subst. reflexivity.
  - destruct (Z.eqb_spec action ABORT); [contradiction | reflexivity].
Qed.

(** C3 as stated fails: a table overflow reported with [ABORT] ends the
    process with status 0, not with a non-zero status. *)
Lemma error_msg_abort_status_not_nonzero :
  ~ (exists code s',
        error_msg ST_OVERFLOW ABORT 0 0 (init_state [] 1) = Exit code s' /\
        code <> 0).
Proof.
  intros (code & s' & H & Hne). rewrite error_msg_abort in H.
  inversion H. congruence.
Qed.

Lemma error_msg_abort_exits_with_status_zero_witness :
  error_msg ST_OVERFLOW ABORT 0 0 (init_state [] 1)
    = Exit 0 (reported ST_OVERFLOW 0 0 (init_state [] 1)) /\
  error_msg REDECLARATION CONTINUE 7 0 (init_state [] 1)
    = Ret tt (reported REDECLARATION 7 0 (init_state [] 1)).
Proof.
  split.
  - apply (error_msg_abort_exits_with_status_zero
             ST_OVERFLOW ABORT 0 0 (init_state [] 1)). reflexivity.
  - apply (error_msg_abort_exits_with_status_zero
             REDECLARATION CONTINUE 7 0 (init_state [] 1)).
    unfold CONTINUE, ABORT. lia.
Defined.

(** * Properties of the scope stack *)

(** Linear arithmetic with the capacities unfolded. *)
Ltac caplia := unfold STACK_SIZE, ST_SIZE, ATTR_SIZE in *; cbn in *; lia.

Lemma upd_same : forall A (f : Z -> A) i v, upd f i v i = v.
Proof. intros. unfold upd. rewrite Z.eqb_refl. reflexivity. Qed.

Lemma upd_other : forall A (f : Z -> A) i j v, j <> i -> upd f i v j = f j.
Proof.
  intros. unfold upd. destruct (Z.eqb_spec j i); [contradiction | reflexivity].
Qed.

Lemma in_range_true : forall i n, 0 <= i < n -> in_range i n = true.
Proof. intros. unfold in_range. apply andb_true_intro. split; lia. Qed.

Lemma rd_stack_ok : forall i s,
  0 <= i < STACK_SIZE -> rd_stack i s = Ret (stack s i) s.
Proof. intros. unfold rd_stack. rewrite in_range_true by assumption. reflexivity. Qed.

Lemma wr_stack_ok : forall i e s,
  0 <= i < STACK_SIZE ->
  wr_stack i e s = Ret tt (set_stack (upd (stack s) i e) s).
Proof. intros. unfold wr_stack. rewrite in_range_true by assumption. reflexivity. Qed.

(** The scan of [LookUp] when no frame from [n] down to 1 takes [id]. *)
Lemma LookUp_loop_none : forall n id s,
  Z.of_nat n < STACK_SIZE ->
  (forall j, 1 <= j <= Z.of_nat n -> names (stack s j) id = false) ->
  LookUp_loop n id s = Ret None s.
Proof.
  induction n as [|n IH]; intros id s Hn Hno.
  - reflexivity.
  - cbn [LookUp_loop]. unfold bind.
    rewrite rd_stack_ok by lia.
    assert (H : names (stack s (Z.of_nat (S n))) id = false) by (apply Hno; lia).
    unfold names in H. rewrite H.
    apply IH; [lia|]. intros j Hj. apply Hno. lia.
Qed.

(** The scan of [LookUp] when frame [i] is the topmost that takes [id]. *)
Lemma LookUp_loop_found : forall n id s i,
  Z.of_nat n < STACK_SIZE ->
  1 <= i <= Z.of_nat n ->
  names (stack s i) id = true ->
  (forall j, i < j <= Z.of_nat n -> names (stack s j) id = false) ->
  LookUp_loop n id s =
  Ret (Some (st_ptr (stack s i)))
      (set_stack (upd (stack s) i (mark_used (stack s i))) s).
Proof.
  induction n as [|n IH]; intros id s i Hn Hi Hyes Hno.
  - lia.
  - cbn [LookUp_loop]. unfold bind.
    rewrite rd_stack_ok by lia.
    destruct (Z.eq_dec i (Z.of_nat (S n))) as [->|Hne].
    + unfold names in Hyes. rewrite Hyes.
      rewrite wr_stack_ok by lia. reflexivity.
    + assert (H : names (stack s (Z.of_nat (S n))) id = false) by (apply Hno; lia).
      unfold names in H. rewrite H.
      apply IH; [lia | lia | assumption |]. intros j Hj. apply Hno. lia.
Qed.

Lemma Push_room : forall mk nm ptr dm s,
  0 <= stack_top s + 1 < STACK_SIZE ->
  Push mk nm ptr dm s = Ret tt (pushed mk nm ptr dm s).
Proof.
  intros. unfold Push, bind, get, modify, ret.
  destruct (Z.geb_spec (stack_top s) (STACK_SIZE - 1)); [lia|].
  cbn [stack_top set_stack_top]. rewrite wr_stack_ok by assumption.
  reflexivity.
Qed.

Lemma Push_full : forall mk nm ptr dm s,
  stack_top s >= STACK_SIZE - 1 ->
  Push mk nm ptr dm s = Exit 0 (reported STACK_OVERFLOW 0 0 s).
Proof.
  intros. unfold Push, bind, get.
  destruct (Z.geb_spec (stack_top s) (STACK_SIZE - 1)); [|lia].
  rewrite error_msg_abort. reflexivity.
Qed.

(** C2, as the code has it.  [LookUp] scans from the top of the stack down
    to index 1 and takes the first frame that is not a marker and whose name
    is [id], whether or not it is a dummy: it sets that frame's [used] flag
    and returns its symbol (0 for a dummy frame), and prints nothing.  When
    no frame is taken it reports the undeclared name; then, if the stack has
    room, it pushes the dummy frame [(id, 0, dummy, not used)] and returns 0,
    and on a full stack [Push] reports the stack overflow and the process
    exits. *)
Theorem LookUp_takes_topmost_named_frame :
  forall id s,
    0 <= stack_top s < STACK_SIZE ->
    (forall i,
        1 <= i <= stack_top s ->
        names (stack s i) id = true ->
        (forall j, i < j <= stack_top s -> names (stack s j) id = false) ->
        LookUp id s =
        Ret (st_ptr (stack s i))
            (set_stack (upd (stack s) i (mark_used (stack s i))) s)) /\
    ((forall j, 1 <= j <= stack_top s -> names (stack s j) id = false) ->
     (stack_top s < STACK_SIZE - 1 ->
      LookUp id s =
      Ret 0 (pushed false id 0 true (reported UNDECLARATION id 0 s))) /\
     (stack_top s = STACK_SIZE - 1 ->
      LookUp id s =
      Exit 0 (reported STACK_OVERFLOW 0 0 (reported UNDECLARATION id 0 s)))).
Proof.
  intros id s Htop. split.
  - intros i Hi Hyes Hno. unfold LookUp, bind, get.
    rewrite (LookUp_loop_found _ id s i); try rewrite Z2Nat.id; try lia;
      try assumption.
    reflexivity.
  - intros Hno. unfold LookUp, bind, get.
    rewrite LookUp_loop_none by (rewrite Z2Nat.id by lia; (lia || assumption)).
    rewrite error_msg_continue. split; intros H.
    + rewrite Push_room by (unfold reported; cbn; unfold STACK_SIZE in *; lia).
      reflexivity.
    + rewrite Push_full by (unfold reported; cbn; unfold STACK_SIZE in *; lia).
      reflexivity.
Qed.

Lemma LookUp_takes_topmost_named_frame_witness :
  LookUp 5 st_decl5 =
    Ret (st_ptr (stack st_decl5 2))
        (set_stack (upd (stack st_decl5) 2 (mark_used (stack st_decl5 2)))
                   st_decl5) /\
  LookUp 7 st_block =
    Ret 0 (pushed false 7 0 true (reported UNDECLARATION 7 0 st_block)).
Proof.
  split.
  - apply (LookUp_takes_topmost_named_frame 5 st_decl5).
    + change (stack_top st_decl5) with 2. unfold STACK_SIZE. lia.
    + change (stack_top st_decl5) with 2. lia.
    + reflexivity.
    + change (stack_top st_decl5) with 2. intros j Hj. lia.
  - apply (LookUp_takes_topmost_named_frame 7 st_block).
    + change (stack_top st_block) with 1. unfold STACK_SIZE. lia.
    + change (stack_top st_block) with 1. intros j Hj.
      assert (j = 1) as -> by lia. reflexivity.
    + change (stack_top st_block) with 1. unfold STACK_SIZE. lia.
Defined.

(** C2 as stated fails.  In [st_dummy7] no frame that is neither a marker
    nor a dummy is named 7; the claim has [LookUp 7] report the undeclared
    name and push a dummy frame.  The code takes the dummy frame left by the
    first lookup: it returns 0, prints nothing and pushes nothing. *)
Lemma LookUp_takes_a_dummy_frame :
  (forall j, 1 <= j <= stack_top st_dummy7 ->
             negb (marker (stack st_dummy7 j))
             && negb (dummy (stack st_dummy7 j))
             && (name (stack st_dummy7 j) =? 7) = false) /\
  LookUp 7 st_dummy7 <>
    Ret 0 (pushed false 7 0 true (reported UNDECLARATION 7 0 st_dummy7)) /\
  exists s', LookUp 7 st_dummy7 = Ret 0 s' /\
             out s' = out st_dummy7 /\
             stack_top s' = stack_top st_dummy7 /\
             used (stack s' 2) = true.
Proof.
  split; [|split].
  - change (stack_top st_dummy7) with 2. intros j Hj.
    assert (j = 1 \/ j = 2) as [-> | ->] by lia; reflexivity.
  - intros H.
    assert (E : stack_top (final (LookUp 7 st_dummy7)) = 3)
      by (rewrite H; reflexivity).
    vm_compute in E. discriminate.
  - eexists. split; [vm_compute; reflexivity|].
    repeat split.
Qed.

(** * Properties of the attribute store *)

Lemma rd_attr_ok : forall i s,
  0 <= i < ATTR_SIZE -> rd_attr i s = Ret (attrarray s i) s.
Proof. intros. unfold rd_attr. rewrite in_range_true by assumption. reflexivity. Qed.

Lemma wr_attr_ok : forall i c s,
  0 <= i < ATTR_SIZE ->
  wr_attr i c s = Ret tt (set_attrarray (upd (attrarray s) i c) s).
Proof. intros. unfold wr_attr. rewrite in_range_true by assumption. reflexivity. Qed.

Lemma rd_st_ok : forall i s,
  0 <= i < ST_SIZE -> rd_st i s = Ret (st s i) s.
Proof. intros. unfold rd_st. rewrite in_range_true by assumption. reflexivity. Qed.

Lemma wr_st_ok : forall i v s,
  0 <= i < ST_SIZE -> wr_st i v s = Ret tt (set_st (upd (st s) i v) s).
Proof. intros. unfold wr_st. rewrite in_range_true by assumption. reflexivity. Qed.

Lemma seg_in_range : forall s i l j c,
  seg s i l j -> In c l -> 1 <= c <= attr_top s.
Proof.
  induction 1 as [|i l j Hi Hseg IH]; intros Hin.
  - destruct Hin.
  - destruct Hin as [<- | Hin]; [assumption | auto].
Qed.

Lemma seg_app : forall s i l1 j l2 k,
  seg s i l1 j -> seg s j l2 k -> seg s i (l1 ++ l2) k.
Proof.
  induction 1 as [|i l j Hi Hseg IH]; intros H2; cbn.
  - assumption.
  - constructor; auto.
Qed.

Lemma seg_split : forall s l1 l2 i k,
  seg s i (l1 ++ l2) k -> exists j, seg s i l1 j /\ seg s j l2 k.
Proof.
  induction l1 as [|c l1 IH]; intros l2 i k H; cbn in H.
  - exists i. split; [constructor | assumption].
  - inversion H; subst.
    destruct (IH _ _ _ H5) as (j & H1 & H2).
    exists j. split; [constructor; assumption | assumption].
Qed.

(** A chain only depends on the cells it runs over. *)
Lemma seg_frame : forall s s' i l j,
  seg s i l j ->
  attr_top s <= attr_top s' ->
  (forall c, In c l -> next_attr (attrarray s' c) = next_attr (attrarray s c)) ->
  seg s' i l j.
Proof.
  induction 1 as [|i l j Hi Hseg IH]; intros Htop Hsame.
  - constructor.
  - constructor; [lia|].
    rewrite Hsame by (left; reflexivity).
    apply IH; [assumption|]. intros c Hc. apply Hsame. right. assumption.
Qed.

Lemma kinds_frame : forall s s' l,
  (forall c, In c l -> attr_num (attrarray s' c) = attr_num (attrarray s c)) ->
  kinds s' l = kinds s l.
Proof.
  intros. unfold kinds. apply map_ext_in. intros c Hc. unfold kind_of. auto.
Qed.

Lemma ascending_length : forall l lo,
  lo <= 128 ->
  ascending l -> Forall (fun k => lo <= k <= 127) l ->
  Z.of_nat (List.length l) <= 128 - lo.
Proof.
  induction l as [|k l IH]; intros lo Hlo Hasc Hr; cbn [List.length].
  - change (Z.of_nat 0) with 0. lia.
  - inversion Hasc as [|k0 l0 Hall Hasc']; subst.
    inversion Hr as [|k1 l1 Hk Hr']; subst.
    assert (H : Z.of_nat (List.length l) <= 128 - (k + 1)).
    { apply IH; [lia | assumption|].
      rewrite Forall_forall in *. intros x Hx.
      specialize (Hall x Hx). specialize (Hr' x Hx). lia. }
    lia.
Qed.

Lemma attrs_ok_length : forall s l,
  attrs_ok s l -> (List.length l <= 256)%nat.
Proof.
  intros s l [Hasc Hch].
  assert (H : Z.of_nat (List.length (kinds s l)) <= 128 - (-128)).
  { apply ascending_length; [lia | assumption|].
    rewrite Forall_forall in *. intros x Hx. specialize (Hch x Hx).
    unfold is_char in Hch. lia. }
  unfold kinds in H. rewrite List.length_map in H. lia.
Qed.

Lemma attr_budget_enough : forall s l,
  attrs_ok s l -> (List.length l < attr_budget)%nat.
Proof.
  intros s l H. apply attrs_ok_length in H. unfold attr_budget, ATTR_SIZE. lia.
Qed.

(** The walk of [IsAttr] over a chain stops where [find_cell] says. *)
Lemma IsAttr_loop_chain : forall l fuel s i k,
  chain s i l ->
  attr_top s < ATTR_SIZE ->
  (List.length l < fuel)%nat ->
  IsAttr_loop fuel i k s = Ret (find_cell s k l) s.
Proof.
  induction l as [|c l IH]; intros fuel s i k Hch Htop Hfuel;
    (destruct fuel as [|fuel]; [cbn in Hfuel; lia|]);
    inversion Hch; subst; cbn [IsAttr_loop find_cell].
  - reflexivity.
  - destruct (Z.eqb_spec c 0); [lia|].
    unfold bind. rewrite rd_attr_ok by lia. unfold kind_of.
    destruct (attr_num (attrarray s c) =? k); [reflexivity|].
    destruct (attr_num (attrarray s c) >? k); [reflexivity|].
    apply IH; [assumption | assumption | cbn in Hfuel; lia].
Qed.

Lemma to_char_id : forall k, is_char k -> to_char k = k.
Proof.
  intros k Hk. unfold is_char in Hk. unfold to_char.
  rewrite Z.mod_small by lia. lia.
Qed.

Lemma last_link_snoc : forall p l c, last_link p (l ++ [c]) = LNext c.
Proof. intros. unfold last_link. rewrite rev_app_distr. reflexivity. Qed.

Lemma last_link_cons : forall p c l,
  last_link (LNext c) l = last_link p (c :: l).
Proof.
  intros. unfold last_link. cbn [rev].
  destruct (rev l); reflexivity.
Qed.

(** The walk of [SetAttr] passes the cells whose kind is below [k] and
    stops in front of cell [j]. *)
Lemma SetAttr_loop_seg : forall l1 fuel s p i j k,
  seg s i l1 j ->
  Forall (fun c => kind_of s c < k) l1 ->
  (j = 0 \/ (1 <= j <= attr_top s /\ k <= kind_of s j)) ->
  attr_top s < ATTR_SIZE ->
  (List.length l1 < fuel)%nat ->
  SetAttr_loop fuel p i k s = Ret (last_link p l1, j) s.
Proof.
  induction l1 as [|c l1 IH]; intros fuel s p i j k Hseg Hlt Hj Htop Hfuel;
    (destruct fuel as [|fuel]; [cbn in Hfuel; lia|]);
    inversion Hseg; subst; cbn [SetAttr_loop].
  - destruct Hj as [-> | [Hr Hk]].
    + reflexivity.
    + destruct (Z.eqb_spec j 0); [lia|].
      unfold bind. rewrite rd_attr_ok by lia.
      unfold kind_of in Hk.
      destruct (Z.ltb_spec (attr_num (attrarray s j)) k); [lia|]. reflexivity.
  - destruct (Z.eqb_spec c 0); [lia|].
    unfold bind. rewrite rd_attr_ok by lia.
    inversion Hlt as [|c0 l0 Hc Hlt']; subst. unfold kind_of in Hc.
    destruct (Z.ltb_spec (attr_num (attrarray s c)) k); [|lia].
    rewrite (IH fuel s (LNext c) _ j k); try assumption; [|cbn in Hfuel; lia].
    rewrite (last_link_cons p). reflexivity.
Qed.

Lemma ascending_split : forall s k l,
  ascending (kinds s l) ->
  ~ In k (kinds s l) ->
  exists l1 l2,
    l = l1 ++ l2 /\
    Forall (fun c => kind_of s c < k) l1 /\
    Forall (fun c => k < kind_of s c) l2.
Proof.
  induction l as [|c l IH]; intros Hasc Hnot.
  - exists [], []. repeat split; constructor.
  - cbn in Hasc, Hnot. inversion Hasc as [|k0 l0 Hall Hasc']; subst.
    destruct (Z_lt_ge_dec (kind_of s c) k) as [Hlt | Hge].
    + destruct (IH Hasc') as (l1 & l2 & -> & H1 & H2).
      { intros Hin. apply Hnot. right. assumption. }
      exists (c :: l1), l2. repeat split; [constructor; assumption | assumption].
    + exists [], (c :: l). repeat split; [constructor|].
      assert (Hck : k < kind_of s c).
      { destruct (Z.eq_dec (kind_of s c) k) as [E|E]; [|lia].
        exfalso. apply Hnot. left. assumption. }
      constructor; [assumption|].
      rewrite Forall_forall in *. intros x Hx.
      assert (Hi : In (kind_of s x) (kinds s l)) by (apply in_map; assumption).
      specialize (Hall _ Hi). lia.
Qed.

Lemma ascending_NoDup : forall s l, ascending (kinds s l) -> NoDup l.
Proof.
  induction l as [|c l IH]; intros Hasc.
  - constructor.
  - cbn in Hasc. inversion Hasc as [|k0 l0 Hall Hasc']; subst.
    constructor; [|auto].
    intros Hin. rewrite Forall_forall in Hall.
    assert (Hi : In (kind_of s c) (kinds s l)) by (apply in_map; assumption).
    specialize (Hall _ Hi). lia.
Qed.

(** On an ascending chain [find_cell] finds the kind exactly when the
    chain holds it. *)
Lemma find_cell_absent : forall s k l,
  ~ In k (kinds s l) -> find_cell s k l = 0.
Proof.
  induction l as [|c l IH]; intros Hnot; cbn [find_cell].
  - reflexivity.
  - cbn in Hnot.
    destruct (Z.eqb_spec (kind_of s c) k) as [E|E].
    + exfalso. apply Hnot. left. assumption.
    + destruct (kind_of s c >? k); [reflexivity|].
      apply IH. intros Hin. apply Hnot. right. assumption.
Qed.

Lemma find_cell_present : forall s k l,
  ascending (kinds s l) ->
  In k (kinds s l) ->
  In (find_cell s k l) l /\ kind_of s (find_cell s k l) = k.
Proof.
  induction l as [|c l IH]; intros Hasc Hin; cbn [find_cell].
  - destruct Hin.
  - cbn in Hasc, Hin. inversion Hasc as [|k0 l0 Hall Hasc']; subst.
    destruct (Z.eqb_spec (kind_of s c) k) as [E|E].
    + split; [left; reflexivity | assumption].
    + destruct Hin as [Hin | Hin]; [contradiction|].
      rewrite Forall_forall in Hall. specialize (Hall _ Hin).
      destruct (Z.gtb_spec (kind_of s c) k); [lia|].
      destruct (IH Hasc' Hin) as [H1 H2].
      split; [right; assumption | assumption].
Qed.

Lemma ascending_kind_inj : forall s l x y,
  ascending (kinds s l) -> In x l -> In y l ->
  kind_of s x = kind_of s y -> x = y.
Proof.
  induction l as [|c l IH]; intros x y Hasc Hx Hy E.
  - destruct Hx.
  - cbn in Hasc. inversion Hasc as [|k0 l0 Hall Hasc']; subst.
    rewrite Forall_forall in Hall.
    destruct Hx as [<- | Hx], Hy as [<- | Hy].
    + reflexivity.
    + assert (Hi : In (kind_of s y) (kinds s l)) by (apply in_map; assumption).
      specialize (Hall _ Hi). lia.
    + assert (Hi : In (kind_of s x) (kinds s l)) by (apply in_map; assumption).
      specialize (Hall _ Hi). lia.
    + auto.
Qed.

Lemma SetAttr_overwrite : forall s ptr k v l,
  0 <= ptr < ST_SIZE ->
  attr_top s < ATTR_SIZE ->
  chain s (st s ptr) l ->
  attrs_ok s l ->
  In k (kinds s l) ->
  SetAttr ptr k v s = Ret tt (overwritten (find_cell s k l) v s).
Proof.
  intros s ptr k v l Hptr Htop Hch Hok Hin.
  destruct (find_cell_present s k l (proj1 Hok) Hin) as [Hc Hk].
  pose proof (seg_in_range _ _ _ _ _ Hch Hc) as Hr.
  unfold SetAttr, IsAttr, bind. rewrite rd_st_ok by assumption.
  rewrite (IsAttr_loop_chain l) by
    (assumption || (eapply attr_budget_enough; eassumption)).
  destruct (Z.eqb_spec (find_cell s k l) 0); [lia|]. cbn [negb].
  rewrite rd_attr_ok by lia. rewrite wr_attr_ok by lia. reflexivity.
Qed.

Lemma seg_head : forall s j l, seg s j l 0 ->
  j = head_or_0 l /\ (j = 0 \/ 1 <= j <= attr_top s).
Proof.
  intros s j l H. inversion H; subst; cbn; split; auto.
Qed.

Lemma SetAttr_insert : forall s ptr k v l1 l2,
  0 <= ptr < ST_SIZE ->
  0 <= attr_top s < ATTR_SIZE - 1 ->
  chain s (st s ptr) (l1 ++ l2) ->
  attrs_ok s (l1 ++ l2) ->
  Forall (fun c => kind_of s c < k) l1 ->
  Forall (fun c => k < kind_of s c) l2 ->
  SetAttr ptr k v s =
  Ret tt (inserted (last_link (LSt ptr) l1) k v (head_or_0 l2) s).
Proof.
  intros s ptr k v l1 l2 Hptr Htop Hch Hok H1 H2.
  assert (Hbud : (List.length (l1 ++ l2) < attr_budget)%nat)
    by (eapply attr_budget_enough; eassumption).
  assert (Hnot : ~ In k (kinds s (l1 ++ l2))).
  { unfold kinds. rewrite map_app, in_app_iff, !in_map_iff.
    rewrite Forall_forall in H1, H2.
    intros [(x & E & Hx) | (x & E & Hx)];
      [specialize (H1 _ Hx) | specialize (H2 _ Hx)]; lia. }
  destruct (seg_split _ _ _ _ _ Hch) as (j & Hs1 & Hs2).
  destruct (seg_head _ _ _ Hs2) as [Ej Hj].
  assert (Hj' : j = 0 \/ 1 <= j <= attr_top s /\ k <= kind_of s j).
  { destruct Hj as [Hj | Hj]; [left; assumption | right; split; [assumption|]].
    destruct l2 as [|c l2]; cbn in Ej; [lia|]. subst j.
    inversion H2; subst. lia. }
  unfold SetAttr, IsAttr, bind. rewrite rd_st_ok by assumption.
  rewrite (IsAttr_loop_chain (l1 ++ l2)) by (assumption || lia).
  rewrite find_cell_absent by assumption. cbn [Z.eqb negb].
  rewrite rd_st_ok by assumption.
  rewrite (SetAttr_loop_seg l1 _ s (LSt ptr) _ j k); try assumption;
    [| lia | rewrite length_app in Hbud; lia].
  unfold get. cbn [fst snd].
  destruct (Z.geb_spec (attr_top s) (ATTR_SIZE - 1)); [lia|].
  unfold ret, modify. cbn [attr_top set_attr_top].
  rewrite wr_attr_ok by lia.
  unfold inserted, new_cell. rewrite <- Ej.
  destruct (rev l1) as [|c r] eqn:Er; unfold last_link; rewrite Er;
    cbn [wr_link relinked].
  - rewrite wr_st_ok by assumption. reflexivity.
  - assert (Hc : In c l1) by (apply in_rev; rewrite Er; left; reflexivity).
    assert (Hr : 1 <= c <= attr_top s)
      by (eapply seg_in_range; [exact Hs1 | exact Hc]).
    unfold bind. rewrite rd_attr_ok by caplia.
    rewrite wr_attr_ok by caplia. reflexivity.
Qed.

(** Case analysis on every integer equality test of the goal. *)
Ltac eqb_cases :=
  repeat match goal with
         | |- context [?a =? ?b] => destruct (Z.eqb_spec a b); subst; cbn
         end;
  try reflexivity; try contradiction; try congruence; try lia.

(** ** The state after an overwrite *)

Lemma overwritten_num : forall c v s x,
  attr_num (attrarray (overwritten c v s) x) = attr_num (attrarray s x).
Proof.
  intros. unfold overwritten. cbn. unfold upd.
  destruct (Z.eqb_spec x c); [subst|]; reflexivity.
Qed.

Lemma overwritten_next : forall c v s x,
  next_attr (attrarray (overwritten c v s) x) = next_attr (attrarray s x).
Proof.
  intros. unfold overwritten. cbn. unfold upd.
  destruct (Z.eqb_spec x c); [subst|]; reflexivity.
Qed.

Lemma overwritten_val : forall c v s x,
  attr_val (attrarray (overwritten c v s) x) =
  if x =? c then v else attr_val (attrarray s x).
Proof.
  intros. unfold overwritten. cbn. unfold upd.
  destruct (x =? c); reflexivity.
Qed.

Lemma overwritten_seg : forall c v s i l j,
  seg s i l j -> seg (overwritten c v s) i l j.
Proof.
  intros. eapply seg_frame; [eassumption | cbn; lia |].
  intros. apply overwritten_next.
Qed.

Lemma overwritten_kinds : forall c v s l,
  kinds (overwritten c v s) l = kinds s l.
Proof. intros. apply kinds_frame. intros. apply overwritten_num. Qed.

Lemma overwritten_alist : forall s l c k v,
  ascending (kinds s l) -> In c l -> kind_of s c = k ->
  alist (overwritten c v s) l = overwrite k v (alist s l).
Proof.
  intros s l c k v Hasc Hc Hk. unfold alist, overwrite. rewrite map_map.
  apply map_ext_in. intros x Hx. cbn [fst].
  rewrite overwritten_num, overwritten_val.
  destruct (Z.eqb_spec x c) as [->|Hne].
  - fold (kind_of s c). rewrite Hk, Z.eqb_refl. reflexivity.
  - destruct (Z.eqb_spec (attr_num (attrarray s x)) k) as [E|E]; [|reflexivity].
    exfalso. apply Hne. apply (ascending_kind_inj s l); try assumption.
    unfold kind_of. rewrite E. symmetry. assumption.
Qed.

Lemma has_kind_iff : forall s k l,
  has_kind k (alist s l) = true <-> In k (kinds s l).
Proof.
  intros. unfold has_kind, alist, kinds. rewrite existsb_exists. split.
  - intros ((k', v') & Hin & E). cbn in E. apply Z.eqb_eq in E. subst.
    apply in_map_iff in Hin. destruct Hin as (c & Ec & Hc).
    inversion Ec; subst. apply in_map_iff. exists c. split; [reflexivity|assumption].
  - intros Hin. apply in_map_iff in Hin. destruct Hin as (c & Ec & Hc).
    exists (attr_num (attrarray s c), attr_val (attrarray s c)).
    split; [apply in_map_iff; exists c; split; [reflexivity|assumption]|].
    cbn. apply Z.eqb_eq. assumption.
Qed.

(** ** The state after an insertion *)

Lemma inserted_top : forall p k v nx s,
  attr_top (inserted p k v nx s) = attr_top s + 1.
Proof. intros. unfold inserted, relinked, new_cell. destruct p; reflexivity. Qed.

Lemma inserted_num : forall p k v nx s x,
  x <> attr_top s + 1 ->
  attr_num (attrarray (inserted p k v nx s) x) = attr_num (attrarray s x).
Proof.
  intros p k v nx s x Hx. unfold inserted, relinked, new_cell.
  destruct p as [ptr|c]; cbn; unfold upd; eqb_cases.
Qed.

Lemma inserted_val : forall p k v nx s x,
  x <> attr_top s + 1 ->
  attr_val (attrarray (inserted p k v nx s) x) = attr_val (attrarray s x).
Proof.
  intros p k v nx s x Hx. unfold inserted, relinked, new_cell.
  destruct p as [ptr|c]; cbn; unfold upd; eqb_cases.
Qed.

Lemma inserted_next_other : forall p k v nx s x,
  x <> attr_top s + 1 -> p <> LNext x ->
  next_attr (attrarray (inserted p k v nx s) x) = next_attr (attrarray s x).
Proof.
  intros p k v nx s x Hx Hp. unfold inserted, relinked, new_cell.
  destruct p as [ptr|c]; cbn; unfold upd; eqb_cases.
Qed.

Lemma inserted_new : forall p k v nx s,
  p <> LNext (attr_top s + 1) ->
  attrarray (inserted p k v nx s) (attr_top s + 1) = mkAttr (to_char k) v nx.
Proof.
  intros p k v nx s Hp. unfold inserted, relinked, new_cell.
  destruct p as [ptr|c]; cbn; unfold upd; eqb_cases.
Qed.

Lemma inserted_next_link : forall c k v nx s,
  next_attr (attrarray (inserted (LNext c) k v nx s) c) = attr_top s + 1.
Proof.
  intros. unfold inserted, relinked, new_cell. cbn. unfold upd. eqb_cases.
Qed.

Lemma inserted_st : forall p k v nx s q,
  st (inserted p k v nx s) q =
  match p with
  | LSt ptr => if q =? ptr then attr_top s + 1 else st s q
  | LNext _ => st s q
  end.
Proof. intros. unfold inserted, relinked, new_cell. destruct p; reflexivity. Qed.

Lemma last_link_cases : forall p l,
  (l = [] /\ last_link p l = p) \/
  (exists l' c, l = l' ++ [c] /\ last_link p l = LNext c).
Proof.
  intros p l. destruct l as [|a l] using rev_ind.
  - left. split; reflexivity.
  - right. exists l, a. split; [reflexivity | apply last_link_snoc].
Qed.

Lemma inserted_chain : forall s ptr k v l1 l2,
  0 <= attr_top s ->
  chain s (st s ptr) (l1 ++ l2) ->
  ascending (kinds s (l1 ++ l2)) ->
  chain (inserted (last_link (LSt ptr) l1) k v (head_or_0 l2) s)
        (st (inserted (last_link (LSt ptr) l1) k v (head_or_0 l2) s) ptr)
        (l1 ++ (attr_top s + 1) :: l2).
Proof.
  intros s ptr k v l1 l2 Htop Hch Hasc.
  pose proof (ascending_NoDup _ _ Hasc) as Hnd.
  destruct (seg_split _ _ _ _ _ Hch) as (j & Hs1 & Hs2).
  destruct (seg_head _ _ _ Hs2) as [Ej _].
  set (n := attr_top s + 1).
  assert (Hrange : forall x, In x (l1 ++ l2) -> x <> n).
  { intros x Hx. pose proof (seg_in_range _ _ _ _ _ Hch Hx). unfold n. lia. }
  destruct (last_link_cases (LSt ptr) l1) as [[-> E] | (l1' & c & -> & E)];
    rewrite E; set (s' := inserted _ k v (head_or_0 l2) s).
  - (* the new cell becomes the head *)
    inversion Hs1; subst. cbn [app].
    unfold chain, s'. rewrite inserted_st, Z.eqb_refl. fold n. fold s'.
    constructor.
    + unfold s'. rewrite inserted_top. fold n. lia.
    + unfold s', n. rewrite inserted_new by discriminate. cbn [next_attr].
      eapply seg_frame; [exact Hs2 | rewrite inserted_top; lia |].
      intros x Hx. apply inserted_next_other; [|discriminate].
      apply Hrange. assumption.
  - (* the new cell follows cell c *)
    destruct (seg_split _ _ _ _ _ Hs1) as (c0 & Ha & Hb).
    inversion Hb as [|? ? ? Hcr Hnil]; subst. inversion Hnil; subst.
    assert (Hcn : c <> n) by (apply Hrange; rewrite !in_app_iff; cbn; auto).
    rewrite <- app_assoc in Hnd. cbn in Hnd.
    apply NoDup_remove_2 in Hnd.
    unfold chain, s'. rewrite inserted_st. fold s'.
    rewrite <- app_assoc. cbn [app].
    eapply seg_app.
    + eapply seg_frame; [exact Ha | unfold s'; rewrite inserted_top; lia |].
      intros x Hx. apply inserted_next_other.
      * apply Hrange. rewrite !in_app_iff. auto.
      * intros Heq. inversion Heq; subst. apply Hnd.
        rewrite in_app_iff. auto.
    + constructor; [unfold s'; rewrite inserted_top; lia|].
      unfold s'. rewrite inserted_next_link. fold n. fold s'.
      constructor; [unfold s'; rewrite inserted_top; fold n; lia|].
      unfold s', n. rewrite inserted_new by (intros Heq; inversion Heq; lia).
      cbn [next_attr].
      eapply seg_frame; [exact Hs2 | rewrite inserted_top; lia |].
      intros x Hx. apply inserted_next_other.
      * apply Hrange. rewrite !in_app_iff. auto.
      * intros Heq. inversion Heq; subst. apply Hnd.
        rewrite in_app_iff. auto.
Qed.

Lemma inserted_alist : forall s p k v nx l1 l2,
  (forall x, In x (l1 ++ l2) -> 1 <= x <= attr_top s) ->
  p <> LNext (attr_top s + 1) ->
  alist (inserted p k v nx s) (l1 ++ (attr_top s + 1) :: l2) =
  alist s l1 ++ (to_char k, v) :: alist s l2.
Proof.
  intros s p k v nx l1 l2 Hr Hp. unfold alist.
  rewrite map_app. cbn [map]. rewrite inserted_new by assumption. cbn.
  f_equal; [|f_equal]; apply map_ext_in; intros x Hx;
    (assert (Hne : x <> attr_top s + 1)
       by (assert (H : 1 <= x <= attr_top s)
             by (apply Hr; rewrite in_app_iff; auto); lia));
    rewrite inserted_num, inserted_val by assumption; reflexivity.
Qed.

Lemma alist_kinds : forall s l, map fst (alist s l) = kinds s l.
Proof. intros. unfold alist, kinds. rewrite map_map. reflexivity. Qed.

Lemma insert_sorted_app : forall k v a b,
  Forall (fun kv => fst kv < k) a ->
  Forall (fun kv => k < fst kv) b ->
  insert_sorted k v (a ++ b) = a ++ (k, v) :: b.
Proof.
  induction a as [|[k' v'] a IH]; intros b Ha Hb; cbn.
  - destruct b as [|[k' v'] b]; [reflexivity|]. cbn.
    inversion Hb; subst. cbn in *.
    destruct (Z.ltb_spec k' k); [lia | reflexivity].
  - inversion Ha; subst. cbn in *.
    destruct (Z.ltb_spec k' k); [|lia]. rewrite IH by assumption. reflexivity.
Qed.

Lemma ascending_app_inv : forall a b,
  ascending (a ++ b) -> ascending a /\ ascending b /\
  (forall x y, In x a -> In y b -> x < y).
Proof.
  induction a as [|k a IH]; intros b H; cbn in H.
  - repeat split; [constructor | assumption | intros x y []].
  - inversion H as [|k0 l0 Hall Hasc]; subst.
    destruct (IH _ Hasc) as (Ha & Hb & Hab).
    rewrite Forall_forall in Hall.
    repeat split.
    + constructor; [|assumption]. rewrite Forall_forall. intros x Hx.
      apply Hall. rewrite in_app_iff. auto.
    + assumption.
    + intros x y [<- | Hx] Hy; [apply Hall; rewrite in_app_iff; auto | auto].
Qed.

Lemma ascending_insert : forall k a b,
  ascending (a ++ b) ->
  Forall (fun x => x < k) a -> Forall (fun x => k < x) b ->
  ascending (a ++ k :: b).
Proof.
  induction a as [|x a IH]; intros b H Ha Hb; cbn in *.
  - constructor; assumption.
  - inversion H as [|k0 l0 Hall Hasc]; subst. inversion Ha; subst.
    constructor; [|apply IH; assumption].
    rewrite Forall_forall in *. intros y Hy.
    rewrite in_app_iff in Hy. cbn in Hy.
    destruct Hy as [Hy | [<- | Hy]];
      [apply Hall; rewrite in_app_iff; auto | lia
      | apply Hall; rewrite in_app_iff; auto].
Qed.

Lemma inserted_kinds : forall s p k v nx l1 l2,
  (forall x, In x (l1 ++ l2) -> 1 <= x <= attr_top s) ->
  p <> LNext (attr_top s + 1) ->
  kinds (inserted p k v nx s) (l1 ++ (attr_top s + 1) :: l2) =
  kinds s l1 ++ to_char k :: kinds s l2.
Proof.
  intros. rewrite <- !alist_kinds, inserted_alist by assumption.
  rewrite map_app. reflexivity.
Qed.

(** [GetAttr] on a well-formed chain: the value of the cell [find_cell]
    stops at, and nothing printed; 0 and the debug line when the kind is
    absent. *)
Lemma GetAttr_chain : forall s ptr k l,
  0 <= ptr < ST_SIZE ->
  attr_top s < ATTR_SIZE ->
  chain s (st s ptr) l ->
  attrs_ok s l ->
  GetAttr ptr k s =
  if find_cell s k l =? 0 then
    Ret 0 (set_out (out s ++ [OStr "DEBUG--The wanted attribute number ";
                              OInt k; OStr " does not exist\n"]) s)
  else Ret (attr_val (attrarray s (find_cell s k l))) s.
Proof.
  intros s ptr k l Hptr Htop Hch Hok.
  unfold GetAttr, IsAttr, bind. rewrite rd_st_ok by assumption.
  rewrite (IsAttr_loop_chain l) by
    (assumption || (eapply attr_budget_enough; eassumption)).
  destruct (Z.eqb_spec (find_cell s k l) 0) as [E|E]; [reflexivity|].
  assert (Hin : In k (kinds s l)).
  { destruct (in_dec Z.eq_dec k (kinds s l)) as [H|H]; [assumption|].
    exfalso. apply E. apply find_cell_absent. assumption. }
  destruct (find_cell_present s k l (proj1 Hok) Hin) as [Hc _].
  pose proof (seg_in_range _ _ _ _ _ Hch Hc).
  rewrite rd_attr_ok by lia. reflexivity.
Qed.

Lemma find_cell_val : forall s k l,
  ascending (kinds s l) -> In k (kinds s l) ->
  assoc k (alist s l) = Some (attr_val (attrarray s (find_cell s k l))).
Proof.
  induction l as [|c l IH]; intros Hasc Hin; cbn [find_cell alist map assoc].
  - destruct Hin.
  - cbn in Hasc, Hin. inversion Hasc as [|k0 l0 Hall Hasc']; subst.
    unfold kind_of in *.
    destruct (Z.eqb_spec (attr_num (attrarray s c)) k) as [E|E]; [reflexivity|].
    destruct Hin as [Hin|Hin]; [contradiction|].
    rewrite Forall_forall in Hall. specialize (Hall _ Hin).
    destruct (Z.gtb_spec (attr_num (attrarray s c)) k); [lia|].
    apply IH; assumption.
Qed.

Lemma assoc_set_assoc : forall k v l,
  assoc k (set_assoc k v l) = Some v.
Proof.
  intros k v l. unfold set_assoc. destruct (has_kind k l) eqn:E.
  - induction l as [|[k' v'] l IH]; [discriminate|].
    cbn in E |- *. destruct (Z.eqb_spec k' k) as [->|Hne].
    + cbn. rewrite Z.eqb_refl. reflexivity.
    + cbn. destruct (Z.eqb_spec k' k); [contradiction|]. apply IH. assumption.
  - clear E. induction l as [|[k' v'] l IH]; cbn.
    + rewrite Z.eqb_refl. reflexivity.
    + destruct (Z.ltb_spec k' k).
      * cbn. destruct (Z.eqb_spec k' k); [lia | assumption].
      * cbn. rewrite Z.eqb_refl. reflexivity.
Qed.

Lemma assoc_in : forall k v l, assoc k l = Some v -> In k (map fst l).
Proof.
  induction l as [|[k' v'] l IH]; cbn; intros H; [discriminate|].
  destruct (Z.eqb_spec k' k); [left; assumption | right; auto].
Qed.

Lemma last_link_not_new : forall s ptr l i j,
  seg s i l j -> last_link (LSt ptr) l <> LNext (attr_top s + 1).
Proof.
  intros s ptr l i j Hseg.
  destruct (last_link_cases (LSt ptr) l) as [[_ E] | (l' & c & -> & E)];
    rewrite E; [discriminate|].
  intros Heq. inversion Heq; subst.
  assert (H : 1 <= attr_top s + 1 <= attr_top s).
  { eapply seg_in_range; [exact Hseg|]. rewrite in_app_iff. cbn. auto. }
  lia.
Qed.

(** After [SetAttr], [GetAttr] returns the value that was set and prints
    nothing, on any chain that holds what the specification says. *)
Lemma GetAttr_after_set : forall s' ptr k v l' old,
  0 <= ptr < ST_SIZE ->
  attr_top s' < ATTR_SIZE ->
  chain s' (st s' ptr) l' ->
  attrs_ok s' l' ->
  alist s' l' = set_assoc k v old ->
  GetAttr ptr k s' = Ret v s'.
Proof.
  intros s' ptr k v l' old Hptr Htop Hch Hok Hal.
  pose proof (assoc_set_assoc k v old) as Ha. rewrite <- Hal in Ha.
  assert (Hin : In k (kinds s' l'))
    by (rewrite <- alist_kinds; eapply assoc_in; eassumption).
  destruct (find_cell_present s' k l' (proj1 Hok) Hin) as [Hc _].
  pose proof (seg_in_range _ _ _ _ _ Hch Hc) as Hr.
  rewrite (GetAttr_chain s' ptr k l') by assumption.
  destruct (Z.eqb_spec (find_cell s' k l') 0); [lia|].
  rewrite (find_cell_val s' k l' (proj1 Hok) Hin) in Ha.
  inversion Ha. reflexivity.
Qed.

(** What [SetAttr] does on a well-formed chain, case by case. *)
Lemma SetAttr_chain : forall s ptr k v l,
  0 <= ptr < ST_SIZE ->
  0 <= attr_top s < ATTR_SIZE ->
  chain s (st s ptr) l ->
  attrs_ok s l ->
  is_char k ->
  (In k (kinds s l) \/ attr_top s < ATTR_SIZE - 1) ->
  exists s' l',
    SetAttr ptr k v s = Ret tt s' /\
    chain s' (st s' ptr) l' /\
    attrs_ok s' l' /\
    alist s' l' = set_assoc k v (alist s l) /\
    (In k (kinds s l) ->
     s' = overwritten (find_cell s k l) v s /\ l' = l) /\
    (~ In k (kinds s l) ->
     exists l1 l2,
       l = l1 ++ l2 /\ l' = l1 ++ (attr_top s + 1) :: l2 /\
       s' = inserted (last_link (LSt ptr) l1) k v (head_or_0 l2) s).
Proof.
  intros s ptr k v l Hptr Htop Hch Hok Hk Hroom.
  destruct (in_dec Z.eq_dec k (kinds s l)) as [Hin | Hnot].
  - destruct (find_cell_present s k l (proj1 Hok) Hin) as [Hc Hkc].
    exists (overwritten (find_cell s k l) v s), l.
    split; [apply SetAttr_overwrite; assumption || lia|].
    split; [apply overwritten_seg; assumption|].
    split; [unfold attrs_ok; rewrite overwritten_kinds; assumption|].
    split.
    { unfold set_assoc.
      rewrite (proj2 (has_kind_iff s k l) Hin).
      apply overwritten_alist; [apply Hok | assumption | assumption]. }
    split; [auto | contradiction].
  - destruct Hroom as [Hin | Hroom]; [contradiction|].
    destruct (ascending_split s k l (proj1 Hok) Hnot)
      as (l1 & l2 & -> & H1 & H2).
    destruct (seg_split _ _ _ _ _ Hch) as (j & Hs1 & Hs2).
    assert (Hr : forall x, In x (l1 ++ l2) -> 1 <= x <= attr_top s)
      by (intros x Hx; apply (seg_in_range _ _ _ _ _ Hch Hx)).
    assert (Hp : last_link (LSt ptr) l1 <> LNext (attr_top s + 1))
      by (eapply last_link_not_new; eassumption).
    assert (Hks : kinds (inserted (last_link (LSt ptr) l1) k v (head_or_0 l2) s)
                        (l1 ++ (attr_top s + 1) :: l2) =
                  kinds s l1 ++ k :: kinds s l2).
    { rewrite inserted_kinds by assumption. rewrite to_char_id by assumption.
      reflexivity. }
    exists (inserted (last_link (LSt ptr) l1) k v (head_or_0 l2) s),
           (l1 ++ (attr_top s + 1) :: l2).
    split; [apply SetAttr_insert; assumption || lia|].
    split; [apply inserted_chain; [lia | assumption | apply Hok]|].
    split.
    { destruct Hok as [Hasc Hch']. unfold kinds in Hasc, Hch'.
      rewrite map_app in Hasc, Hch'. apply Forall_app in Hch'.
      split; rewrite Hks.
      - apply ascending_insert; [exact Hasc | |];
          rewrite Forall_forall in *; intros x Hx;
          apply in_map_iff in Hx; destruct Hx as (c & <- & Hc); auto.
      - apply Forall_app. split; [apply Hch'|].
        constructor; [assumption | apply Hch']. }
    split.
    { rewrite inserted_alist by assumption. rewrite to_char_id by assumption.
      unfold set_assoc.
      destruct (has_kind k (alist s (l1 ++ l2))) eqn:E.
      - apply has_kind_iff in E. contradiction.
      - unfold alist at 3. rewrite map_app. fold (alist s l1) (alist s l2).
        symmetry. apply insert_sorted_app;
          rewrite Forall_forall in *; intros x Hx;
          apply in_map_iff in Hx; destruct Hx as (c & <- & Hc); cbn;
          [apply H1 | apply H2]; assumption. }
    split; [contradiction|].
    intros _. exists l1, l2. auto.
Qed.

(** C9.  On a symbol whose attribute chain is well formed, [SetAttr]
    overwrites the value in place when the symbol has the kind (no cell is
    taken, the chain is the same), and otherwise takes one new cell, when
    the pool has one, and links it in so that the chain holds exactly what
    the specification's sorted insertion gives; either way the chain stays
    in ascending order of kind with no kind twice, and [GetAttr] right
    after returns the value set and prints nothing. *)
Theorem SetAttr_keeps_chain_ascending_and_GetAttr_reads_back :
  forall s ptr k v l,
    0 <= ptr < ST_SIZE ->
    0 <= attr_top s < ATTR_SIZE ->
    chain s (st s ptr) l ->
    attrs_ok s l ->
    is_char k ->
    (In k (kinds s l) \/ attr_top s < ATTR_SIZE - 1) ->
    exists s' l',
      SetAttr ptr k v s = Ret tt s' /\
      chain s' (st s' ptr) l' /\
      ascending (kinds s' l') /\
      alist s' l' = set_assoc k v (alist s l) /\
      (In k (kinds s l) -> l' = l /\ attr_top s' = attr_top s) /\
      (~ In k (kinds s l) ->
       attr_top s' = attr_top s + 1 /\
       List.length l' = S (List.length l)) /\
      GetAttr ptr k s' = Ret v s' /\
      out s' = out s.
Proof.
  intros s ptr k v l Hptr Htop Hch Hok Hk Hroom.
  destruct (SetAttr_chain s ptr k v l Hptr Htop Hch Hok Hk Hroom)
    as (s' & l' & Hrun & Hch' & Hok' & Hal & Hover & Hins).
  assert (Htop' : attr_top s' < ATTR_SIZE /\ out s' = out s /\
                  (In k (kinds s l) -> attr_top s' = attr_top s) /\
                  (~ In k (kinds s l) ->
                   attr_top s' = attr_top s + 1 /\
                   List.length l' = S (List.length l))).
  { destruct (in_dec Z.eq_dec k (kinds s l)) as [Hin | Hnot].
    - destruct (Hover Hin) as [-> ->]. cbn.
      repeat split; try lia; contradiction.
    - destruct (Hins Hnot) as (l1 & l2 & -> & -> & ->).
      destruct Hroom as [Hin|Hroom]; [contradiction|].
      rewrite inserted_top.
      assert (Eo : forall p nx, out (inserted p k v nx s) = out s)
        by (intros p nx; destruct p; reflexivity).
      rewrite Eo. rewrite !length_app. cbn [List.length].
      repeat split; try lia; contradiction. }
  destruct Htop' as (Ht & Ho & Ht1 & Ht2).
  exists s', l'.
  split; [assumption|]. split; [assumption|]. split; [apply Hok'|].
  split; [assumption|].
  split; [intros Hin; split; [apply (Hover Hin) | auto]|].
  split; [assumption|].
  split; [eapply GetAttr_after_set; eassumption | assumption].
Qed.

(** Evaluation of a chain in a closed state. *)
Ltac chain_step :=
  match goal with
  | |- seg ?s ?i (_ :: _) _ =>
      let i' := eval vm_compute in i in
      change i with i';
      constructor;
      [ let t := eval vm_compute in (attr_top s) in
        change (attr_top s) with t; lia | ]
  | |- seg ?s ?i [] _ =>
      let i' := eval vm_compute in i in
      change i with i'; constructor
  end.

Lemma SetAttr_keeps_chain_ascending_and_GetAttr_reads_back_witness :
  exists s' l',
    SetAttr 1 KIND_ATTR CLASS st_decl5 = Ret tt s' /\
    chain s' (st s' 1) l' /\
    ascending (kinds s' l') /\
    alist s' l' = set_assoc KIND_ATTR CLASS (alist st_decl5 [1; 2]) /\
    (In KIND_ATTR (kinds st_decl5 [1; 2]) ->
     l' = [1; 2] /\ attr_top s' = attr_top st_decl5) /\
    (~ In KIND_ATTR (kinds st_decl5 [1; 2]) ->
     attr_top s' = attr_top st_decl5 + 1 /\
     List.length l' = S (List.length [1; 2])) /\
    GetAttr 1 KIND_ATTR s' = Ret CLASS s' /\
    out s' = out st_decl5.
Proof.
  apply (SetAttr_keeps_chain_ascending_and_GetAttr_reads_back
           st_decl5 1 KIND_ATTR CLASS [1; 2]).
  - unfold ST_SIZE. lia.
  - change (attr_top st_decl5) with 2. unfold ATTR_SIZE. lia.
  - unfold chain. repeat chain_step.
  - unfold attrs_ok. change (kinds st_decl5 [1; 2]) with [1; 2]. split.
    + repeat constructor.
    + repeat (constructor; [unfold is_char; lia|]). constructor.
  - unfold is_char, KIND_ATTR. lia.
  - right. change (attr_top st_decl5) with 2. unfold ATTR_SIZE. lia.
Defined.

(** * Properties of [InsertEntry] *)

(** The scan of [LookUpHere] passes the frames that are neither markers nor
    bindings of [id]. *)
Lemma LookUpHere_loop_skip : forall d n i id s,
  0 <= i - Z.of_nat d ->
  i < STACK_SIZE ->
  (forall j, i - Z.of_nat d < j <= i ->
             marker (stack s j) = false /\ binds (stack s j) id = false) ->
  LookUpHere_loop (n + d) i id s = LookUpHere_loop n (i - Z.of_nat d) id s.
Proof.
  induction d as [|d IH]; intros n i id s Hlo Hhi Hskip.
  - rewrite Nat.add_0_r. f_equal. cbn. lia.
  - rewrite Nat.add_succ_r. cbn [LookUpHere_loop]. unfold bind.
    rewrite rd_stack_ok by lia.
    destruct (Hskip i) as [Hm Hb]; [lia|].
    rewrite Hm. unfold binds in Hb. rewrite Hb.
    rewrite IH; [f_equal; lia | lia | lia |].
    intros j Hj. apply Hskip. lia.
Qed.

Lemma LookUpHere_unbound : forall s b id,
  scope_from s b ->
  stack_top s < STACK_SIZE ->
  unbound_here s b id ->
  LookUpHere id s = Ret 0 s.
Proof.
  intros s b id (Hb & Hm & Hnm) Htop Hun.
  unfold LookUpHere, bind, get.
  replace (Z.to_nat (stack_top s + 1))
    with (Z.to_nat (b + 1) + Z.to_nat (stack_top s - b))%nat by lia.
  rewrite LookUpHere_loop_skip; rewrite ?Z2Nat.id by lia; try lia.
  - replace (stack_top s - (stack_top s - b)) with b by lia.
    replace (Z.to_nat (b + 1)) with (S (Z.to_nat b)) by lia.
    cbn [LookUpHere_loop]. unfold bind. rewrite rd_stack_ok by lia.
    rewrite Hm. reflexivity.
  - intros j Hj. split; [apply Hnm | apply Hun]; lia.
Qed.

Lemma LookUpHere_bound : forall s i id,
  bound_here s i id ->
  stack_top s < STACK_SIZE ->
  LookUpHere id s = Ret (st_ptr (stack s i)) s.
Proof.
  intros s i id (Hi & Hnm & Hb & Hno & _) Htop.
  unfold LookUpHere, bind, get.
  replace (Z.to_nat (stack_top s + 1))
    with (Z.to_nat (i + 1) + Z.to_nat (stack_top s - i))%nat by lia.
  rewrite LookUpHere_loop_skip; rewrite ?Z2Nat.id by lia; try lia.
  - replace (stack_top s - (stack_top s - i)) with i by lia.
    replace (Z.to_nat (i + 1)) with (S (Z.to_nat i)) by lia.
    cbn [LookUpHere_loop]. unfold bind. rewrite rd_stack_ok by lia.
    rewrite Hnm by lia. unfold binds in Hb. rewrite Hb. reflexivity.
  - intros j Hj. split; [apply Hnm | apply Hno]; lia.
Qed.

Lemma InsertEntry_bound : forall s i id,
  bound_here s i id ->
  stack_top s < STACK_SIZE ->
  InsertEntry id s = Ret 0 (reported REDECLARATION id 0 s).
Proof.
  intros s i id Hb Htop. unfold InsertEntry, bind.
  rewrite (LookUpHere_bound s i id) by assumption.
  destruct Hb as (_ & _ & _ & _ & Hp).
  destruct (Z.eqb_spec (st_ptr (stack s i)) 0); [contradiction|]. cbn [negb].
  rewrite error_msg_continue. reflexivity.
Qed.

Lemma InsertEntry_found : forall s id r,
  LookUpHere id s = Ret r s -> r <> 0 ->
  InsertEntry id s = Ret 0 (reported REDECLARATION id 0 s).
Proof.
  intros s id r Hlook Hr. unfold InsertEntry, bind. rewrite Hlook.
  destruct (Z.eqb_spec r 0); [contradiction|]. cbn [negb].
  rewrite error_msg_continue. reflexivity.
Qed.

Lemma LookUpHere_ret_top : forall id s r s',
  LookUpHere id s = Ret r s' -> 0 <= stack_top s < STACK_SIZE.
Proof.
  intros id s r s' H. unfold LookUpHere, bind, get in H.
  destruct (Z.to_nat (stack_top s + 1)) as [|n] eqn:En;
    cbn [LookUpHere_loop] in H; [discriminate|].
  unfold bind, rd_stack in H.
  destruct (in_range (stack_top s) STACK_SIZE) eqn:Er; [|discriminate].
  unfold in_range in Er. apply andb_true_iff in Er. lia.
Qed.

Lemma InsertEntry_not_found_overflow : forall s id,
  LookUpHere id s = Ret 0 s ->
  st_top s >= ST_SIZE - 1 ->
  InsertEntry id s = Exit 0 (reported ST_OVERFLOW 0 0 s).
Proof.
  intros s id Hlook Hfull. unfold InsertEntry, bind.
  rewrite Hlook. cbn [Z.eqb negb].
  unfold get. destruct (Z.geb_spec (st_top s) (ST_SIZE - 1)); [|lia].
  rewrite error_msg_abort. reflexivity.
Qed.

Lemma InsertEntry_overflow : forall s b id,
  scope_from s b ->
  stack_top s < STACK_SIZE ->
  unbound_here s b id ->
  st_top s >= ST_SIZE - 1 ->
  InsertEntry id s = Exit 0 (reported ST_OVERFLOW 0 0 s).
Proof.
  intros s b id Hsc Htop Hun Hfull.
  apply InsertEntry_not_found_overflow; [|assumption].
  apply (LookUpHere_unbound s b id); assumption.
Qed.

Lemma entered_eq : forall id s,
  entered id s =
  pushed false id (st_top s + 1) false
    (inserted (LNext (attr_top s + 1)) NEST_ATTR (nesting s) 0
       (inserted (LSt (st_top s + 1)) NAME_ATTR id 0 (slot_taken s))).
Proof. reflexivity. Qed.

Lemma name_cell_chain : forall id s,
  0 <= attr_top s ->
  chain (inserted (LSt (st_top s + 1)) NAME_ATTR id 0 (slot_taken s))
        (st (inserted (LSt (st_top s + 1)) NAME_ATTR id 0 (slot_taken s))
            (st_top s + 1))
        [attr_top s + 1].
Proof.
  intros id s Htop.
  apply (inserted_chain (slot_taken s) (st_top s + 1) NAME_ATTR id [] []).
  - assumption.
  - unfold chain, slot_taken. cbn. rewrite upd_same. constructor.
  - constructor.
Qed.

Lemma name_cell_kind : forall id s,
  kind_of (inserted (LSt (st_top s + 1)) NAME_ATTR id 0 (slot_taken s))
          (attr_top s + 1) = NAME_ATTR.
Proof.
  intros. unfold kind_of.
  change (attr_top s) with (attr_top (slot_taken s)).
  rewrite inserted_new by discriminate. reflexivity.
Qed.

(** [InsertEntry] of a name that the current scope does not bind, with
    room in the table, the pool and the stack. *)
Lemma InsertEntry_not_found : forall s id,
  LookUpHere id s = Ret 0 s ->
  stack_top s < STACK_SIZE - 1 ->
  0 <= st_top s < ST_SIZE - 1 ->
  0 <= attr_top s < ATTR_SIZE - 2 ->
  InsertEntry id s = Ret (st_top s + 1) (entered id s).
Proof.
  intros s id Hlook Hstack Hst Hattr.
  pose proof (LookUpHere_ret_top _ _ _ _ Hlook) as Htop0.
  unfold InsertEntry, bind.
  rewrite Hlook.
  cbn [Z.eqb negb]. unfold get.
  destruct (Z.geb_spec (st_top s) (ST_SIZE - 1)); [lia|].
  unfold ret, modify. cbn [st_top set_st_top].
  rewrite wr_st_ok by lia.
  change (set_st (upd (st (set_st_top (st_top s + 1) s)) (st_top s + 1) 0)
                 (set_st_top (st_top s + 1) s)) with (slot_taken s).
  change (nesting (slot_taken s)) with (nesting s).
  (* the Name cell *)
  rewrite (SetAttr_insert (slot_taken s) (st_top s + 1) NAME_ATTR id [] []);
    [ | lia | caplia
      | unfold chain, slot_taken; cbn; rewrite upd_same; constructor
      | split; constructor | constructor | constructor ].
  change (last_link (LSt (st_top s + 1)) []) with (LSt (st_top s + 1)).
  change (head_or_0 []) with 0.
  set (s2 := inserted (LSt (st_top s + 1)) NAME_ATTR id 0 (slot_taken s)).
  (* the Nest cell *)
  assert (Hk : kind_of s2 (attr_top s + 1) = NAME_ATTR)
    by apply name_cell_kind.
  rewrite (SetAttr_insert s2 (st_top s + 1) NEST_ATTR (nesting s)
                          [attr_top s + 1] []);
    [ | lia | unfold s2; rewrite inserted_top; caplia
      | apply name_cell_chain; lia
      | unfold attrs_ok, kinds; cbn [map app]; rewrite Hk; split;
        repeat constructor; unfold is_char, NAME_ATTR; lia
      | constructor;
        [cbn beta; rewrite Hk; unfold NAME_ATTR, NEST_ATTR; lia | constructor]
      | constructor ].
  change (last_link (LSt (st_top s + 1)) [attr_top s + 1])
    with (LNext (attr_top s + 1)).
  change (head_or_0 []) with 0.
  assert (E2 : attr_top s2 + 1 = attr_top s + 1 + 1)
    by (unfold s2; rewrite inserted_top; reflexivity).
  set (s3 := inserted (LNext (attr_top s + 1)) NEST_ATTR (nesting s) 0 s2).
  assert (Ht3 : stack_top s3 = stack_top s) by reflexivity.
  rewrite Push_room by (rewrite Ht3; caplia).
  reflexivity.
Qed.

Lemma InsertEntry_fresh : forall s b id,
  scope_from s b ->
  unbound_here s b id ->
  stack_top s < STACK_SIZE - 1 ->
  0 <= st_top s < ST_SIZE - 1 ->
  0 <= attr_top s < ATTR_SIZE - 2 ->
  InsertEntry id s = Ret (st_top s + 1) (entered id s).
Proof.
  intros s b id Hsc Hun Hstack Hst Hattr.
  apply InsertEntry_not_found; try assumption.
  apply (LookUpHere_unbound s b id); [assumption | lia | assumption].
Qed.

(** C10.  When the current scope binds [id], [InsertEntry(id)] reports the
    redeclaration and returns 0, and nothing but the output changes: the
    table, the stack, the pool, their three tops and the nesting depth are
    as before. *)
Theorem InsertEntry_redeclaration_changes_nothing :
  forall s i id,
    bound_here s i id ->
    stack_top s < STACK_SIZE ->
    exists s',
      InsertEntry id s = Ret 0 s' /\
      out s' = (out s ++ [OStr "Semantic Error--line: "; OInt (yyline s);
                          OStr ", "])
               ++ [OStr "symbol "; OName id; OStr ": redeclared.\n"] /\
      st s' = st s /\ stack s' = stack s /\ attrarray s' = attrarray s /\
      st_top s' = st_top s /\ stack_top s' = stack_top s /\
      attr_top s' = attr_top s /\ nesting s' = nesting s /\
      heap s' = heap s.
Proof.
  intros s i id Hb Htop. exists (reported REDECLARATION id 0 s).
  split; [apply (InsertEntry_bound s i id); assumption|].
  repeat split.
Qed.

Lemma InsertEntry_redeclaration_changes_nothing_witness :
  exists s',
    InsertEntry 5 st_decl5 = Ret 0 s' /\
    out s' = (out st_decl5 ++ [OStr "Semantic Error--line: ";
                               OInt (yyline st_decl5); OStr ", "])
             ++ [OStr "symbol "; OName 5; OStr ": redeclared.\n"] /\
    st s' = st st_decl5 /\ stack s' = stack st_decl5 /\
    attrarray s' = attrarray st_decl5 /\
    st_top s' = st_top st_decl5 /\ stack_top s' = stack_top st_decl5 /\
    attr_top s' = attr_top st_decl5 /\ nesting s' = nesting st_decl5 /\
    heap s' = heap st_decl5.
Proof.
  apply (InsertEntry_redeclaration_changes_nothing st_decl5 2 5).
  - unfold bound_here. change (stack_top st_decl5) with 2.
    split; [lia|]. split; [|split; [|split]].
    + intros j Hj. assert (j = 2) as -> by lia. reflexivity.
    + reflexivity.
    + intros j Hj. lia.
    + vm_compute. discriminate.
  - change (stack_top st_decl5) with 2. unfold STACK_SIZE. lia.
Defined.

(** ** The state after a successful [InsertEntry] *)

Lemma inserted_fields : forall p k v nx s,
  st_top (inserted p k v nx s) = st_top s /\
  stack_top (inserted p k v nx s) = stack_top s /\
  nesting (inserted p k v nx s) = nesting s /\
  out (inserted p k v nx s) = out s /\
  heap (inserted p k v nx s) = heap s /\
  stack (inserted p k v nx s) = stack s.
Proof. intros. destruct p; repeat split. Qed.

Lemma entered_tops : forall id s,
  st_top (entered id s) = st_top s + 1 /\
  stack_top (entered id s) = stack_top s + 1 /\
  attr_top (entered id s) = attr_top s + 2 /\
  nesting (entered id s) = nesting s /\
  out (entered id s) = out s /\
  heap (entered id s) = heap s.
Proof.
  intros. rewrite entered_eq.
  set (s2 := inserted (LSt (st_top s + 1)) NAME_ATTR id 0 (slot_taken s)).
  set (s3 := inserted (LNext (attr_top s + 1)) NEST_ATTR (nesting s) 0 s2).
  destruct (inserted_fields (LSt (st_top s + 1)) NAME_ATTR id 0 (slot_taken s))
    as (A1 & A2 & A3 & A4 & A5 & _).
  destruct (inserted_fields (LNext (attr_top s + 1)) NEST_ATTR (nesting s) 0 s2)
    as (B1 & B2 & B3 & B4 & B5 & _).
  fold s2 in A1, A2, A3, A4, A5. fold s3 in B1, B2, B3, B4, B5.
  assert (T3 : attr_top s3 = attr_top s + 2).
  { unfold s3. rewrite inserted_top. unfold s2. rewrite inserted_top.
    cbn. lia. }
  unfold pushed.
  cbn [st_top stack_top attr_top nesting out heap set_stack set_stack_top].
  rewrite B1, B2, B3, B4, B5, A1, A2, A3, A4, A5, T3.
  repeat split.
Qed.

Lemma pushed_seg : forall mk nm ptr dm s i l j,
  seg s i l j -> seg (pushed mk nm ptr dm s) i l j.
Proof.
  intros. eapply seg_frame; [eassumption | cbn; lia | reflexivity].
Qed.

Lemma entered_chain : forall id s,
  0 <= attr_top s ->
  chain (entered id s) (st (entered id s) (st_top s + 1))
        [attr_top s + 1; attr_top s + 2].
Proof.
  intros id s Htop. rewrite entered_eq.
  set (s2 := inserted (LSt (st_top s + 1)) NAME_ATTR id 0 (slot_taken s)).
  assert (E : attr_top s2 = attr_top s + 1)
    by (unfold s2; rewrite inserted_top; reflexivity).
  pose proof (inserted_chain s2 (st_top s + 1) NEST_ATTR (nesting s)
                             [attr_top s + 1] []) as H.
  rewrite E in H.
  replace (attr_top s + 1 + 1) with (attr_top s + 2) in H by lia.
  unfold chain. apply pushed_seg. apply H.
  - lia.
  - apply name_cell_chain. assumption.
  - unfold kinds. cbn [map app]. unfold s2. rewrite name_cell_kind.
    repeat constructor.
Qed.

Lemma entered_alist : forall id s,
  0 <= attr_top s ->
  alist (entered id s) [attr_top s + 1; attr_top s + 2] =
  [(NAME_ATTR, id); (NEST_ATTR, nesting s)].
Proof.
  intros id s Htop. rewrite entered_eq.
  set (s2 := inserted (LSt (st_top s + 1)) NAME_ATTR id 0 (slot_taken s)).
  assert (E : attr_top s2 = attr_top s + 1)
    by (unfold s2; rewrite inserted_top; reflexivity).
  pose proof (inserted_alist s2 (LNext (attr_top s + 1)) NEST_ATTR (nesting s)
                             0 [attr_top s + 1] []) as H.
  rewrite E in H.
  replace (attr_top s + 1 + 1) with (attr_top s + 2) in H by lia.
  cbn [app] in H.
  change (alist (pushed false id (st_top s + 1) false
                  (inserted (LNext (attr_top s + 1)) NEST_ATTR (nesting s) 0 s2))
                [attr_top s + 1; attr_top s + 2])
    with (alist (inserted (LNext (attr_top s + 1)) NEST_ATTR (nesting s) 0 s2)
                [attr_top s + 1; attr_top s + 2]).
  rewrite H.
  - unfold alist at 1. cbn [map]. unfold s2.
    change (attr_top s) with (attr_top (slot_taken s)) at 1 2.
    rewrite inserted_new by discriminate. reflexivity.
  - intros x [<- | []]. lia.
  - intros Heq. inversion Heq. lia.
Qed.

Lemma entered_attrs_ok : forall id s,
  0 <= attr_top s ->
  attrs_ok (entered id s) [attr_top s + 1; attr_top s + 2].
Proof.
  intros id s Htop. unfold attrs_ok.
  rewrite <- alist_kinds, entered_alist by assumption. cbn.
  split; repeat constructor; unfold is_char, NAME_ATTR, NEST_ATTR; lia.
Qed.

Lemma entered_frame : forall id s,
  stack (entered id s) (stack_top s + 1) =
    mkStackEntry false id (st_top s + 1) false false /\
  forall j, j <> stack_top s + 1 -> stack (entered id s) j = stack s j.
Proof.
  intros. rewrite entered_eq. unfold pushed.
  assert (E : forall p k v nx t, stack (inserted p k v nx t) = stack t)
    by (intros p k v nx t; destruct p; reflexivity).
  assert (E' : forall p k v nx t, stack_top (inserted p k v nx t) = stack_top t)
    by (intros p k v nx t; destruct p; reflexivity).
  cbn [stack set_stack]. rewrite !E, !E'.
  change (stack (slot_taken s)) with (stack s).
  change (stack_top (slot_taken s)) with (stack_top s).
  split; [apply upd_same | intros; apply upd_other; assumption].
Qed.

Lemma entered_get : forall id s,
  0 <= st_top s + 1 < ST_SIZE ->
  0 <= attr_top s < ATTR_SIZE - 2 ->
  GetAttr (st_top s + 1) NAME_ATTR (entered id s) = Ret id (entered id s) /\
  GetAttr (st_top s + 1) NEST_ATTR (entered id s)
    = Ret (nesting s) (entered id s).
Proof.
  intros id s Hst Hat.
  pose proof (entered_chain id s (proj1 Hat)) as Hch.
  pose proof (entered_attrs_ok id s (proj1 Hat)) as Hok.
  pose proof (entered_alist id s (proj1 Hat)) as Hal.
  destruct (entered_tops id s) as (_ & _ & Ht & _).
  assert (Hlt : attr_top (entered id s) < ATTR_SIZE)
    by (rewrite Ht; unfold ATTR_SIZE in *; lia).
  split.
  - apply (GetAttr_after_set _ _ _ _ _ [(NEST_ATTR, nesting s)] Hst Hlt Hch Hok).
    rewrite Hal. reflexivity.
  - apply (GetAttr_after_set _ _ _ _ _ [(NAME_ATTR, id)] Hst Hlt Hch Hok).
    rewrite Hal. reflexivity.
Qed.

Lemma entered_kinds : forall id s,
  0 <= attr_top s ->
  kind_of (entered id s) (attr_top s + 1) = NAME_ATTR /\
  kind_of (entered id s) (attr_top s + 2) = NEST_ATTR.
Proof.
  intros id s Htop.
  pose proof (entered_alist id s Htop) as H.
  apply (f_equal (map fst)) in H. rewrite alist_kinds in H.
  cbn in H. inversion H. split; reflexivity.
Qed.

Lemma IsAttr_chain : forall s ptr k l,
  0 <= ptr < ST_SIZE ->
  attr_top s < ATTR_SIZE ->
  chain s (st s ptr) l ->
  attrs_ok s l ->
  IsAttr ptr k s = Ret (find_cell s k l) s.
Proof.
  intros s ptr k l Hptr Htop Hch Hok.
  unfold IsAttr, bind. rewrite rd_st_ok by assumption.
  apply IsAttr_loop_chain;
    [assumption | assumption | eapply attr_budget_enough; eassumption].
Qed.

Lemma entered_is_attr : forall id s,
  0 <= st_top s + 1 < ST_SIZE ->
  0 <= attr_top s < ATTR_SIZE - 2 ->
  IsAttr (st_top s + 1) NAME_ATTR (entered id s)
    = Ret (attr_top s + 1) (entered id s) /\
  IsAttr (st_top s + 1) NEST_ATTR (entered id s)
    = Ret (attr_top s + 2) (entered id s).
Proof.
  intros id s Hst Hat.
  pose proof (entered_chain id s (proj1 Hat)) as Hch.
  pose proof (entered_attrs_ok id s (proj1 Hat)) as Hok.
  destruct (entered_kinds id s (proj1 Hat)) as [K1 K2].
  destruct (entered_tops id s) as (_ & _ & Ht & _).
  assert (Hlt : attr_top (entered id s) < ATTR_SIZE)
    by (rewrite Ht; unfold ATTR_SIZE in *; lia).
  split; rewrite (IsAttr_chain _ _ _ _ Hst Hlt Hch Hok);
    cbn [find_cell]; rewrite K1; cbn; try reflexivity.
  rewrite K2. reflexivity.
Qed.

(** C5, as the code has it.  When [LookUpHere] does not find [id] in the
    current scope, the table is not full, and moreover the stack has room
    for a frame and the pool for two cells, [InsertEntry(id)] appends the
    entry [st_top + 1], gives it the attributes Name = [id] and Nest = the
    current nesting depth, pushes the frame [(id, entry, not a marker, not a
    dummy, not used)] and returns the entry; it prints nothing.  When
    [LookUpHere] finds [id], as it does when a frame of the current scope
    binds it, [InsertEntry(id)] reports the redeclaration and returns 0,
    whatever room is left. *)
Theorem InsertEntry_enters_name_nest_and_frame :
  forall s id,
    (LookUpHere id s = Ret 0 s ->
     stack_top s < STACK_SIZE - 1 ->
     0 <= st_top s < ST_SIZE - 1 ->
     0 <= attr_top s < ATTR_SIZE - 2 ->
     exists s',
       InsertEntry id s = Ret (st_top s + 1) s' /\
       st_top s' = st_top s + 1 /\
       GetAttr (st_top s + 1) NAME_ATTR s' = Ret id s' /\
       GetAttr (st_top s + 1) NEST_ATTR s' = Ret (nesting s) s' /\
       (exists c, IsAttr (st_top s + 1) NAME_ATTR s' = Ret c s' /\ c <> 0) /\
       (exists c, IsAttr (st_top s + 1) NEST_ATTR s' = Ret c s' /\ c <> 0) /\
       stack_top s' = stack_top s + 1 /\
       stack s' (stack_top s') =
         mkStackEntry false id (st_top s + 1) false false /\
       (forall j, j <= stack_top s -> stack s' j = stack s j) /\
       nesting s' = nesting s /\
       out s' = out s) /\
    (forall r,
        LookUpHere id s = Ret r s -> r <> 0 ->
        InsertEntry id s = Ret 0 (reported REDECLARATION id 0 s)) /\
    (forall i,
        bound_here s i id -> stack_top s < STACK_SIZE ->
        InsertEntry id s = Ret 0 (reported REDECLARATION id 0 s)).
Proof.
  intros s id. split; [|split].
  - intros Hlook Hstack Hst Hat. exists (entered id s).
    destruct (entered_tops id s) as (T1 & T2 & T3 & T4 & T5 & _).
    destruct (entered_get id s) as [G1 G2]; [lia | assumption |].
    destruct (entered_is_attr id s) as [I1 I2]; [lia | assumption |].
    destruct (entered_frame id s) as [F1 F2].
    split; [apply InsertEntry_not_found; assumption|].
    split; [assumption|]. split; [assumption|]. split; [assumption|].
    split; [exists (attr_top s + 1); split; [assumption | lia]|].
    split; [exists (attr_top s + 2); split; [assumption | lia]|].
    split; [assumption|]. split; [rewrite T2; assumption|].
    split; [intros j Hj; apply F2; lia|].
    split; assumption.
  - intros r Hlook Hr. apply (InsertEntry_found s id r); assumption.
  - intros i Hb Htop. apply (InsertEntry_bound s i id); assumption.
Qed.

Lemma st_block_scope : scope_from st_block 1.
Proof.
  unfold scope_from. change (stack_top st_block) with 1.
  split; [lia|]. split; [reflexivity|]. intros j Hj. lia.
Qed.

Lemma InsertEntry_enters_name_nest_and_frame_witness :
  (exists s',
      InsertEntry 5 st_block = Ret (st_top st_block + 1) s' /\
      st_top s' = st_top st_block + 1 /\
      GetAttr (st_top st_block + 1) NAME_ATTR s' = Ret 5 s' /\
      GetAttr (st_top st_block + 1) NEST_ATTR s' = Ret (nesting st_block) s' /\
      (exists c, IsAttr (st_top st_block + 1) NAME_ATTR s' = Ret c s' /\ c <> 0) /\
      (exists c, IsAttr (st_top st_block + 1) NEST_ATTR s' = Ret c s' /\ c <> 0) /\
      stack_top s' = stack_top st_block + 1 /\
      stack s' (stack_top s') =
        mkStackEntry false 5 (st_top st_block + 1) false false /\
      (forall j, j <= stack_top st_block -> stack s' j = stack st_block j) /\
      nesting s' = nesting st_block /\
      out s' = out st_block) /\
  InsertEntry 5 st_decl5 = Ret 0 (reported REDECLARATION 5 0 st_decl5) /\
  InsertEntry 5 st_decl5 = Ret 0 (reported REDECLARATION 5 0 st_decl5).
Proof.
  assert (Hb : bound_here st_decl5 2 5).
  { unfold bound_here. change (stack_top st_decl5) with 2.
    split; [lia|]. split; [|split; [|split]].
    - intros j Hj. assert (j = 2) as -> by lia. reflexivity.
    - reflexivity.
    - intros j Hj. lia.
    - vm_compute. discriminate. }
  assert (Htop : stack_top st_decl5 < STACK_SIZE)
    by (change (stack_top st_decl5) with 2; unfold STACK_SIZE; lia).
  split; [|split].
  - apply (proj1 (InsertEntry_enters_name_nest_and_frame st_block 5)).
    + apply (LookUpHere_unbound st_block 1 5).
      * apply st_block_scope.
      * change (stack_top st_block) with 1. unfold STACK_SIZE. lia.
      * unfold unbound_here. change (stack_top st_block) with 1.
        intros j Hj. lia.
    + change (stack_top st_block) with 1. unfold STACK_SIZE. lia.
    + change (st_top st_block) with 0. unfold ST_SIZE. lia.
    + change (attr_top st_block) with 0. unfold ATTR_SIZE. lia.
  - apply (proj1 (proj2 (InsertEntry_enters_name_nest_and_frame st_decl5 5))
             (st_ptr (stack st_decl5 2))).
    + apply (LookUpHere_bound st_decl5 2 5); assumption.
    + vm_compute. discriminate.
  - apply (proj2 (proj2 (InsertEntry_enters_name_nest_and_frame st_decl5 5))
             2); assumption.
Defined.

(** C5 as stated fails.  In [st_full_stack] a block is open, no frame binds
    name 5 and the table is empty, but the stack is full: [InsertEntry]
    appends the entry and then [Push] reports the stack overflow and ends
    the process; no frame is pushed and no symbol is returned. *)
Lemma InsertEntry_aborts_on_full_stack :
  scope_from st_full_stack 1 /\
  unbound_here st_full_stack 1 5 /\
  st_top st_full_stack < ST_SIZE - 1 /\
  (forall r s', InsertEntry 5 st_full_stack <> Ret r s') /\
  exists s', InsertEntry 5 st_full_stack = Exit 0 s' /\
             stack_top s' = stack_top st_full_stack.
Proof.
  assert (E : exists s', InsertEntry 5 st_full_stack = Exit 0 s' /\
                         stack_top s' = stack_top st_full_stack).
  { eexists. split; [vm_compute; reflexivity | reflexivity]. }
  split; [|split; [|split; [|split]]].
  - unfold scope_from. change (stack_top st_full_stack) with 99.
    split; [lia|]. split; [reflexivity|].
    intros j Hj.
    assert (H : forallb (fun n => negb (marker (stack st_full_stack
                                                  (Z.of_nat n + 2))))
                        (seq 0 98) = true) by (vm_compute; reflexivity).
    rewrite forallb_forall in H.
    specialize (H (Z.to_nat (j - 2))).
    rewrite Z2Nat.id in H by lia.
    replace (j - 2 + 2) with j in H by lia.
    apply (proj1 (negb_true_iff (marker (stack st_full_stack j)))).
    apply H. apply in_seq. lia.
  - unfold unbound_here. change (stack_top st_full_stack) with 99.
    intros j Hj.
    assert (H : forallb (fun n => negb (binds (stack st_full_stack
                                                 (Z.of_nat n + 2)) 5))
                        (seq 0 98) = true) by (vm_compute; reflexivity).
    rewrite forallb_forall in H.
    specialize (H (Z.to_nat (j - 2))).
    rewrite Z2Nat.id in H by lia.
    replace (j - 2 + 2) with j in H by lia.
    apply (proj1 (negb_true_iff (binds (stack st_full_stack j) 5))).
    apply H. apply in_seq. lia.
  - change (st_top st_full_stack) with 0. unfold ST_SIZE. lia.
  - intros r s' H. destruct E as (s'' & E & _). congruence.
  - exact E.
Qed.

(** C4, as the code has it.  The table has [ST_SIZE] = 500 slots and slot 0
    is never issued, so [InsertEntry] takes the overflow branch as soon as
    499 symbols are in the table.  For a name that [LookUpHere] does not
    find: with fewer than 499 symbols, and room on the stack and in the
    pool, the insertion succeeds, returns the next entry and prints nothing;
    with 499 symbols, the 500th insertion reports the table overflow and
    ends the process with status 0, whatever room the stack and the pool
    have, and the table keeps its 499 symbols. *)
Theorem InsertEntry_overflows_at_499_symbols :
  forall s id,
    LookUpHere id s = Ret 0 s ->
    ST_SIZE - 1 = 499 /\
    (0 <= st_top s < 499 ->
     stack_top s < STACK_SIZE - 1 ->
     0 <= attr_top s < ATTR_SIZE - 2 ->
     InsertEntry id s = Ret (st_top s + 1) (entered id s) /\
     st_top (entered id s) = st_top s + 1 /\
     out (entered id s) = out s) /\
    (499 <= st_top s ->
     InsertEntry id s = Exit 0 (reported ST_OVERFLOW 0 0 s) /\
     st_top (reported ST_OVERFLOW 0 0 s) = st_top s /\
     error_text ST_OVERFLOW 0 0 = [OStr "symbol table overflow.\n"]).
Proof.
  intros s id Hlook.
  split; [reflexivity|]. split.
  - intros Hst Hstack Hat.
    destruct (entered_tops id s) as (T1 & _ & _ & _ & T5 & _).
    split; [|split; assumption].
    apply InsertEntry_not_found; assumption.
  - intros Hfull. split; [|split; reflexivity].
    apply InsertEntry_not_found_overflow; [assumption|].
    unfold ST_SIZE. lia.
Qed.

Lemma st_499_open_facts :
  stack_top st_499_open = 1 /\ st_top st_499_open = 499 /\
  marker (stack st_499_open 1) = true.
Proof. repeat split; vm_compute; reflexivity. Qed.

Lemma InsertEntry_overflows_at_499_symbols_witness :
  (InsertEntry 5 st_block = Ret (st_top st_block + 1) (entered 5 st_block) /\
   st_top (entered 5 st_block) = st_top st_block + 1 /\
   out (entered 5 st_block) = out st_block) /\
  (InsertEntry 1000 st_499_open =
     Exit 0 (reported ST_OVERFLOW 0 0 st_499_open) /\
   st_top (reported ST_OVERFLOW 0 0 st_499_open) = st_top st_499_open /\
   error_text ST_OVERFLOW 0 0 = [OStr "symbol table overflow.\n"]).
Proof.
  destruct st_499_open_facts as (T1 & T2 & T3).
  split.
  - apply (InsertEntry_overflows_at_499_symbols st_block 5).
    + apply (LookUpHere_unbound st_block 1 5).
      * apply st_block_scope.
      * change (stack_top st_block) with 1. unfold STACK_SIZE. lia.
      * unfold unbound_here. change (stack_top st_block) with 1.
        intros j Hj. lia.
    + change (st_top st_block) with 0. lia.
    + change (stack_top st_block) with 1. unfold STACK_SIZE. lia.
    + change (attr_top st_block) with 0. unfold ATTR_SIZE. lia.
  - apply (InsertEntry_overflows_at_499_symbols st_499_open 1000).
    + apply (LookUpHere_unbound st_499_open 1 1000).
      * unfold scope_from. rewrite T1. split; [lia|].
        split; [exact T3|]. intros j Hj. lia.
      * rewrite T1. unfold STACK_SIZE. lia.
      * unfold unbound_here. rewrite T1. intros j Hj. lia.
    + rewrite T2. lia.
Defined.

(** C4 as stated fails.  In [st_499] 499 symbols have been inserted; the
    claim has the 500th insertion succeed.  The code reports the table
    overflow and ends the process. *)
Lemma InsertEntry_500th_symbol_overflows :
  st_top st_499 = 499 /\
  (forall r s', (OpenBlock ;;; InsertEntry 1000) st_499 <> Ret r s') /\
  exists s',
    (OpenBlock ;;; InsertEntry 1000) st_499 = Exit 0 s' /\
    st_top s' = 499 /\
    out s' = [OStr "Semantic Error--line: "; OInt 1; OStr ", ";
              OStr "symbol table overflow.\n"].
Proof.
  assert (E : exists s',
             (OpenBlock ;;; InsertEntry 1000) st_499 = Exit 0 s' /\
             st_top s' = 499 /\
             out s' = [OStr "Semantic Error--line: "; OInt 1; OStr ", ";
                       OStr "symbol table overflow.\n"]).
  { eexists. split; [vm_compute; reflexivity | split; reflexivity]. }
  split; [reflexivity|]. split; [|exact E].
  intros r s' H. destruct E as (s'' & E & _). congruence.
Qed.

(** * The attribute store as a whole *)

Lemma bind_ret_inv : forall A B (c : M A) (k : A -> M B) s b s',
  bind c k s = Ret b s' ->
  exists a s1, c s = Ret a s1 /\ k a s1 = Ret b s'.
Proof.
  intros A B c k s b s' H. unfold bind in H.
  destruct (c s) as [a s1| | |]; try discriminate.
  exists a, s1. split; [reflexivity | assumption].
Qed.

Lemma chain_unique : forall s i l l',
  chain s i l -> chain s i l' -> l = l'.
Proof.
  unfold chain. intros s i l. revert i.
  induction l as [|c l IH]; intros i l' H H'.
  - inversion H; subst. inversion H'; subst; [reflexivity | lia].
  - inversion H; subst. inversion H'; subst; [lia|].
    f_equal. eapply IH; eassumption.
Qed.

Lemma assoc_set_assoc_other : forall k k' v l,
  k' <> k -> assoc k' (set_assoc k v l) = assoc k' l.
Proof.
  intros k k' v l Hne. unfold set_assoc. destruct (has_kind k l).
  - induction l as [|[k0 v0] l IH]; [reflexivity|]. cbn.
    destruct (Z.eqb_spec k0 k) as [->|E]; cbn.
    + destruct (Z.eqb_spec k k'); [congruence | assumption].
    + destruct (Z.eqb_spec k0 k'); [reflexivity | assumption].
  - induction l as [|[k0 v0] l IH]; cbn.
    + destruct (Z.eqb_spec k k'); [congruence | reflexivity].
    + destruct (Z.ltb_spec k0 k); cbn.
      * destruct (Z.eqb_spec k0 k'); [reflexivity | assumption].
      * destruct (Z.eqb_spec k k'); [congruence | reflexivity].
Qed.

Lemma has_attr_get : forall s p k v,
  0 <= p < ST_SIZE ->
  attr_top s < ATTR_SIZE ->
  has_attr s p k v ->
  GetAttr p k s = Ret v s.
Proof.
  intros s p k v Hp Htop (l & Hch & Hok & Ha).
  assert (Hin : In k (kinds s l))
    by (rewrite <- alist_kinds; eapply assoc_in; eassumption).
  destruct (find_cell_present s k l (proj1 Hok) Hin) as [Hc _].
  pose proof (seg_in_range _ _ _ _ _ Hch Hc) as Hr.
  rewrite (GetAttr_chain s p k l) by assumption.
  destruct (Z.eqb_spec (find_cell s k l) 0); [lia|].
  rewrite (find_cell_val s k l (proj1 Hok) Hin) in Ha.
  inversion Ha. reflexivity.
Qed.

(** [SetAttr] of an absent kind on a full pool. *)
Lemma SetAttr_full : forall s ptr k v l,
  0 <= ptr < ST_SIZE ->
  ATTR_SIZE - 1 <= attr_top s < ATTR_SIZE ->
  chain s (st s ptr) l ->
  attrs_ok s l ->
  ~ In k (kinds s l) ->
  SetAttr ptr k v s = Exit 0 (reported ATTR_OVERFLOW 0 0 s).
Proof.
  intros s ptr k v l Hptr Htop Hch Hok Hnot.
  assert (Hbud : (List.length l < attr_budget)%nat)
    by (eapply attr_budget_enough; eassumption).
  destruct (ascending_split s k l (proj1 Hok) Hnot)
    as (l1 & l2 & -> & H1 & H2).
  destruct (seg_split _ _ _ _ _ Hch) as (j & Hs1 & Hs2).
  destruct (seg_head _ _ _ Hs2) as [Ej Hj].
  assert (Hj' : j = 0 \/ 1 <= j <= attr_top s /\ k <= kind_of s j).
  { destruct Hj as [Hj | Hj]; [left; assumption | right; split; [assumption|]].
    destruct l2 as [|c l2]; cbn in Ej; [lia|]. subst j.
    inversion H2; subst. lia. }
  unfold SetAttr, IsAttr, bind. rewrite rd_st_ok by assumption.
  rewrite (IsAttr_loop_chain (l1 ++ l2)) by (assumption || lia).
  rewrite find_cell_absent by assumption. cbn [Z.eqb negb].
  rewrite rd_st_ok by assumption.
  rewrite (SetAttr_loop_seg l1 _ s (LSt ptr) _ j k); try assumption;
    [| lia | rewrite length_app in Hbud; lia].
  unfold get.
  destruct (Z.geb_spec (attr_top s) (ATTR_SIZE - 1)); [|lia].
  rewrite error_msg_abort. reflexivity.
Qed.

(** A state that differs from a well-formed one outside the table slots,
    the pool and its top is well formed too. *)
Lemma pool_inv_same : forall s s',
  st s' = st s -> attrarray s' = attrarray s -> attr_top s' = attr_top s ->
  pool_inv s -> pool_inv s'.
Proof.
  intros s s' E1 E2 E3 (Htop & cells & Hc & Hd).
  split; [rewrite E3; assumption|].
  exists cells. split; [|assumption].
  intros p Hp. destruct (Hc p Hp) as [Hch Hok]. split.
  - unfold chain. rewrite E1.
    eapply seg_frame; [exact Hch | lia | intros; rewrite E2; reflexivity].
  - unfold attrs_ok. erewrite kinds_frame; [exact Hok|].
    intros; rewrite E2; reflexivity.
Qed.

Lemma has_attr_same : forall s s' p k v,
  st s' = st s -> attrarray s' = attrarray s -> attr_top s' = attr_top s ->
  has_attr s p k v -> has_attr s' p k v.
Proof.
  intros s s' p k v E1 E2 E3 (l & Hch & Hok & Ha).
  exists l. split; [|split].
  - unfold chain. rewrite E1.
    eapply seg_frame; [exact Hch | lia | intros; rewrite E2; reflexivity].
  - unfold attrs_ok. erewrite kinds_frame; [exact Hok|].
    intros; rewrite E2; reflexivity.
  - unfold alist in *. rewrite E2. assumption.
Qed.

Lemma last_link_in : forall ptr l c,
  last_link (LSt ptr) l = LNext c -> In c l.
Proof.
  intros ptr l c H.
  destruct (last_link_cases (LSt ptr) l) as [[_ E] | (l' & c' & -> & E)];
    rewrite E in H; [discriminate|].
  inversion H; subst. rewrite in_app_iff. cbn. auto.
Qed.

(** What [SetAttr] on slot [q] leaves alone: the chain of any other slot. *)
Lemma SetAttr_other_slot : forall s q k v l s' l' lp p,
  0 <= attr_top s ->
  chain s (st s q) l ->
  (s' = overwritten (find_cell s k l) v s /\ l' = l /\
   In (find_cell s k l) l) \/
  (exists l1 l2,
      l = l1 ++ l2 /\ l' = l1 ++ (attr_top s + 1) :: l2 /\
      s' = inserted (last_link (LSt q) l1) k v (head_or_0 l2) s) ->
  p <> q ->
  chain s (st s p) lp ->
  (forall c, In c lp -> ~ In c l) ->
  chain s' (st s' p) lp /\ kinds s' lp = kinds s lp /\
  alist s' lp = alist s lp /\ (forall c, In c lp -> ~ In c l').
Proof.
  intros s q k v l s' l' lp p Htop Hq Hcase Hpq Hp Hdis.
  assert (Hr : forall c, In c lp -> 1 <= c <= attr_top s)
    by (intros c Hc; apply (seg_in_range _ _ _ _ _ Hp Hc)).
  destruct Hcase as [(-> & -> & Hc) | (l1 & l2 & -> & -> & ->)].
  - split; [apply overwritten_seg; exact Hp|].
    split; [apply overwritten_kinds|].
    split; [|assumption].
    unfold alist. apply map_ext_in. intros x Hx.
    rewrite overwritten_num, overwritten_val.
    destruct (Z.eqb_spec x (find_cell s k l)) as [->|]; [|reflexivity].
    exfalso. apply (Hdis _ Hx Hc).
  - assert (Hne : forall x, In x lp -> x <> attr_top s + 1)
      by (intros x Hx; specialize (Hr x Hx); lia).
    assert (Hlk : forall x, In x lp ->
                            last_link (LSt q) l1 <> LNext x).
    { intros x Hx E. apply last_link_in in E.
      apply (Hdis x Hx). rewrite in_app_iff. auto. }
    split; [|split; [|split]].
    + unfold chain. rewrite inserted_st.
      assert (Est : match last_link (LSt q) l1 with
                    | LSt ptr => if p =? ptr then attr_top s + 1 else st s p
                    | LNext _ => st s p
                    end = st s p).
      { destruct (last_link_cases (LSt q) l1) as [[_ E] | (l' & c' & _ & E)];
          rewrite E; [|reflexivity].
        destruct (Z.eqb_spec p q); [contradiction | reflexivity]. }
      rewrite Est.
      eapply seg_frame; [exact Hp | rewrite inserted_top; lia |].
      intros x Hx. apply inserted_next_other; auto.
    + apply kinds_frame. intros x Hx. apply inserted_num. auto.
    + unfold alist. apply map_ext_in. intros x Hx.
      rewrite inserted_num, inserted_val by auto. reflexivity.
    + intros x Hx Hin. rewrite in_app_iff in Hin. cbn in Hin.
      destruct Hin as [Hin | [Hin | Hin]].
      * apply (Hdis x Hx). rewrite in_app_iff. auto.
      * apply (Hne x Hx). symmetry. assumption.
      * apply (Hdis x Hx). rewrite in_app_iff. auto.
Qed.

Lemma rd_st_ret_inv : forall i s a s',
  rd_st i s = Ret a s' -> 0 <= i < ST_SIZE.
Proof.
  intros i s a s' H. unfold rd_st, in_range in H.
  destruct (Z.leb_spec 0 i), (Z.ltb_spec i ST_SIZE); cbn in H;
    try discriminate. lia.
Qed.

Lemma SetAttr_ret_range : forall q k v s s',
  SetAttr q k v s = Ret tt s' -> 0 <= q < ST_SIZE.
Proof.
  intros q k v s s' H. unfold SetAttr, IsAttr in H.
  apply bind_ret_inv in H. destruct H as (a & s1 & H & _).
  apply bind_ret_inv in H. destruct H as (a0 & s2 & H & _).
  eapply rd_st_ret_inv. eassumption.
Qed.

(** [SetAttr] keeps the store well formed, changes nothing else, sets the
    attribute, and leaves every other attribute of every symbol as it
    was. *)
Lemma SetAttr_pool : forall s q k v s',
  pool_inv s ->
  is_char k ->
  SetAttr q k v s = Ret tt s' ->
  pool_inv s' /\
  (stack s' = stack s /\ stack_top s' = stack_top s /\ st_top s' = st_top s /\
   nesting s' = nesting s /\ out s' = out s /\ heap s' = heap s) /\
  has_attr s' q k v /\
  (forall p k' v',
      0 <= p < ST_SIZE -> p <> q \/ k' <> k ->
      has_attr s p k' v' -> has_attr s' p k' v').
Proof.
  intros s q k v s' (Htop & cells & Hc & Hd) Hk Hrun.
  pose proof (SetAttr_ret_range _ _ _ _ _ Hrun) as Hq.
  destruct (Hc q Hq) as [Hch Hok].
  assert (Hroom : In k (kinds s (cells q)) \/ attr_top s < ATTR_SIZE - 1).
  { destruct (in_dec Z.eq_dec k (kinds s (cells q))) as [H|H]; [auto|].
    destruct (Z_lt_ge_dec (attr_top s) (ATTR_SIZE - 1)); [auto|].
    rewrite (SetAttr_full s q k v (cells q)) in Hrun;
      try assumption; [discriminate | lia]. }
  destruct (SetAttr_chain s q k v (cells q) Hq Htop Hch Hok Hk Hroom)
    as (s1 & l' & Hrun' & Hch' & Hok' & Hal & Hover & Hins).
  rewrite Hrun' in Hrun. inversion Hrun; subst s1. clear Hrun.
  assert (Hcase :
    (s' = overwritten (find_cell s k (cells q)) v s /\ l' = cells q /\
     In (find_cell s k (cells q)) (cells q)) \/
    (exists l1 l2,
        cells q = l1 ++ l2 /\ l' = l1 ++ (attr_top s + 1) :: l2 /\
        s' = inserted (last_link (LSt q) l1) k v (head_or_0 l2) s)).
  { destruct (in_dec Z.eq_dec k (kinds s (cells q))) as [H|H].
    - left. destruct (Hover H) as [-> ->].
      repeat split. apply (find_cell_present s k (cells q) (proj1 Hok) H).
    - right. apply (Hins H). }
  assert (Hfields : stack s' = stack s /\ stack_top s' = stack_top s /\
                    st_top s' = st_top s /\ nesting s' = nesting s /\
                    out s' = out s /\ heap s' = heap s /\
                    attr_top s <= attr_top s' < ATTR_SIZE).
  { destruct Hcase as [(-> & _ & _) | (l1 & l2 & _ & _ & ->)].
    - cbn. repeat split; lia.
    - destruct (inserted_fields (last_link (LSt q) l1) k v (head_or_0 l2) s)
        as (A1 & A2 & A3 & A4 & A5 & A6).
      rewrite inserted_top.
      destruct Hroom as [Hin | Hroom].
      + exfalso.
        destruct (in_dec Z.eq_dec k (kinds s (cells q))) as [H|H];
          [|contradiction].
        destruct (Hover H) as [E _].
        assert (Et : attr_top (inserted (last_link (LSt q) l1) k v
                                        (head_or_0 l2) s) = attr_top s)
          by (rewrite E; reflexivity).
        rewrite inserted_top in Et. lia.
      + repeat split; try assumption; lia. }
  assert (Hother : forall p, 0 <= p < ST_SIZE -> p <> q ->
            chain s' (st s' p) (cells p) /\
            kinds s' (cells p) = kinds s (cells p) /\
            alist s' (cells p) = alist s (cells p) /\
            (forall c, In c (cells p) -> ~ In c l')).
  { intros p Hp Hpq. destruct (Hc p Hp) as [Hchp _].
    apply (SetAttr_other_slot s q k v (cells q) s' l' (cells p) p);
      try assumption; [lia|].
    intros c Hc1 Hc2. apply Hpq. apply (Hd p q c); assumption. }
  split; [|split; [|split]].
  - split; [lia|].
    exists (fun p => if p =? q then l' else cells p).
    split.
    + intros p Hp. destruct (Z.eqb_spec p q) as [->|Hpq].
      * split; assumption.
      * destruct (Hother p Hp Hpq) as (H1 & H2 & _).
        split; [assumption|]. unfold attrs_ok. rewrite H2.
        apply (Hc p Hp).
    + intros p p' c Hp Hp' H1 H2.
      destruct (Z.eqb_spec p q) as [->|Hpq],
               (Z.eqb_spec p' q) as [->|Hpq']; try reflexivity.
      * exfalso. destruct (Hother p' Hp' Hpq') as (_ & _ & _ & H).
        apply (H c H2 H1).
      * exfalso. destruct (Hother p Hp Hpq) as (_ & _ & _ & H).
        apply (H c H1 H2).
      * apply (Hd p p' c); assumption.
  - tauto.
  - exists l'. split; [assumption|]. split; [assumption|].
    rewrite Hal. apply assoc_set_assoc.
  - intros p k' v' Hp Hor (lp & Hchp & Hokp & Ha).
    destruct (Hc p Hp) as [Hchp' _].
    pose proof (chain_unique _ _ _ _ Hchp Hchp'). subst lp.
    destruct (Z.eq_dec p q) as [->|Hpq].
    + destruct Hor as [Hor|Hor]; [contradiction|].
      exists l'. split; [assumption|]. split; [assumption|].
      rewrite Hal. rewrite assoc_set_assoc_other by assumption. assumption.
    + destruct (Hother p Hp Hpq) as (H1 & H2 & H3 & _).
      exists (cells p). split; [assumption|]. split.
      * unfold attrs_ok. rewrite H2. assumption.
      * rewrite H3. assumption.
Qed.

(** * Matched blocks *)

Lemma run_op_block : forall body,
  run_op (OBlock body) = (OpenBlock ;;; run_list body ;;; CloseBlock).
Proof. reflexivity. Qed.

Lemma op_ok_block : forall body, op_ok (OBlock body) = ops_ok body.
Proof. reflexivity. Qed.

Lemma op_nested_ind : forall P : op -> Prop,
  (forall id, P (OInsert id)) ->
  (forall id, P (OLookUp id)) ->
  (forall sym k v, P (OSetAttr sym k v)) ->
  (forall body, Forall P body -> P (OBlock body)) ->
  forall o, P o.
Proof.
  intros P H1 H2 H3 H4. fix IH 1. intros [id | id | sym k v | body].
  - apply H1.
  - apply H2.
  - apply H3.
  - apply H4. induction body as [|o body IHb]; constructor.
    + apply IH.
    + apply IHb.
Qed.

Lemma LookUpHere_loop_pure : forall n i id s r s',
  LookUpHere_loop n i id s = Ret r s' -> s' = s.
Proof.
  induction n as [|n IH]; intros i id s r s' H; cbn [LookUpHere_loop] in H.
  - discriminate.
  - unfold bind, rd_stack in H. destruct (in_range i STACK_SIZE); [|discriminate].
    destruct (marker (stack s i)); [inversion H; reflexivity|].
    destruct ((name (stack s i) =? id) && negb (dummy (stack s i)));
      [inversion H; reflexivity|].
    eapply IH. eassumption.
Qed.

Lemma LookUpHere_pure : forall id s r s',
  LookUpHere id s = Ret r s' -> s' = s.
Proof.
  intros id s r s' H. unfold LookUpHere, bind, get in H.
  eapply LookUpHere_loop_pure. eassumption.
Qed.

Lemma Push_ret_inv : forall mk nm ptr dm s s',
  0 <= stack_top s ->
  Push mk nm ptr dm s = Ret tt s' ->
  s' = pushed mk nm ptr dm s /\ stack_top s + 1 < STACK_SIZE.
Proof.
  intros mk nm ptr dm s s' Htop H.
  destruct (Z_lt_ge_dec (stack_top s) (STACK_SIZE - 1)) as [Hlt|Hge].
  - rewrite Push_room in H by lia. inversion H. split; [reflexivity | lia].
  - rewrite Push_full in H by lia. discriminate.
Qed.

Lemma LookUp_loop_cases : forall n id s,
  Z.of_nat n < STACK_SIZE ->
  (exists i, 1 <= i <= Z.of_nat n /\ names (stack s i) id = true /\
             LookUp_loop n id s =
             Ret (Some (st_ptr (stack s i)))
                 (set_stack (upd (stack s) i (mark_used (stack s i))) s)) \/
  LookUp_loop n id s = Ret None s.
Proof.
  induction n as [|n IH]; intros id s Hn.
  - right. reflexivity.
  - cbn [LookUp_loop]. unfold bind. rewrite rd_stack_ok by lia.
    destruct (negb (marker (stack s (Z.of_nat (S n))))
              && (name (stack s (Z.of_nat (S n))) =? id)) eqn:E.
    + left. exists (Z.of_nat (S n)). split; [lia|]. split; [exact E|].
      rewrite wr_stack_ok by lia. reflexivity.
    + destruct (IH id s) as [(i & Hi & Hm & Hr) | Hr]; [lia | left | right].
      * exists i. split; [lia|]. split; assumption.
      * assumption.
Qed.

Lemma LookUp_inv : forall id s r s',
  0 <= stack_top s < STACK_SIZE ->
  LookUp id s = Ret r s' ->
  (exists i, 1 <= i <= stack_top s /\ names (stack s i) id = true /\
             s' = set_stack (upd (stack s) i (mark_used (stack s i))) s) \/
  (s' = pushed false id 0 true (reported UNDECLARATION id 0 s) /\
   stack_top s + 1 < STACK_SIZE).
Proof.
  intros id s r s' Htop H. unfold LookUp, bind, get in H.
  destruct (LookUp_loop_cases (Z.to_nat (stack_top s)) id s)
    as [(i & Hi & Hm & Hr) | Hr]; [lia | |]; rewrite Hr in H.
  - left. exists i. split; [lia|]. split; [assumption|].
    inversion H. reflexivity.
  - right. rewrite error_msg_continue in H.
    destruct (Push false id 0 true (reported UNDECLARATION id 0 s))
      as [[] s2| | |] eqn:EP; try discriminate.
    inversion H; subst.
    apply Push_ret_inv in EP; [|cbn; lia].
    destruct EP as [-> Hroom]. split; [reflexivity | exact Hroom].
Qed.

Lemma CloseBlock_loop_skip : forall d n i s,
  0 <= i - Z.of_nat d ->
  i < STACK_SIZE ->
  (forall j, i - Z.of_nat d < j <= i -> marker (stack s j) = false) ->
  CloseBlock_loop (n + d) i s = CloseBlock_loop n (i - Z.of_nat d) s.
Proof.
  induction d as [|d IH]; intros n i s Hlo Hhi Hskip.
  - rewrite Nat.add_0_r. f_equal. cbn. lia.
  - rewrite Nat.add_succ_r. cbn [CloseBlock_loop]. unfold bind.
    rewrite rd_stack_ok by lia. rewrite Hskip by lia.
    rewrite IH; [f_equal; lia | lia | lia |].
    intros j Hj. apply Hskip. lia.
Qed.

Lemma CloseBlock_at : forall s b,
  scope_from s b ->
  stack_top s < STACK_SIZE ->
  CloseBlock s =
  Ret tt (set_stack_top (b - 1) (set_nesting (nesting s - 1) s)).
Proof.
  intros s b (Hb & Hm & Hnm) Htop.
  unfold CloseBlock, bind, get.
  replace (Z.to_nat (stack_top s + 1))
    with (Z.to_nat (b + 1) + Z.to_nat (stack_top s - b))%nat by lia.
  rewrite CloseBlock_loop_skip; rewrite ?Z2Nat.id by lia; try lia.
  - replace (stack_top s - (stack_top s - b)) with b by lia.
    replace (Z.to_nat (b + 1)) with (S (Z.to_nat b)) by lia.
    cbn [CloseBlock_loop]. unfold bind. rewrite rd_stack_ok by lia.
    rewrite Hm. reflexivity.
  - intros j Hj. apply Hnm. lia.
Qed.

Lemma slot_taken_pool : forall s,
  pool_inv s -> 0 <= st_top s + 1 < ST_SIZE ->
  pool_inv (slot_taken s) /\
  (forall p k v, p <> st_top s + 1 ->
                 has_attr s p k v -> has_attr (slot_taken s) p k v).
Proof.
  intros s (Htop & cells & Hc & Hd) Hn. split.
  - split; [assumption|].
    exists (fun p => if p =? st_top s + 1 then [] else cells p). split.
    + intros p Hp. destruct (Z.eqb_spec p (st_top s + 1)) as [->|Hne].
      * split.
        -- unfold chain, slot_taken. cbn. rewrite upd_same. constructor.
        -- split; constructor.
      * destruct (Hc p Hp) as [Hch Hok]. split.
        -- unfold chain, slot_taken. cbn. rewrite upd_other by assumption.
           eapply seg_frame; [exact Hch | cbn; lia | reflexivity].
        -- exact Hok.
    + intros p q c Hp Hq H1 H2.
      destruct (Z.eqb_spec p (st_top s + 1)); [destruct H1|].
      destruct (Z.eqb_spec q (st_top s + 1)); [destruct H2|].
      apply (Hd p q c); assumption.
  - intros p k v Hne (l & Hch & Hok & Ha). exists l. split; [|split].
    + unfold chain, slot_taken. cbn. rewrite upd_other by assumption.
      eapply seg_frame; [exact Hch | cbn; lia | reflexivity].
    + exact Hok.
    + exact Ha.
Qed.

Lemma is_char_name : is_char NAME_ATTR.
Proof. unfold is_char, NAME_ATTR. lia. Qed.

Lemma is_char_nest : is_char NEST_ATTR.
Proof. unfold is_char, NEST_ATTR. lia. Qed.

(** The two ways [InsertEntry] returns from a well-formed table. *)
Lemma InsertEntry_inv : forall id s r s',
  table_inv s ->
  InsertEntry id s = Ret r s' ->
  (r = 0 /\ s' = reported REDECLARATION id 0 s) \/
  (r = st_top s + 1 /\
   table_inv s' /\
   nesting s' = nesting s /\
   st_top s' = st_top s + 1 /\
   stack_top s' = stack_top s + 1 /\
   stack s' (stack_top s + 1) = mkStackEntry false id r false false /\
   (forall j, j <> stack_top s + 1 -> stack s' j = stack s j) /\
   has_attr s' r NAME_ATTR id /\
   has_attr s' r NEST_ATTR (nesting s) /\
   (forall p k v, 0 <= p < ST_SIZE -> p <> r ->
                  has_attr s p k v -> has_attr s' p k v)).
Proof.
  intros id s r s' (Hpool & Hst & Hstk) H.
  unfold InsertEntry in H.
  apply bind_ret_inv in H. destruct H as (here & s0 & Hhere & H).
  pose proof (LookUpHere_pure _ _ _ _ Hhere). subst s0.
  destruct (Z.eqb_spec here 0) as [E|E]; cbn [negb] in H.
  2:{ left. unfold bind in H. rewrite error_msg_continue in H.
      inversion H. split; reflexivity. }
  right. unfold bind at 1, get at 1 in H.
  destruct (Z.geb_spec (st_top s) (ST_SIZE - 1)) as [Hfull|Hroom].
  { unfold bind at 1 in H. rewrite error_msg_abort in H. discriminate. }
  unfold bind at 1, ret at 1 in H.
  unfold bind at 1, modify at 1 in H.
  unfold bind at 1, get at 1 in H. cbn [st_top set_st_top] in H.
  unfold bind at 1 in H. rewrite wr_st_ok in H by lia.
  change (set_st (upd (st (set_st_top (st_top s + 1) s)) (st_top s + 1) 0)
                 (set_st_top (st_top s + 1) s)) with (slot_taken s) in H.
  unfold bind at 1, get at 1 in H.
  change (nesting (slot_taken s)) with (nesting s) in H.
  destruct (slot_taken_pool s Hpool ltac:(lia)) as [Hp1 Hk1].
  apply bind_ret_inv in H. destruct H as ([] & s2 & Hs2 & H).
  destruct (SetAttr_pool _ _ _ _ _ Hp1 is_char_name Hs2)
    as (Hp2 & (F1 & F2 & F3 & F4 & F5 & F6) & Hn2 & Hk2).
  apply bind_ret_inv in H. destruct H as ([] & s3 & Hs3 & H).
  destruct (SetAttr_pool _ _ _ _ _ Hp2 is_char_nest Hs3)
    as (Hp3 & (G1 & G2 & G3 & G4 & G5 & G6) & Hn3 & Hk3).
  apply bind_ret_inv in H. destruct H as ([] & s4 & Hs4 & H).
  assert (T3 : stack_top s3 = stack_top s) by (rewrite G2, F2; reflexivity).
  apply Push_ret_inv in Hs4; [|lia]. destruct Hs4 as [-> Hroom4].
  unfold get in H. inversion H; subst r s'. clear H.
  assert (S3 : st_top s3 = st_top s + 1) by (rewrite G3, F3; reflexivity).
  assert (N3 : nesting s3 = nesting s) by (rewrite G4, F4; reflexivity).
  assert (K3 : stack s3 = stack s) by (rewrite G1, F1; reflexivity).
  unfold pushed. cbn [st_top set_stack set_stack_top stack_top nesting stack].
  rewrite S3, T3, N3, K3.
  split; [reflexivity|].
  split.
  { split; [|split].
    - apply (pool_inv_same s3); [reflexivity | reflexivity | reflexivity | exact Hp3].
    - cbn. lia.
    - cbn. lia. }
  split; [reflexivity|]. split; [reflexivity|]. split; [reflexivity|].
  split; [apply upd_same|].
  split; [intros j Hj; apply upd_other; assumption|].
  split.
  { apply (has_attr_same s3); [reflexivity | reflexivity | reflexivity |].
    apply Hk3; [lia | right; unfold NAME_ATTR, NEST_ATTR; lia | exact Hn2]. }
  split.
  { apply (has_attr_same s3); [reflexivity | reflexivity | reflexivity |]. exact Hn3. }
  intros p k v Hp Hne Ha.
  apply (has_attr_same s3); [reflexivity | reflexivity | reflexivity |].
  apply Hk3; [assumption | left; assumption|].
  apply Hk2; [assumption | left; assumption|].
  apply Hk1; assumption.
Qed.

Lemma same_binding_refl : forall e, same_binding e e.
Proof. intros. repeat split; auto. Qed.

Lemma same_binding_trans : forall e1 e2 e3,
  same_binding e1 e2 -> same_binding e2 e3 -> same_binding e1 e3.
Proof.
  intros e1 e2 e3 (A1 & A2 & A3 & A4 & A5) (B1 & B2 & B3 & B4 & B5).
  repeat split; try congruence. auto.
Qed.

Lemma level_step_refl : forall s, table_inv s -> level_step s s.
Proof.
  intros s H. split; [assumption|]. split; [reflexivity|].
  split; [destruct H as (_ & _ & ?); lia|]. split; [lia|].
  split; [intros; apply same_binding_refl|].
  split; [intros j Hj; lia | auto].
Qed.

Lemma level_step_trans : forall s1 s2 s3,
  level_step s1 s2 -> level_step s2 s3 -> level_step s1 s3.
Proof.
  intros s1 s2 s3 (A0 & A1 & A2 & A3 & A4 & A5 & A6)
                  (B0 & B1 & B2 & B3 & B4 & B5 & B6).
  split; [assumption|]. split; [congruence|].
  split; [lia|]. split; [lia|].
  split; [|split].
  - intros j Hj. eapply same_binding_trans; [apply A4 | apply B4]; lia.
  - intros j Hj. destruct (Z_le_gt_dec j (stack_top s2)) as [Hle|Hgt].
    + destruct (A5 j) as [Hm Hd]; [lia|].
      destruct (B4 j) as (C1 & C2 & C3 & C4 & C5); [lia|].
      split; [congruence|]. intros Hdm. rewrite C4 in Hdm.
      destruct (Hd Hdm) as [Hr Ha]. rewrite C3.
      split; [lia|]. apply B6; [lia | assumption].
    + destruct (B5 j) as [Hm Hd]; [lia|]. split; [assumption|].
      intros Hdm. rewrite <- A1. apply Hd. assumption.
  - intros p v Hp Ha. apply B6; [lia|]. apply A6; assumption.
Qed.

Lemma table_inv_same : forall s s',
  st s' = st s -> attrarray s' = attrarray s -> attr_top s' = attr_top s ->
  st_top s' = st_top s -> 0 <= stack_top s' < STACK_SIZE ->
  table_inv s -> table_inv s'.
Proof.
  intros s s' E1 E2 E3 E4 Hs (Hp & Hst & _).
  split; [eapply pool_inv_same; eassumption|].
  split; [rewrite E4; assumption | assumption].
Qed.

Lemma level_step_same : forall s s',
  table_inv s ->
  st s' = st s -> attrarray s' = attrarray s -> attr_top s' = attr_top s ->
  st_top s' = st_top s -> stack_top s' = stack_top s ->
  nesting s' = nesting s ->
  (forall j, 1 <= j <= stack_top s -> same_binding (stack s j) (stack s' j)) ->
  level_step s s'.
Proof.
  intros s s' Hinv E1 E2 E3 E4 E5 E6 Hsame.
  pose proof Hinv as (Hp & Hst & Hstk).
  split; [eapply table_inv_same; try eassumption; rewrite E5; assumption|].
  split; [assumption|]. split; [lia|]. split; [lia|].
  split; [assumption|]. split; [intros j Hj; lia|].
  intros p v Hpr Ha. eapply has_attr_same; eassumption.
Qed.

Lemma run_list_level_step_from : forall body,
  Forall (fun o => forall s s',
            table_inv s -> op_ok o -> run_op o s = Ret tt s' ->
            level_step s s') body ->
  forall s s',
    table_inv s -> ops_ok body -> run_list body s = Ret tt s' ->
    level_step s s'.
Proof.
  induction body as [|o body IHb]; intros Hall s s' Hinv Hok Hrun.
  - inversion Hrun; subst. apply level_step_refl. assumption.
  - cbn [run_list] in Hrun. apply bind_ret_inv in Hrun.
    destruct Hrun as ([] & sm & Ho & Hrest).
    inversion Hall as [|? ? Po Pbody]; subst.
    destruct Hok as [Hok1 Hok2].
    pose proof (Po _ _ Hinv Hok1 Ho) as Hs1.
    eapply level_step_trans; [exact Hs1|].
    apply IHb; [assumption | apply Hs1 | assumption | assumption].
Qed.

(** Every call that returns is a step at its block level; a matched block
    is a step that pushes nothing. *)
Lemma run_op_level_step : forall o s s',
  table_inv s -> op_ok o -> run_op o s = Ret tt s' -> level_step s s'.
Proof.
  induction o as [id | id | sym k v | body IHbody] using op_nested_ind;
    intros s s' Hinv Hok Hrun.
  - (* InsertEntry *)
    cbn [run_op] in Hrun. apply bind_ret_inv in Hrun.
    destruct Hrun as (r & s1 & Hins & Hret). inversion Hret; subst s1.
    destruct (InsertEntry_inv _ _ _ _ Hinv Hins)
      as [[-> ->] | (-> & I1 & I2 & I3 & I4 & I5 & I6 & I7 & I8 & I9)].
    + apply level_step_same; try reflexivity; [assumption|].
      intros; apply same_binding_refl.
    + destruct Hinv as (Hp & Hst & Hstk).
      split; [assumption|]. split; [assumption|].
      split; [lia|]. split; [lia|].
      split; [|split].
      * intros j Hj. rewrite I6 by lia. apply same_binding_refl.
      * intros j Hj. assert (j = stack_top s + 1) as -> by lia.
        rewrite I5. cbn. split; [reflexivity|]. intros _.
        split; [lia | assumption].
      * intros p v Hpr Ha. apply I9; [destruct I1 as (_ & ? & _); lia | lia |].
        assumption.
  - (* LookUp *)
    cbn [run_op] in Hrun. apply bind_ret_inv in Hrun.
    destruct Hrun as (r & s1 & Hlk & Hret). inversion Hret; subst s1.
    destruct Hinv as (Hp & Hst & Hstk).
    destruct (LookUp_inv _ _ _ _ Hstk Hlk)
      as [(i & Hi & Hm & ->) | [-> Hroom]].
    + apply level_step_same; try reflexivity;
        [split; [|split]; assumption|].
      intros j Hj. cbn. unfold upd.
      destruct (Z.eqb_spec j i) as [->|];
        [repeat split; reflexivity | apply same_binding_refl].
    + split.
      { split; [|split].
        - apply (pool_inv_same s); [reflexivity | reflexivity | reflexivity |].
          assumption.
        - assumption.
        - cbn. lia. }
      split; [reflexivity|]. split; [cbn; lia|]. split; [cbn; lia|].
      split; [|split].
      * intros j Hj. cbn. rewrite upd_other by lia. apply same_binding_refl.
      * intros j Hj. cbn in Hj. assert (j = stack_top s + 1) as -> by lia.
        cbn. rewrite upd_same. cbn. split; [reflexivity | discriminate].
      * intros p v Hpr Ha.
        apply (has_attr_same s); [reflexivity | reflexivity | reflexivity |].
        assumption.
  - (* SetAttr *)
    cbn [run_op] in Hrun. destruct Hok as [Hk Hne].
    destruct Hinv as (Hp & Hst & Hstk).
    destruct (SetAttr_pool _ _ _ _ _ Hp Hk Hrun)
      as (Hp' & (F1 & F2 & F3 & F4 & F5 & F6) & _ & Hkeep).
    split; [split; [assumption | split; [rewrite F3 | rewrite F2]; assumption]|].
    split; [assumption|]. split; [lia|]. split; [lia|].
    split; [|split].
    + intros j Hj. rewrite F1. apply same_binding_refl.
    + intros j Hj. lia.
    + intros p v0 Hpr Ha. apply Hkeep; [lia | right; auto | assumption].
  - (* a matched block *)
    rewrite run_op_block in Hrun. rewrite op_ok_block in Hok.
    apply bind_ret_inv in Hrun. destruct Hrun as ([] & s1 & Hopen & Hrun).
    apply bind_ret_inv in Hrun. destruct Hrun as ([] & s2 & Hbody & Hclose).
    destruct Hinv as (Hp & Hst & Hstk).
    (* OpenBlock *)
    unfold OpenBlock, bind, modify in Hopen.
    apply Push_ret_inv in Hopen; [|cbn; lia].
    destruct Hopen as [-> Hroom]. cbn [stack_top set_nesting] in Hroom.
    set (s1 := pushed true 0 0 false (set_nesting (nesting s + 1) s)) in *.
    assert (Hinv1 : table_inv s1).
    { split; [|split].
      - apply (pool_inv_same s); [reflexivity | reflexivity | reflexivity |].
        assumption.
      - assumption.
      - cbn. lia. }
    (* the body *)
    assert (Hstep : level_step s1 s2)
      by (apply (run_list_level_step_from body IHbody); assumption).
    destruct Hstep as (B0 & B1 & B2 & B3 & B4 & B5 & B6).
    assert (Ht1 : stack_top s1 = stack_top s + 1) by reflexivity.
    assert (Hmk : stack s1 (stack_top s + 1) = mkStackEntry true 0 0 false false)
      by (cbn; apply upd_same).
    (* CloseBlock *)
    rewrite (CloseBlock_at s2 (stack_top s + 1)) in Hclose.
    2:{ split; [lia|]. split.
        - destruct (B4 (stack_top s + 1)) as (C1 & _); [lia|].
          rewrite C1, Hmk. reflexivity.
        - intros j Hj. apply B5. lia. }
    2:{ destruct B0 as (_ & _ & ?). lia. }
    inversion Hclose; subst s'. clear Hclose.
    replace (stack_top s + 1 - 1) with (stack_top s) by lia.
    split.
    { destruct B0 as (Q1 & Q2 & Q3). split; [|split].
      - apply (pool_inv_same s2); [reflexivity | reflexivity | reflexivity |].
        assumption.
      - assumption.
      - cbn. lia. }
    split; [cbn; rewrite B1; cbn; lia|].
    split; [cbn; lia|]. split; [cbn in B3 |- *; lia|].
    split; [|split].
    + intros j Hj. cbn [stack set_stack_top set_nesting].
      destruct (B4 j) as (C1 & C2 & C3 & C4 & C5); [lia|].
      assert (E : stack s1 j = stack s j) by (cbn; apply upd_other; lia).
      rewrite E in *. repeat split; assumption.
    + intros j Hj. cbn in Hj. lia.
    + intros p v Hpr Ha.
      apply (has_attr_same s2); [reflexivity | reflexivity | reflexivity |].
      apply B6; [cbn; lia|].
      apply (has_attr_same s); [reflexivity | reflexivity | reflexivity |].
      assumption.
Qed.

Lemma run_list_level_step : forall body s s',
  table_inv s -> ops_ok body -> run_list body s = Ret tt s' ->
  level_step s s'.
Proof.
  intros body. apply run_list_level_step_from.
  apply Forall_forall. intros o _. apply run_op_level_step.
Qed.

(** C6, as the code has it.  Take a well-formed table, open a block and run
    in it any calls of [InsertEntry], [LookUp], [SetAttr] (for kinds other
    than Nest) and nested matched blocks.  If the run returns, then every
    frame pushed in the block is no marker and, unless it is a dummy frame
    of a failed lookup, carries a symbol whose Nest is the depth of the
    block; no symbol of the table before has lost or changed its Nest; and
    [CloseBlock] returns with the stack top and the nesting depth of before
    [OpenBlock] and with every frame the same binding as before: marker,
    name, symbol and dummy flag are the same, and a [used] flag may only
    have been set by a lookup. *)
Theorem block_round_trip_up_to_used_flags :
  forall s body t,
    table_inv s ->
    ops_ok body ->
    (OpenBlock ;;; run_list body) s = Ret tt t ->
    (forall j, stack_top s + 1 < j <= stack_top t ->
       marker (stack t j) = false /\
       (dummy (stack t j) = false ->
        GetAttr (st_ptr (stack t j)) NEST_ATTR t = Ret (nesting s + 1) t)) /\
    (forall p v, 0 <= p <= st_top s ->
       has_attr s p NEST_ATTR v -> GetAttr p NEST_ATTR t = Ret v t) /\
    exists t',
      CloseBlock t = Ret tt t' /\
      stack_top t' = stack_top s /\
      nesting t' = nesting s /\
      (forall j, 1 <= j <= stack_top s ->
                 same_binding (stack s j) (stack t' j)).
Proof.
  intros s body t Hinv Hok Hrun.
  apply bind_ret_inv in Hrun. destruct Hrun as ([] & s1 & Hopen & Hbody).
  pose proof Hinv as (Hp & Hst & Hstk).
  unfold OpenBlock, bind, modify in Hopen.
  apply Push_ret_inv in Hopen; [|cbn; lia].
  destruct Hopen as [-> Hroom]. cbn [stack_top set_nesting] in Hroom.
  set (s1 := pushed true 0 0 false (set_nesting (nesting s + 1) s)) in *.
  assert (Hinv1 : table_inv s1).
  { split; [|split].
    - apply (pool_inv_same s); [reflexivity | reflexivity | reflexivity |].
      assumption.
    - assumption.
    - cbn. lia. }
  destruct (run_list_level_step body s1 t Hinv1 Hok Hbody)
    as (B0 & B1 & B2 & B3 & B4 & B5 & B6).
  pose proof B0 as ((Q1 & _) & Q2 & Q3).
  assert (Hmk : stack s1 (stack_top s + 1) = mkStackEntry true 0 0 false false)
    by (cbn; apply upd_same).
  split; [|split].
  - intros j Hj. destruct (B5 j) as [Hm Hd]; [cbn; lia|].
    split; [assumption|]. intros Hdm. destruct (Hd Hdm) as [Hr Ha].
    apply has_attr_get; [lia | lia | exact Ha].
  - intros p v Hpr Ha. apply has_attr_get; [lia | lia |].
    apply B6; [cbn; lia|].
    apply (has_attr_same s); [reflexivity | reflexivity | reflexivity |].
    assumption.
  - rewrite (CloseBlock_at t (stack_top s + 1)).
    2:{ split; [cbn in B2; lia|]. split.
        - destruct (B4 (stack_top s + 1)) as (C1 & _); [cbn; lia|].
          rewrite C1, Hmk. reflexivity.
        - intros j Hj. apply B5. cbn. lia. }
    2:{ lia. }
    eexists. split; [reflexivity|].
    split; [cbn; lia|]. split; [cbn; rewrite B1; cbn; lia|].
    intros j Hj. cbn [stack set_stack_top set_nesting].
    destruct (B4 j) as (C1 & C2 & C3 & C4 & C5); [cbn; lia|].
    assert (E : stack s1 j = stack s j) by (cbn; apply upd_other; lia).
    rewrite E in *. repeat split; assumption.
Qed.

Lemma init_table_inv : forall tbl line, table_inv (init_state tbl line).
Proof.
  intros. split; [|split]; cbn; unfold ST_SIZE, STACK_SIZE; try lia.
  split; [cbn; unfold ATTR_SIZE; lia|].
  exists (fun _ => []). split.
  - intros p Hp. split; [constructor | split; constructor].
  - intros p q c _ _ [].
Qed.

Lemma st_block_inv : table_inv st_block.
Proof.
  apply (table_inv_same (init_state [] 1)); try reflexivity.
  - change (stack_top st_block) with 1. unfold STACK_SIZE. lia.
  - apply init_table_inv.
Qed.

Lemma st_decl5_inv : table_inv st_decl5.
Proof.
  assert (H : InsertEntry 5 st_block = Ret 1 st_decl5)
    by (vm_compute; reflexivity).
  destruct (InsertEntry_inv _ _ _ _ st_block_inv H) as [[E _] | (_ & I & _)].
  - discriminate.
  - exact I.
Qed.

Lemma block_round_trip_up_to_used_flags_witness :
  (forall j, stack_top st_decl5 + 1 < j <= stack_top st_in_block ->
     marker (stack st_in_block j) = false /\
     (dummy (stack st_in_block j) = false ->
      GetAttr (st_ptr (stack st_in_block j)) NEST_ATTR st_in_block
        = Ret (nesting st_decl5 + 1) st_in_block)) /\
  (forall p v, 0 <= p <= st_top st_decl5 ->
     has_attr st_decl5 p NEST_ATTR v ->
     GetAttr p NEST_ATTR st_in_block = Ret v st_in_block) /\
  exists t',
    CloseBlock st_in_block = Ret tt t' /\
    stack_top t' = stack_top st_decl5 /\
    nesting t' = nesting st_decl5 /\
    (forall j, 1 <= j <= stack_top st_decl5 ->
               same_binding (stack st_decl5 j) (stack t' j)).
Proof.
  apply (block_round_trip_up_to_used_flags st_decl5 example_body st_in_block).
  - apply st_decl5_inv.
  - cbn. unfold is_char, KIND_ATTR, NEST_ATTR. repeat split; lia.
  - vm_compute. reflexivity.
Defined.

(** C6 as stated fails.  In [st_decl5] the frame of name 5 is not used.  A
    block that looks 5 up is opened and closed: the stack has its size of
    before, but the frame of 5 is now marked used, so the contents of the
    stack are not those of before the block. *)
Lemma block_with_lookup_changes_stack_contents :
  (OpenBlock ;;; LookUp 5 ;;; CloseBlock) st_decl5
    = Ret tt st_after_lookup_block /\
  stack_top st_after_lookup_block = stack_top st_decl5 /\
  nesting st_after_lookup_block = nesting st_decl5 /\
  used (stack st_decl5 2) = false /\
  used (stack st_after_lookup_block 2) = true /\
  stack st_after_lookup_block 2 <> stack st_decl5 2.
Proof.
  split; [vm_compute; reflexivity|].
  repeat split. vm_compute. discriminate.
Qed.

(** * Reading the tree *)

Lemma NodeKind_at : forall s p n,
  heap s p = Some n -> NodeKind p s = Ret (nodekind n) s.
Proof. intros s p n H. unfold NodeKind, bind, load. rewrite H. reflexivity. Qed.

Lemma IsNull_at : forall s p n,
  heap s p = Some n -> IsNull p s = Ret (nodekind n =? DUMMYNode) s.
Proof.
  intros s p n H. unfold IsNull, bind. rewrite (NodeKind_at _ _ _ H).
  reflexivity.
Qed.

Lemma LeftChild_expr : forall s p op l r,
  expr_node s p op l r -> LeftChild p s = Ret l s.
Proof.
  intros s p op l r [iv H]. unfold LeftChild, bind.
  rewrite (NodeKind_at _ _ _ H). cbn. unfold load. rewrite H. reflexivity.
Qed.

Lemma RightChild_expr : forall s p op l r,
  expr_node s p op l r -> RightChild p s = Ret r s.
Proof.
  intros s p op l r [iv H]. unfold RightChild, bind.
  rewrite (NodeKind_at _ _ _ H). cbn. unfold load. rewrite H. reflexivity.
Qed.

Lemma NodeOp_expr : forall s p op l r,
  expr_node s p op l r -> NodeOp p s = Ret op s.
Proof.
  intros s p op l r [iv H]. unfold NodeOp, bind.
  rewrite (NodeKind_at _ _ _ H). cbn. unfold load. rewrite H. reflexivity.
Qed.

Lemma IsNull_expr : forall s p op l r,
  expr_node s p op l r -> IsNull p s = Ret false s.
Proof. intros s p op l r [iv H]. rewrite (IsNull_at _ _ _ H). reflexivity. Qed.

Lemma kind_not_expr : forall k, k <> EXPRNode -> (k =? EXPRNode) = false.
Proof. intros. apply Z.eqb_neq. assumption. Qed.

Lemma LeftChild_leaf : forall s p kind v,
  leaf_node s p kind v -> LeftChild p s = Ret dummy_addr s.
Proof.
  intros s p kind v (Hk & op & l & r & H). unfold LeftChild, bind.
  rewrite (NodeKind_at _ _ _ H). cbn [nodekind].
  rewrite kind_not_expr by assumption. reflexivity.
Qed.

Lemma RightChild_leaf : forall s p kind v,
  leaf_node s p kind v -> RightChild p s = Ret dummy_addr s.
Proof.
  intros s p kind v (Hk & op & l & r & H). unfold RightChild, bind.
  rewrite (NodeKind_at _ _ _ H). cbn [nodekind].
  rewrite kind_not_expr by assumption. reflexivity.
Qed.

Lemma NodeOp_leaf : forall s p kind v,
  leaf_node s p kind v -> NodeOp p s = Ret 0 s.
Proof.
  intros s p kind v (Hk & op & l & r & H). unfold NodeOp, bind.
  rewrite (NodeKind_at _ _ _ H). cbn [nodekind].
  rewrite kind_not_expr by assumption. reflexivity.
Qed.

Lemma IntVal_leaf : forall s p kind v,
  leaf_node s p kind v -> IntVal p s = Ret v s.
Proof.
  intros s p kind v (Hk & op & l & r & H). unfold IntVal, bind.
  rewrite (NodeKind_at _ _ _ H). cbn [nodekind].
  rewrite kind_not_expr by assumption. unfold load. rewrite H. reflexivity.
Qed.

Lemma NodeKind_leaf : forall s p kind v,
  leaf_node s p kind v -> NodeKind p s = Ret kind s.
Proof.
  intros s p kind v (Hk & op & l & r & H).
  rewrite (NodeKind_at _ _ _ H). reflexivity.
Qed.

Lemma IsNull_leaf : forall s p kind v,
  leaf_node s p kind v -> IsNull p s = Ret (kind =? DUMMYNode) s.
Proof.
  intros s p kind v (Hk & op & l & r & H).
  rewrite (IsNull_at _ _ _ H). reflexivity.
Qed.

Lemma IsNull_null : forall s p, null_node s p -> IsNull p s = Ret true s.
Proof.
  intros s p (n & H & Hk). rewrite (IsNull_at _ _ _ H), Hk. reflexivity.
Qed.

Lemma loc_str_eq : forall str s,
  loc_str str s = Ret (loc_str_from (strg_tbl s) 0 str) s.
Proof. reflexivity. Qed.

(** * [MkST] on a tree without dispatched operators *)

Lemma dispatched_false : forall op,
  dispatched op = false ->
  (op =? ClassDefOp) = false /\ (op =? MethodOp) = false /\
  (op =? DeclOp) = false /\ (op =? SpecOp) = false /\
  (op =? TypeIdOp) = false /\ (op =? VarOp) = false /\
  (op =? RoutineCallOp) = false.
Proof.
  intros op H. unfold dispatched in H.
  repeat (apply orb_false_iff in H; destruct H as [H ?]).
  repeat split; assumption.
Qed.

Lemma MkST_S : forall fuel p,
  MkST (S fuel) p = MkST_body (MkST fuel) fuel p.
Proof. reflexivity. Qed.

Lemma MkST_null : forall s p n,
  null_node s p -> MkST (S n) p s = Ret tt s.
Proof.
  intros s p n H. rewrite MkST_S. unfold MkST_body, bind.
  rewrite IsNull_null by assumption. reflexivity.
Qed.

Lemma MkST_plain : forall s p n,
  plain s p n -> MkST (S n) p s = Ret tt s.
Proof.
  intros s p n H. induction H as [p n Hnull | p kind v n Hleaf Hk Hdum
                                  | p op l r n Hexpr Hd Hl IHl Hr IHr].
  - apply MkST_null. assumption.
  - rewrite MkST_S. unfold MkST_body. unfold bind at 1.
    rewrite (IsNull_leaf _ _ _ _ Hleaf).
    destruct (Z.eqb_spec kind DUMMYNode); [contradiction|]. cbn [negb].
    unfold bind at 1. rewrite (NodeOp_leaf _ _ _ _ Hleaf).
    change (0 =? ClassDefOp) with false. change (0 =? MethodOp) with false.
    change (0 =? DeclOp) with false. change (0 =? SpecOp) with false.
    change (0 =? TypeIdOp) with false. change (0 =? VarOp) with false.
    change (0 =? RoutineCallOp) with false. cbv iota.
    unfold bind at 1. rewrite (LeftChild_leaf _ _ _ _ Hleaf).
    unfold bind at 1. rewrite MkST_null by assumption.
    unfold bind at 1. rewrite (RightChild_leaf _ _ _ _ Hleaf).
    apply MkST_null. assumption.
  - rewrite MkST_S. unfold MkST_body. unfold bind at 1.
    rewrite (IsNull_expr _ _ _ _ _ Hexpr). cbn [negb].
    unfold bind at 1. rewrite (NodeOp_expr _ _ _ _ _ Hexpr).
    destruct (dispatched_false op Hd) as (D1 & D2 & D3 & D4 & D5 & D6 & D7).
    rewrite D1, D2, D3, D4, D5, D6, D7.
    unfold bind at 1. rewrite (LeftChild_expr _ _ _ _ _ Hexpr).
    unfold bind at 1. rewrite IHl.
    unfold bind at 1. rewrite (RightChild_expr _ _ _ _ _ Hexpr).
    apply IHr.
Qed.

Lemma plain_mono : forall s p n, plain s p n -> plain s p (S n).
Proof.
  intros s p n H. induction H.
  - apply plain_null. assumption.
  - eapply plain_leaf; eassumption.
  - eapply plain_op; eassumption.
Qed.




(** * The check of [methodop] for a second [main] *)

Lemma has_attr_find : forall s p k v l,
  chain s (st s p) l -> attrs_ok s l -> has_attr s p k v ->
  find_cell s k l <> 0 /\ attr_val (attrarray s (find_cell s k l)) = v.
Proof.
  intros s p k v l Hch Hok (l' & Hch' & Hok' & Ha).
  pose proof (chain_unique _ _ _ _ Hch' Hch). subst l'.
  assert (Hin : In k (kinds s l))
    by (rewrite <- alist_kinds; eapply assoc_in; eassumption).
  destruct (find_cell_present s k l (proj1 Hok) Hin) as [Hc _].
  pose proof (seg_in_range _ _ _ _ _ Hch Hc) as Hr.
  rewrite (find_cell_val s k l (proj1 Hok) Hin) in Ha. inversion Ha.
  split; [lia | reflexivity].
Qed.

Lemma main_scan_finds : forall n j s nm i,
  0 <= j <= i -> (Z.to_nat (i - j) < n)%nat ->
  i < ST_SIZE ->
  attr_top s < ATTR_SIZE ->
  (forall p, j <= p <= i -> slot_ok s p) ->
  has_attr s i NAME_ATTR nm ->
  main_scan n j nm s = Ret true (reported REDECLARATION nm 0 s).
Proof.
  induction n as [|n IH]; intros j s nm i Hj Hn Hi Htop Hslots Hattr; [lia|].
  cbn [main_scan].
  destruct (Hslots j ltac:(lia)) as (l & Hch & Hok).
  unfold bind at 1. rewrite (IsAttr_chain s j NAME_ATTR l) by (assumption || lia).
  destruct (Z.eqb_spec (find_cell s NAME_ATTR l) 0) as [E0|E0]; cbn [negb].
  - assert (Hne : j <> i).
    { intros ->. destruct (has_attr_find _ _ _ _ _ Hch Hok Hattr). contradiction. }
    apply (IH (j + 1) s nm i); try assumption; try lia.
    intros p Hp. apply Hslots. lia.
  - unfold bind at 1.
    rewrite (GetAttr_chain s j NAME_ATTR l) by (assumption || lia).
    destruct (Z.eqb_spec (find_cell s NAME_ATTR l) 0); [contradiction|].
    destruct (Z.eqb_spec (attr_val (attrarray s (find_cell s NAME_ATTR l))) nm)
      as [Ev|Ev].
    + unfold bind. rewrite error_msg_continue. reflexivity.
    + assert (Hne : j <> i).
      { intros ->. destruct (has_attr_find _ _ _ _ _ Hch Hok Hattr).
        contradiction. }
      apply (IH (j + 1) s nm i); try assumption; try lia.
      intros p Hp. apply Hslots. lia.
Qed.

(** C8.  When the method of a [MethodOp] node is named like the interned
    ["main"] and some entry of the table, in whatever scope it was
    declared, has that name as its Name attribute, [methodop] (and [MkST],
    which dispatches to it) reports the redeclaration, with the
    [REDECLARATION] message and not the [MULTI_MAIN] one, and returns: no
    symbol is entered, no frame is pushed, no block is opened and no node
    is replaced. *)
Theorem methodop_second_main_is_redeclaration :
  forall s node head leaf body spec nm i,
    expr_node s node MethodOp head body ->
    expr_node s head HeadOp leaf spec ->
    leaf_node s leaf IDNode nm ->
    nm = loc_str_from (strg_tbl s) 0 "main" ->
    0 <= i <= st_top s -> st_top s < ST_SIZE ->
    attr_top s < ATTR_SIZE ->
    (forall p, 0 <= p <= i -> slot_ok s p) ->
    has_attr s i NAME_ATTR nm ->
    (forall rec, methodop rec node s = Ret tt (reported REDECLARATION nm 0 s)) /\
    (forall fuel,
        MkST (S fuel) node s = Ret tt (reported REDECLARATION nm 0 s)) /\
    error_text REDECLARATION nm 0 =
      [OStr "symbol "; OName nm; OStr ": redeclared.\n"] /\
    st_top (reported REDECLARATION nm 0 s) = st_top s /\
    stack_top (reported REDECLARATION nm 0 s) = stack_top s /\
    stack (reported REDECLARATION nm 0 s) = stack s /\
    nesting (reported REDECLARATION nm 0 s) = nesting s /\
    heap (reported REDECLARATION nm 0 s) = heap s.
Proof.
  intros s node head leaf body spec nm i Hnode Hhead Hleaf Hnm Hi Hst Htop
         Hslots Hattr.
  assert (Hm : forall rec,
             methodop rec node s = Ret tt (reported REDECLARATION nm 0 s)).
  { intros rec. unfold methodop.
    unfold bind at 1. rewrite (LeftChild_expr _ _ _ _ _ Hnode).
    unfold bind at 1. rewrite (LeftChild_expr _ _ _ _ _ Hhead).
    unfold bind at 1. rewrite (IntVal_leaf _ _ _ _ Hleaf).
    unfold bind at 1. rewrite loc_str_eq. rewrite <- Hnm.
    rewrite Z.eqb_refl.
    unfold bind at 1. unfold bind at 1, get at 1.
    rewrite (main_scan_finds _ 0 s nm i); try assumption; try lia.
    reflexivity. }
  split; [exact Hm|]. split; [|repeat split].
  intros fuel. rewrite MkST_S. unfold MkST_body.
  unfold bind at 1. rewrite (IsNull_expr _ _ _ _ _ Hnode). cbn [negb].
  unfold bind at 1. rewrite (NodeOp_expr _ _ _ _ _ Hnode).
  change (MethodOp =? ClassDefOp) with false.
  change (MethodOp =? MethodOp) with true. cbv iota.
  apply Hm.
Qed.

(** A closed chain with its kinds. *)
Ltac slot_ok_by l ks :=
  exists l; split;
  [ unfold chain; repeat chain_step
  | unfold attrs_ok;
    match goal with
    | |- ascending (kinds ?s _) /\ _ => change (kinds s l) with ks
    end;
    split;
    [ repeat constructor
    | repeat (constructor; [unfold is_char; lia|]); constructor ] ].

Lemma methodop_second_main_is_redeclaration_witness :
  (forall rec, methodop rec 1009 st_one_main
               = Ret tt (reported REDECLARATION 4 0 st_one_main)) /\
  (forall fuel, MkST (S fuel) 1009 st_one_main
                = Ret tt (reported REDECLARATION 4 0 st_one_main)) /\
  error_text REDECLARATION 4 0 =
    [OStr "symbol "; OName 4; OStr ": redeclared.\n"] /\
  st_top (reported REDECLARATION 4 0 st_one_main) = st_top st_one_main /\
  stack_top (reported REDECLARATION 4 0 st_one_main) = stack_top st_one_main /\
  stack (reported REDECLARATION 4 0 st_one_main) = stack st_one_main /\
  nesting (reported REDECLARATION 4 0 st_one_main) = nesting st_one_main /\
  heap (reported REDECLARATION 4 0 st_one_main) = heap st_one_main.
Proof.
  apply (methodop_second_main_is_redeclaration
           st_one_main 1009 1008 1006 1 1007 4 2).
  - exists 0. reflexivity.
  - exists 0. reflexivity.
  - split; [discriminate|]. exists 0, 1, 1. reflexivity.
  - reflexivity.
  - change (st_top st_one_main) with 2. lia.
  - change (st_top st_one_main) with 2. unfold ST_SIZE. lia.
  - change (attr_top st_one_main) with 6. unfold ATTR_SIZE. lia.
  - intros p Hp.
    assert (p = 0 \/ p = 1 \/ p = 2) as [-> | [-> | ->]] by lia.
    + slot_ok_by (@nil Z) (@nil Z).
    + slot_ok_by [1; 2; 3] [1; 2; 5].
    + slot_ok_by [4; 5; 6] [1; 2; 5].
  - exists [4; 5; 6]. split; [unfold chain; repeat chain_step|].
    split; [|reflexivity].
    unfold attrs_ok. change (kinds st_one_main [4; 5; 6]) with [1; 2; 5].
    split; [repeat constructor
           | repeat (constructor; [unfold is_char; lia|]); constructor].
Defined.

(** * The steps shared by the handlers *)

Lemma LookUp_found : forall id s i,
  0 <= stack_top s < STACK_SIZE ->
  1 <= i <= stack_top s ->
  names (stack s i) id = true ->
  (forall j, i < j <= stack_top s -> names (stack s j) id = false) ->
  LookUp id s =
  Ret (st_ptr (stack s i))
      (set_stack (upd (stack s) i (mark_used (stack s i))) s).
Proof.
  intros id s i Htop Hi Hyes Hno. unfold LookUp, bind, get.
  rewrite (LookUp_loop_found _ id s i); try rewrite Z2Nat.id; try lia;
    try assumption.
  reflexivity.
Qed.

Lemma MakeLeaf_eq : forall k v t,
  MakeLeaf k v t = Ret (brk t) (allocated k v t).
Proof.
  intros. unfold MakeLeaf, malloc, NullExp, store, bind, get, modify, ret.
  cbn. rewrite upd_same. reflexivity.
Qed.

Lemma SetLeftChild_expr : forall t T c n,
  heap t T = Some n -> nodekind n = EXPRNode ->
  SetLeftChild T c t = Ret tt (left_set T c n t).
Proof.
  intros t T c n H Hk. unfold SetLeftChild, bind.
  rewrite (NodeKind_at _ _ _ H). rewrite Hk. cbn [negb Z.eqb EXPRNode Pos.eqb].
  unfold load. rewrite H. unfold store. rewrite H. reflexivity.
Qed.

Lemma resolved_heap : forall node f arr n s q,
  q <> node -> q <> brk s ->
  heap (resolved node f arr n s) q = heap s q.
Proof.
  intros. unfold resolved, left_set, allocated. cbn.
  rewrite !upd_other by assumption. reflexivity.
Qed.

Lemma resolved_node : forall node f arr n s,
  heap (resolved node f arr n s) node =
  Some (mkNode (nodekind n) (nodeoptype n) (intval n) (brk s) (rightc n)).
Proof.
  intros. unfold resolved, left_set, allocated. cbn.
  rewrite upd_same. reflexivity.
Qed.

Lemma live_not_fresh : forall s q n,
  fresh_block s -> heap s q = Some n -> q <> brk s.
Proof.
  intros s q n Hf H ->. unfold fresh_block in Hf. congruence.
Qed.

Lemma expr_node_same : forall t t' q op l r,
  heap t' q = heap t q -> expr_node t q op l r -> expr_node t' q op l r.
Proof. intros t t' q op l r E [iv H]. exists iv. congruence. Qed.

Lemma null_node_same : forall t t' q,
  heap t' q = heap t q -> null_node t q -> null_node t' q.
Proof. intros t t' q E (n & H & Hk). exists n. split; congruence. Qed.

Lemma IsNull_null_node : forall t q, null_node t q -> IsNull q t = Ret true t.
Proof.
  intros t q (n & H & Hk). rewrite (IsNull_at _ _ _ H), Hk. reflexivity.
Qed.

Lemma LeftChild_null_node : forall t q,
  null_node t q -> LeftChild q t = Ret dummy_addr t.
Proof.
  intros t q (n & H & Hk). unfold LeftChild, bind.
  rewrite (NodeKind_at _ _ _ H), Hk. reflexivity.
Qed.

(** The index loop on the operand of an [IndexOp]. *)
Lemma operand_step :
  forall (A : Type) rec nodes arr nm e x o t t' (K : M A),
    expr_node t x IndexOp e o ->
    analysed rec nodes arr nm e t t' ->
    bind (LeftChild x)
         (fun e0 => bind (NodeKind e0)
            (fun k => bind (if k =? EXPRNode
                            then bind (LeftChild x) (fun e' => rec e')
                            else ret tt)
                           (fun _ => K))) t = K t'.
Proof.
  intros A rec nodes arr nm e x o t t' K Hx (n & He & Hcase).
  unfold bind at 1. rewrite (LeftChild_expr _ _ _ _ _ Hx).
  unfold bind at 1. rewrite (NodeKind_at _ _ _ He).
  destruct Hcase as [[Hk ->] | (Hk & Hrec & _)].
  - rewrite kind_not_expr by assumption. reflexivity.
  - rewrite Hk. cbn [Z.eqb EXPRNode Pos.eqb].
    unfold bind at 1. unfold bind at 1.
    rewrite (LeftChild_expr _ _ _ _ _ Hx). rewrite Hrec. reflexivity.
Qed.

Lemma analysed_keeps : forall rec nodes arr nm e t t',
  attr_top t < ATTR_SIZE -> has_attr t arr NAME_ATTR nm ->
  analysed rec nodes arr nm e t t' -> keeps nodes arr nm t t'.
Proof.
  intros rec nodes arr nm e t t' Htop Hnm (n & _ & [[_ ->] | (_ & _ & H)]).
  - repeat split; assumption.
  - exact H.
Qed.

(** * Further properties of the symbol table *)

Lemma assoc_of_in : forall k l,
  In k (map fst l) -> exists v, assoc k l = Some v.
Proof.
  intros k l. induction l as [|[k' v'] l IH]; intros H.
  - destruct H.
  - cbn [assoc]. destruct (Z.eqb_spec k' k) as [E|E].
    + exists v'. reflexivity.
    + destruct H as [H|H]; [cbn in H; contradiction | exact (IH H)].
Qed.

(** X1.  [GetAttr] on a symbol whose chain is well formed.  When the chain
    holds the kind, the call returns the stored value and prints nothing.
    When the kind is missing, the call prints the debug line for the kind
    and returns 0, and nothing else changes. *)
Theorem GetAttr_missing_kind_prints_debug_line_and_returns_zero :
  forall s ptr k l,
    0 <= ptr < ST_SIZE ->
    attr_top s < ATTR_SIZE ->
    chain s (st s ptr) l ->
    attrs_ok s l ->
    (In k (kinds s l) ->
     exists v, assoc k (alist s l) = Some v /\ GetAttr ptr k s = Ret v s) /\
    (~ In k (kinds s l) ->
     GetAttr ptr k s =
     Ret 0 (set_out (out s ++ [OStr "DEBUG--The wanted attribute number ";
                               OInt k; OStr " does not exist\n"]) s)).
Proof.
  intros s ptr k l Hptr Htop Hch Hok. split; intros Hin.
  - rewrite <- alist_kinds in Hin. destruct (assoc_of_in _ _ Hin) as [v Hv].
    exists v. split; [exact Hv|].
    apply has_attr_get; [assumption | assumption |].
    exists l. repeat split; try assumption; apply Hok.
  - rewrite (GetAttr_chain s ptr k l) by assumption.
    rewrite find_cell_absent by assumption. reflexivity.
Qed.

Lemma GetAttr_missing_kind_prints_debug_line_and_returns_zero_witness :
  (exists v, assoc NAME_ATTR (alist st_decl5 [1; 2]) = Some v /\
             GetAttr 1 NAME_ATTR st_decl5 = Ret v st_decl5) /\
  GetAttr 1 KIND_ATTR st_decl5 =
  Ret 0 (set_out (out st_decl5 ++
                  [OStr "DEBUG--The wanted attribute number ";
                   OInt KIND_ATTR; OStr " does not exist\n"]) st_decl5).
Proof.
  assert (H : forall k,
    (In k (kinds st_decl5 [1; 2]) ->
     exists v, assoc k (alist st_decl5 [1; 2]) = Some v /\
               GetAttr 1 k st_decl5 = Ret v st_decl5) /\
    (~ In k (kinds st_decl5 [1; 2]) ->
     GetAttr 1 k st_decl5 =
     Ret 0 (set_out (out st_decl5 ++
                     [OStr "DEBUG--The wanted attribute number ";
                      OInt k; OStr " does not exist\n"]) st_decl5))).
  { intros k.
    apply (GetAttr_missing_kind_prints_debug_line_and_returns_zero
             st_decl5 1 k [1; 2]).
    - unfold ST_SIZE. lia.
    - change (attr_top st_decl5) with 2. unfold ATTR_SIZE. lia.
    - unfold chain. repeat chain_step.
    - unfold attrs_ok. change (kinds st_decl5 [1; 2]) with [1; 2]. split.
      + repeat constructor.
      + repeat (constructor; [unfold is_char; lia|]). constructor. }
  split.
  - apply (proj1 (H NAME_ATTR)).
    change (kinds st_decl5 [1; 2]) with [1; 2]. left. reflexivity.
  - apply (proj2 (H KIND_ATTR)).
    change (kinds st_decl5 [1; 2]) with [1; 2].
    intros [E | [E | []]]; discriminate.
Defined.

(** X2.  [IsAttr] on a symbol whose chain is well formed never changes the
    state.  It returns the cell of the chain that holds the kind, a cell in
    use and so not 0, when the chain holds the kind, and 0 when it does
    not. *)
Theorem IsAttr_returns_cell_of_kind_or_zero :
  forall s ptr k l,
    0 <= ptr < ST_SIZE ->
    attr_top s < ATTR_SIZE ->
    chain s (st s ptr) l ->
    attrs_ok s l ->
    exists c,
      IsAttr ptr k s = Ret c s /\
      (In k (kinds s l) ->
       In c l /\ 1 <= c <= attr_top s /\ attr_num (attrarray s c) = k) /\
      (~ In k (kinds s l) -> c = 0).
Proof.
  intros s ptr k l Hptr Htop Hch Hok. exists (find_cell s k l).
  split; [apply IsAttr_chain; assumption|]. split; intros Hin.
  - destruct (find_cell_present s k l (proj1 Hok) Hin) as [Hc Hk].
    split; [exact Hc|]. split; [|exact Hk].
    eapply seg_in_range; eassumption.
  - apply find_cell_absent. assumption.
Qed.

Lemma IsAttr_returns_cell_of_kind_or_zero_witness :
  IsAttr 1 NEST_ATTR st_decl5 = Ret 2 st_decl5 /\
  IsAttr 1 KIND_ATTR st_decl5 = Ret 0 st_decl5.
Proof.
  assert (H : forall k, exists c,
    IsAttr 1 k st_decl5 = Ret c st_decl5 /\
    (In k (kinds st_decl5 [1; 2]) ->
     In c [1; 2] /\ 1 <= c <= attr_top st_decl5 /\
     attr_num (attrarray st_decl5 c) = k) /\
    (~ In k (kinds st_decl5 [1; 2]) -> c = 0)).
  { intros k.
    apply (IsAttr_returns_cell_of_kind_or_zero st_decl5 1 k [1; 2]).
    - unfold ST_SIZE. lia.
    - change (attr_top st_decl5) with 2. unfold ATTR_SIZE. lia.
    - unfold chain. repeat chain_step.
    - unfold attrs_ok. change (kinds st_decl5 [1; 2]) with [1; 2]. split.
      + repeat constructor.
      + repeat (constructor; [unfold is_char; lia|]). constructor. }
  split.
  - destruct (H NEST_ATTR) as (c & E & Hin & _). rewrite E.
    destruct Hin as ([Hc | [Hc | []]] & _ & Hk).
    + change (kinds st_decl5 [1; 2]) with [1; 2]. right. left. reflexivity.
    + subst c. discriminate Hk.
    + subst c. reflexivity.
  - destruct (H KIND_ATTR) as (c & E & _ & Hout). rewrite E.
    rewrite Hout; [reflexivity|].
    change (kinds st_decl5 [1; 2]) with [1; 2].
    intros [Hk | [Hk | []]]; discriminate.
Defined.

(** X3.  The attribute pool holds 1999 cells, cell 0 being the end of every
    chain.  When all of them are in use, [SetAttr] still overwrites the
    value of a kind the chain holds, and nothing is printed; for a kind the
    chain does not hold it reports the overflow of the attribute array and
    the process exits with status 0, and no cell is written. *)
Theorem SetAttr_on_full_pool_overwrites_or_aborts :
  forall s ptr k v l,
    0 <= ptr < ST_SIZE ->
    attr_top s = ATTR_SIZE - 1 ->
    chain s (st s ptr) l ->
    attrs_ok s l ->
    ATTR_SIZE - 1 = 1999 /\
    (In k (kinds s l) ->
     SetAttr ptr k v s = Ret tt (overwritten (find_cell s k l) v s) /\
     out (overwritten (find_cell s k l) v s) = out s /\
     attr_top (overwritten (find_cell s k l) v s) = attr_top s) /\
    (~ In k (kinds s l) ->
     SetAttr ptr k v s = Exit 0 (reported ATTR_OVERFLOW 0 0 s) /\
     attrarray (reported ATTR_OVERFLOW 0 0 s) = attrarray s /\
     st (reported ATTR_OVERFLOW 0 0 s) = st s).
Proof.
  intros s ptr k v l Hptr Htop Hch Hok. split; [reflexivity|].
  split; intros Hin.
  - split; [|split; reflexivity].
    apply SetAttr_overwrite; try assumption. unfold ATTR_SIZE in *. lia.
  - split; [|split; reflexivity].
    apply (SetAttr_full s ptr k v l); try assumption.
    unfold ATTR_SIZE in *. lia.
Qed.

Lemma SetAttr_on_full_pool_overwrites_or_aborts_witness :
  SetAttr 1 NAME_ATTR 8 (set_attr_top 1999 st_decl5) =
  Ret tt (overwritten 1 8 (set_attr_top 1999 st_decl5)) /\
  SetAttr 1 KIND_ATTR VAR (set_attr_top 1999 st_decl5) =
  Exit 0 (reported ATTR_OVERFLOW 0 0 (set_attr_top 1999 st_decl5)).
Proof.
  assert (H : forall k v,
    ATTR_SIZE - 1 = 1999 /\
    (In k (kinds (set_attr_top 1999 st_decl5) [1; 2]) ->
     SetAttr 1 k v (set_attr_top 1999 st_decl5) =
     Ret tt (overwritten (find_cell (set_attr_top 1999 st_decl5) k [1; 2])
                         v (set_attr_top 1999 st_decl5)) /\
     out (overwritten (find_cell (set_attr_top 1999 st_decl5) k [1; 2])
                      v (set_attr_top 1999 st_decl5))
     = out (set_attr_top 1999 st_decl5) /\
     attr_top (overwritten (find_cell (set_attr_top 1999 st_decl5) k [1; 2])
                           v (set_attr_top 1999 st_decl5))
     = attr_top (set_attr_top 1999 st_decl5)) /\
    (~ In k (kinds (set_attr_top 1999 st_decl5) [1; 2]) ->
     SetAttr 1 k v (set_attr_top 1999 st_decl5) =
     Exit 0 (reported ATTR_OVERFLOW 0 0 (set_attr_top 1999 st_decl5)) /\
     attrarray (reported ATTR_OVERFLOW 0 0 (set_attr_top 1999 st_decl5))
     = attrarray (set_attr_top 1999 st_decl5) /\
     st (reported ATTR_OVERFLOW 0 0 (set_attr_top 1999 st_decl5))
     = st (set_attr_top 1999 st_decl5))).
  { intros k v.
    apply (SetAttr_on_full_pool_overwrites_or_aborts
             (set_attr_top 1999 st_decl5) 1 k v [1; 2]).
    - unfold ST_SIZE. lia.
    - reflexivity.
    - unfold chain. repeat chain_step.
    - unfold attrs_ok.
      change (kinds (set_attr_top 1999 st_decl5) [1; 2]) with [1; 2]. split.
      + repeat constructor.
      + repeat (constructor; [unfold is_char; lia|]). constructor. }
  split.
  - destruct (H NAME_ATTR 8) as (_ & Hin & _).
    apply Hin.
    change (kinds (set_attr_top 1999 st_decl5) [1; 2]) with [1; 2].
    left. reflexivity.
  - destruct (H KIND_ATTR VAR) as (_ & _ & Hout).
    apply Hout.
    change (kinds (set_attr_top 1999 st_decl5) [1; 2]) with [1; 2].
    intros [Hk | [Hk | []]]; discriminate.
Defined.

(** X4.  [SetAttr] keeps the attribute store well formed.  For a symbol of
    a well-formed store with a free cell and a [char]-valued kind, the call
    returns; afterwards the store is well formed, the symbol has the
    attribute, every other attribute of every symbol is what it was, and the
    stack, the counters, the output and the trees are untouched. *)
Theorem SetAttr_keeps_store_and_other_attributes :
  forall s q k v,
    pool_inv s ->
    0 <= q < ST_SIZE ->
    is_char k ->
    attr_top s < ATTR_SIZE - 1 ->
    exists s',
      SetAttr q k v s = Ret tt s' /\
      pool_inv s' /\
      has_attr s' q k v /\
      (forall p k' v',
          0 <= p < ST_SIZE -> p <> q \/ k' <> k ->
          has_attr s p k' v' -> has_attr s' p k' v') /\
      stack s' = stack s /\ stack_top s' = stack_top s /\
      st_top s' = st_top s /\ nesting s' = nesting s /\
      out s' = out s /\ heap s' = heap s.
Proof.
  intros s q k v Hpool Hq Hk Hroom.
  pose proof Hpool as (Htop & cells & Hcells & _).
  destruct (Hcells q Hq) as [Hch Hok].
  destruct (SetAttr_chain s q k v (cells q) Hq Htop Hch Hok Hk
              (or_intror Hroom)) as (s' & l' & Hrun & _).
  exists s'. split; [exact Hrun|].
  destruct (SetAttr_pool s q k v s' Hpool Hk Hrun)
    as (I & (F1 & F2 & F3 & F4 & F5 & F6) & Hset & Hother).
  split; [exact I|]. split; [exact Hset|]. split; [exact Hother|].
  repeat split; assumption.
Qed.

Lemma SetAttr_keeps_store_and_other_attributes_witness :
  exists s',
    SetAttr 1 KIND_ATTR VAR st_decl5 = Ret tt s' /\
    pool_inv s' /\
    has_attr s' 1 KIND_ATTR VAR /\
    (forall p k' v',
        0 <= p < ST_SIZE -> p <> 1 \/ k' <> KIND_ATTR ->
        has_attr st_decl5 p k' v' -> has_attr s' p k' v') /\
    stack s' = stack st_decl5 /\ stack_top s' = stack_top st_decl5 /\
    st_top s' = st_top st_decl5 /\ nesting s' = nesting st_decl5 /\
    out s' = out st_decl5 /\ heap s' = heap st_decl5.
Proof.
  apply (SetAttr_keeps_store_and_other_attributes st_decl5 1 KIND_ATTR VAR).
  - exact (proj1 st_decl5_inv).
  - unfold ST_SIZE. lia.
  - unfold is_char, KIND_ATTR. lia.
  - change (attr_top st_decl5) with 2. unfold ATTR_SIZE. lia.
Defined.

(** X5.  [OpenBlock] raises the nesting depth before it pushes the marker.
    With room on the stack it pushes a marker frame, prints nothing and
    leaves every other frame alone; on a stack whose top is 99 the push
    reports the stack overflow and the process exits with status 0, the
    depth already raised. *)
Theorem OpenBlock_pushes_marker_or_aborts_on_full_stack :
  forall s,
    0 <= stack_top s ->
    STACK_SIZE - 1 = 99 /\
    (stack_top s < 99 ->
     exists s',
       OpenBlock s = Ret tt s' /\
       nesting s' = nesting s + 1 /\
       stack_top s' = stack_top s + 1 /\
       stack s' (stack_top s') = mkStackEntry true 0 0 false false /\
       (forall j, j <> stack_top s + 1 -> stack s' j = stack s j) /\
       out s' = out s /\ st_top s' = st_top s) /\
    (99 <= stack_top s ->
     OpenBlock s =
     Exit 0 (reported STACK_OVERFLOW 0 0 (set_nesting (nesting s + 1) s))).
Proof.
  intros s Htop. split; [reflexivity|]. split; intros H.
  - exists (pushed true 0 0 false (set_nesting (nesting s + 1) s)).
    split; [|split; [|split; [|split; [|split; [|split]]]]];
      try reflexivity.
    + unfold OpenBlock, bind, modify. rewrite Push_room; [reflexivity|].
      cbn. unfold STACK_SIZE. lia.
    + cbn. apply upd_same.
    + intros j Hj. cbn. apply upd_other. exact Hj.
  - unfold OpenBlock, bind, modify. rewrite Push_full; [reflexivity|].
    cbn. unfold STACK_SIZE. lia.
Qed.

Lemma OpenBlock_pushes_marker_or_aborts_on_full_stack_witness :
  (exists s',
     OpenBlock st_decl5 = Ret tt s' /\
     nesting s' = nesting st_decl5 + 1 /\
     stack_top s' = stack_top st_decl5 + 1 /\
     stack s' (stack_top s') = mkStackEntry true 0 0 false false /\
     (forall j, j <> stack_top st_decl5 + 1 -> stack s' j = stack st_decl5 j) /\
     out s' = out st_decl5 /\ st_top s' = st_top st_decl5) /\
  OpenBlock st_full_stack =
  Exit 0 (reported STACK_OVERFLOW 0 0
            (set_nesting (nesting st_full_stack + 1) st_full_stack)).
Proof.
  split.
  - apply (OpenBlock_pushes_marker_or_aborts_on_full_stack st_decl5).
    + change (stack_top st_decl5) with 2. lia.
    + change (stack_top st_decl5) with 2. lia.
  - apply (OpenBlock_pushes_marker_or_aborts_on_full_stack st_full_stack).
    + change (stack_top st_full_stack) with 99. lia.
    + change (stack_top st_full_stack) with 99. lia.
Defined.

(** X6.  [LookUpHere] searches the current block only and changes nothing.
    With the nearest marker at index [b], it returns the symbol of the
    topmost frame above [b] that has the name and is not a dummy, and 0 when
    there is no such frame, whatever the frames below the marker hold. *)
Theorem LookUpHere_searches_current_block_only :
  forall s b id,
    scope_from s b ->
    stack_top s < STACK_SIZE ->
    (unbound_here s b id -> LookUpHere id s = Ret 0 s) /\
    (forall i,
        b < i <= stack_top s ->
        binds (stack s i) id = true ->
        (forall j, i < j <= stack_top s -> binds (stack s j) id = false) ->
        LookUpHere id s = Ret (st_ptr (stack s i)) s).
Proof.
  intros s b id Hsc Htop. split.
  - intros Hun. apply (LookUpHere_unbound s b); assumption.
  - intros i Hi Hb Hno. destruct Hsc as (Hb0 & Hm & Hnm).
    unfold LookUpHere, bind, get.
    replace (Z.to_nat (stack_top s + 1))
      with (Z.to_nat (i + 1) + Z.to_nat (stack_top s - i))%nat by lia.
    rewrite LookUpHere_loop_skip; rewrite ?Z2Nat.id by lia; try lia.
    + replace (stack_top s - (stack_top s - i)) with i by lia.
      replace (Z.to_nat (i + 1)) with (S (Z.to_nat i)) by lia.
      cbn [LookUpHere_loop]. unfold bind. rewrite rd_stack_ok by lia.
      rewrite Hnm by lia. unfold binds in Hb. rewrite Hb. reflexivity.
    + intros j Hj. split; [apply Hnm | apply Hno]; lia.
Qed.

Lemma LookUpHere_searches_current_block_only_witness :
  LookUpHere 5 st_in_block = Ret 0 st_in_block /\
  LookUpHere 9 st_in_block = Ret (st_ptr (stack st_in_block 4)) st_in_block.
Proof.
  assert (Hsc : scope_from st_in_block 3).
  { unfold scope_from. change (stack_top st_in_block) with 4.
    split; [lia|]. split; [reflexivity|].
    intros j Hj. assert (j = 4) as -> by lia. reflexivity. }
  assert (Htop : stack_top st_in_block < STACK_SIZE).
  { change (stack_top st_in_block) with 4. unfold STACK_SIZE. lia. }
  split.
  - apply (proj1 (LookUpHere_searches_current_block_only
                    st_in_block 3 5 Hsc Htop)).
    unfold unbound_here. change (stack_top st_in_block) with 4.
    intros j Hj. assert (j = 4) as -> by lia. reflexivity.
  - apply (proj2 (LookUpHere_searches_current_block_only
                    st_in_block 3 9 Hsc Htop) 4).
    + change (stack_top st_in_block) with 4. lia.
    + reflexivity.
    + change (stack_top st_in_block) with 4. intros j Hj. lia.
Defined.

Lemma LookUpHere_loop_runs_off : forall n id s,
  Z.of_nat n < STACK_SIZE ->
  (forall j, 0 <= j <= Z.of_nat n ->
             marker (stack s j) = false /\ binds (stack s j) id = false) ->
  LookUpHere_loop (S n) (Z.of_nat n) id s = Undef.
Proof.
  induction n as [|n IH]; intros id s Hn Hno.
  - cbn [LookUpHere_loop]. unfold bind. rewrite rd_stack_ok by (cbn; lia).
    destruct (Hno 0 ltac:(cbn; lia)) as [Hm Hb].
    cbn [Z.of_nat]. rewrite Hm. unfold binds in Hb. rewrite Hb. reflexivity.
  - remember (S n) as m. cbn [LookUpHere_loop]. unfold bind.
    rewrite rd_stack_ok by lia.
    destruct (Hno (Z.of_nat m) ltac:(lia)) as [Hm Hb].
    rewrite Hm. unfold binds in Hb. rewrite Hb. subst m.
    replace (Z.of_nat (S n) - 1) with (Z.of_nat n) by lia.
    apply IH; [lia|]. intros j Hj. apply Hno. lia.
Qed.

Lemma CloseBlock_loop_runs_off : forall n s,
  Z.of_nat n < STACK_SIZE ->
  (forall j, 0 <= j <= Z.of_nat n -> marker (stack s j) = false) ->
  CloseBlock_loop (S n) (Z.of_nat n) s = Undef.
Proof.
  induction n as [|n IH]; intros s Hn Hno.
  - cbn [CloseBlock_loop]. unfold bind. rewrite rd_stack_ok by (cbn; lia).
    cbn [Z.of_nat]. rewrite (Hno 0) by (cbn; lia). reflexivity.
  - remember (S n) as m. cbn [CloseBlock_loop]. unfold bind.
    rewrite rd_stack_ok by lia.
    rewrite (Hno (Z.of_nat m)) by lia. subst m.
    replace (Z.of_nat (S n) - 1) with (Z.of_nat n) by lia.
    apply IH; [lia|]. intros j Hj. apply Hno. lia.
Qed.

(** X7.  The loops of [LookUpHere] and [CloseBlock] stop at a marker only.
    On a stack that holds no marker from its top down to index 0,
    [CloseBlock] reads [stack[-1]], outside the array, and so does
    [LookUpHere], and with it [InsertEntry], for a name that no frame
    binds: a block has to be open before a name is declared. *)
Theorem LookUpHere_and_CloseBlock_without_marker_leave_the_stack :
  forall s id,
    0 <= stack_top s < STACK_SIZE ->
    (forall j, 0 <= j <= stack_top s -> marker (stack s j) = false) ->
    CloseBlock s = Undef /\
    ((forall j, 0 <= j <= stack_top s -> binds (stack s j) id = false) ->
     LookUpHere id s = Undef /\ InsertEntry id s = Undef).
Proof.
  intros s id Htop Hnm.
  assert (E : Z.to_nat (stack_top s + 1) = S (Z.to_nat (stack_top s)))
    by lia.
  split.
  - unfold CloseBlock, bind, get. rewrite E.
    rewrite <- (Z2Nat.id (stack_top s)) at 2 by lia.
    rewrite CloseBlock_loop_runs_off; [reflexivity | lia |].
    intros j Hj. apply Hnm. lia.
  - intros Hnb.
    assert (H : LookUpHere id s = Undef).
    { unfold LookUpHere, bind, get. rewrite E.
      rewrite <- (Z2Nat.id (stack_top s)) at 2 by lia.
      rewrite LookUpHere_loop_runs_off; [reflexivity | lia |].
      intros j Hj. split; [apply Hnm | apply Hnb]; lia. }
    split; [exact H|]. unfold InsertEntry, bind. rewrite H. reflexivity.
Qed.

Lemma LookUpHere_and_CloseBlock_without_marker_leave_the_stack_witness :
  CloseBlock (init_state [] 1) = Undef /\
  LookUpHere 5 (init_state [] 1) = Undef /\
  InsertEntry 5 (init_state [] 1) = Undef.
Proof.
  destruct (LookUpHere_and_CloseBlock_without_marker_leave_the_stack
              (init_state [] 1) 5) as [H1 H2].
  - cbn. unfold STACK_SIZE. lia.
  - intros j Hj. reflexivity.
  - split; [exact H1|]. apply H2. intros j Hj. reflexivity.
Defined.

(** X8.  A name that was entered is found.  When [InsertEntry] enters a
    name that the current block does not bind (the table, the stack and the
    pool having room), the Name attribute of the new symbol reads back as
    the name, [LookUpHere] and [LookUp] for the name both return the new
    symbol, and the lookup has set the [used] flag of its frame. *)
Theorem InsertEntry_then_lookups_return_the_new_symbol :
  forall s b id,
    scope_from s b ->
    unbound_here s b id ->
    stack_top s < STACK_SIZE - 1 ->
    0 <= st_top s < ST_SIZE - 1 ->
    0 <= attr_top s < ATTR_SIZE - 2 ->
    exists s',
      (r <- InsertEntry id ;;
       n <- GetAttr r NAME_ATTR ;;
       h <- LookUpHere id ;;
       l <- LookUp id ;;
       ret (r, n, h, l)) s
      = Ret (st_top s + 1, id, st_top s + 1, st_top s + 1) s' /\
      stack_top s' = stack_top s + 1 /\
      stack s' (stack_top s') = mkStackEntry false id (st_top s + 1) false true /\
      (forall j, j <> stack_top s + 1 -> stack s' j = stack s j) /\
      st_top s' = st_top s + 1 /\
      out s' = out s.
Proof.
  intros s b id Hsc Hun Hstack Hst Hattr.
  pose proof Hsc as (Hb & _ & Hnm).
  destruct (entered_frame id s) as [Htopf Hbelow].
  destruct (entered_tops id s) as (T1 & T2 & T3 & T4 & T5 & T6).
  assert (Hbound : bound_here (entered id s) (stack_top s + 1) id).
  { unfold bound_here. rewrite T2. split; [lia|].
    split; [|split; [|split]].
    - intros j Hj. assert (j = stack_top s + 1) as -> by lia.
      rewrite Htopf. reflexivity.
    - rewrite Htopf. unfold binds. cbn. rewrite Z.eqb_refl. reflexivity.
    - intros j Hj. lia.
    - rewrite Htopf. cbn. lia. }
  eexists. split.
  - unfold bind at 1. rewrite (InsertEntry_fresh s b id) by assumption.
    unfold bind at 1. rewrite (proj1 (entered_get id s ltac:(lia) Hattr)).
    unfold bind at 1.
    rewrite (LookUpHere_bound _ _ _ Hbound) by (rewrite T2; lia).
    unfold bind at 1.
    rewrite (LookUp_found id (entered id s) (stack_top s + 1)).
    + rewrite Htopf. reflexivity.
    + rewrite T2. unfold STACK_SIZE in *. lia.
    + rewrite T2. lia.
    + rewrite Htopf. unfold names. cbn. rewrite Z.eqb_refl. reflexivity.
    + intros j Hj. rewrite T2 in Hj. lia.
  - cbn [stack_top set_stack stack st_top out]. rewrite T2, T1, T5.
    split; [reflexivity|]. split; [|split; [|split; reflexivity]].
    + rewrite upd_same. reflexivity.
    + intros j Hj. rewrite upd_other by assumption. apply Hbelow. assumption.
Qed.

Lemma InsertEntry_then_lookups_return_the_new_symbol_witness :
  exists s',
    (r <- InsertEntry 9 ;;
     n <- GetAttr r NAME_ATTR ;;
     h <- LookUpHere 9 ;;
     l <- LookUp 9 ;;
     ret (r, n, h, l)) st_decl5
    = Ret (st_top st_decl5 + 1, 9, st_top st_decl5 + 1, st_top st_decl5 + 1)
          s' /\
    stack_top s' = stack_top st_decl5 + 1 /\
    stack s' (stack_top s') =
      mkStackEntry false 9 (st_top st_decl5 + 1) false true /\
    (forall j, j <> stack_top st_decl5 + 1 -> stack s' j = stack st_decl5 j) /\
    st_top s' = st_top st_decl5 + 1 /\
    out s' = out st_decl5.
Proof.
  apply (InsertEntry_then_lookups_return_the_new_symbol st_decl5 1 9).
  - unfold scope_from. change (stack_top st_decl5) with 2.
    split; [lia|]. split; [reflexivity|].
    intros j Hj. assert (j = 2) as -> by lia. reflexivity.
  - unfold unbound_here. change (stack_top st_decl5) with 2.
    intros j Hj. assert (j = 2) as -> by lia. reflexivity.
  - change (stack_top st_decl5) with 2. unfold STACK_SIZE. lia.
  - change (st_top st_decl5) with 1. unfold ST_SIZE. lia.
  - change (attr_top st_decl5) with 2. unfold ATTR_SIZE. lia.
Defined.

(** X9.  A declaration in an inner block shadows the outer one until the
    block is closed.  In a state where [LookUp] finds the name in frame [i]
    with symbol [p], opening a block and entering the name again gives a
    new symbol, which the lookup inside the block returns; after
    [CloseBlock] the lookup returns [p] again.  The new symbol stays in the
    table, the stack and the nesting depth are back where they were, and
    nothing is printed. *)
Theorem inner_declaration_shadows_until_block_is_closed :
  forall s id i,
    0 <= stack_top s < STACK_SIZE - 2 ->
    0 <= st_top s < ST_SIZE - 1 ->
    0 <= attr_top s < ATTR_SIZE - 2 ->
    1 <= i <= stack_top s ->
    names (stack s i) id = true ->
    (forall j, i < j <= stack_top s -> names (stack s j) id = false) ->
    exists s',
      (OpenBlock ;;;
       r <- InsertEntry id ;;
       a <- LookUp id ;;
       CloseBlock ;;;
       b <- LookUp id ;;
       ret (r, a, b)) s
      = Ret (st_top s + 1, st_top s + 1, st_ptr (stack s i)) s' /\
      stack_top s' = stack_top s /\
      nesting s' = nesting s /\
      st_top s' = st_top s + 1 /\
      out s' = out s.
Proof.
  intros s id i Hstack Hst Hattr Hi Hnames Htopmost.
  set (s1 := pushed true 0 0 false (set_nesting (nesting s + 1) s)).
  assert (E1 : OpenBlock s = Ret tt s1).
  { unfold OpenBlock, bind, modify. rewrite Push_room; [reflexivity|].
    cbn. unfold STACK_SIZE in *. lia. }
  assert (Hsc1 : scope_from s1 (stack_top s + 1)).
  { unfold scope_from, s1. cbn. split; [lia|]. split.
    - rewrite upd_same. reflexivity.
    - intros j Hj. lia. }
  assert (Hun1 : unbound_here s1 (stack_top s + 1) id).
  { unfold unbound_here, s1. cbn. intros j Hj. lia. }
  assert (E2 : InsertEntry id s1 = Ret (st_top s + 1) (entered id s1)).
  { apply (InsertEntry_fresh s1 (stack_top s + 1) id Hsc1 Hun1);
      unfold s1; cbn; unfold STACK_SIZE, ST_SIZE, ATTR_SIZE in *; lia. }
  destruct (entered_frame id s1) as [Htopf Hbelow].
  destruct (entered_tops id s1) as (T1 & T2 & T3 & T4 & T5 & T6).
  change (stack_top s1) with (stack_top s + 1) in *.
  change (st_top s1) with (st_top s) in *.
  change (nesting s1) with (nesting s + 1) in *.
  change (out s1) with (out s) in *.
  replace (stack_top s + 1 + 1) with (stack_top s + 2) in * by lia.
  set (s2 := entered id s1) in *.
  set (s3 := set_stack (upd (stack s2) (stack_top s + 2)
                            (mark_used (stack s2 (stack_top s + 2)))) s2).
  assert (E3 : LookUp id s2 = Ret (st_top s + 1) s3).
  { rewrite (LookUp_found id s2 (stack_top s + 2)).
    - unfold s3. rewrite Htopf. reflexivity.
    - rewrite T2. unfold STACK_SIZE in *. lia.
    - rewrite T2. lia.
    - rewrite Htopf. unfold names. cbn. rewrite Z.eqb_refl. reflexivity.
    - intros j Hj. rewrite T2 in Hj. lia. }
  assert (Hlow : forall j, j <= stack_top s -> stack s3 j = stack s j).
  { intros j Hj. unfold s3. cbn [stack set_stack].
    rewrite upd_other by lia. rewrite Hbelow by lia.
    unfold s1. cbn. apply upd_other. lia. }
  assert (Hsc3 : scope_from s3 (stack_top s + 1)).
  { unfold scope_from. change (stack_top s3) with (stack_top s2).
    rewrite T2. split; [lia|]. split.
    - unfold s3. cbn [stack set_stack]. rewrite upd_other by lia.
      rewrite Hbelow by lia. unfold s1. cbn. rewrite upd_same. reflexivity.
    - intros j Hj. assert (j = stack_top s + 2) as -> by lia.
      unfold s3. cbn [stack set_stack]. rewrite upd_same, Htopf.
      reflexivity. }
  set (s4 := set_stack_top (stack_top s + 1 - 1)
                           (set_nesting (nesting s3 - 1) s3)).
  assert (E4 : CloseBlock s3 = Ret tt s4).
  { apply (CloseBlock_at s3 (stack_top s + 1) Hsc3).
    change (stack_top s3) with (stack_top s2). rewrite T2.
    unfold STACK_SIZE in *. lia. }
  assert (T4' : stack_top s4 = stack_top s) by (unfold s4; cbn; lia).
  assert (E5 : LookUp id s4 =
               Ret (st_ptr (stack s i))
                   (set_stack (upd (stack s4) i (mark_used (stack s4 i))) s4)).
  { change (stack s4) with (stack s3).
    rewrite <- (Hlow i) by lia.
    apply (LookUp_found id s4 i).
    - rewrite T4'. unfold STACK_SIZE in *. lia.
    - rewrite T4'. lia.
    - change (stack s4) with (stack s3). rewrite Hlow by lia. assumption.
    - intros j Hj. rewrite T4' in Hj. change (stack s4) with (stack s3).
      rewrite Hlow by lia. apply Htopmost. lia. }
  eexists. split.
  - unfold bind at 1. rewrite E1.
    unfold bind at 1. rewrite E2.
    unfold bind at 1. fold s2. rewrite E3.
    unfold bind at 1. rewrite E4.
    unfold bind at 1. rewrite E5. reflexivity.
  - cbn [stack_top set_stack nesting st_top out].
    split; [exact T4'|]. split; [|split].
    + change (nesting s4) with (nesting s2 - 1). rewrite T4. lia.
    + change (st_top s4) with (st_top s2). exact T1.
    + change (out s4) with (out s2). exact T5.
Qed.

Lemma inner_declaration_shadows_until_block_is_closed_witness :
  exists s',
    (OpenBlock ;;;
     r <- InsertEntry 5 ;;
     a <- LookUp 5 ;;
     CloseBlock ;;;
     b <- LookUp 5 ;;
     ret (r, a, b)) st_decl5
    = Ret (st_top st_decl5 + 1, st_top st_decl5 + 1,
           st_ptr (stack st_decl5 2)) s' /\
    stack_top s' = stack_top st_decl5 /\
    nesting s' = nesting st_decl5 /\
    st_top s' = st_top st_decl5 + 1 /\
    out s' = out st_decl5.
Proof.
  apply (inner_declaration_shadows_until_block_is_closed st_decl5 5 2).
  - change (stack_top st_decl5) with 2. unfold STACK_SIZE. lia.
  - change (st_top st_decl5) with 1. unfold ST_SIZE. lia.
  - change (attr_top st_decl5) with 2. unfold ATTR_SIZE. lia.
  - change (stack_top st_decl5) with 2. lia.
  - reflexivity.
  - change (stack_top st_decl5) with 2. intros j Hj. lia.
Defined.

(** * The tree routines of [tree.c] *)

Lemma allocated_heap_other : forall k v s q,
  q <> brk s -> heap (allocated k v s) q = heap s q.
Proof.
  intros. unfold allocated. cbn. rewrite !upd_other by assumption.
  reflexivity.
Qed.

Lemma allocated_heap_new : forall k v s,
  heap (allocated k v s) (brk s) = Some (mkNode k 0 v dummy_addr dummy_addr).
Proof. intros. unfold allocated. cbn. apply upd_same. Qed.

(** X10.  A leaf reads back as it was made.  [MakeLeaf(kind, v)] with a
    kind other than [EXPRNode] returns a new node, on which [NodeKind]
    gives the kind, [IntVal] the value, [LeftChild] and [RightChild] the
    node [dummy] and [NodeOp] 0; no other node changes and nothing is
    printed. *)
Theorem MakeLeaf_reads_back :
  forall kind v s,
    kind <> EXPRNode ->
    (p <- MakeLeaf kind v ;;
     k <- NodeKind p ;;
     n <- IntVal p ;;
     l <- LeftChild p ;;
     r <- RightChild p ;;
     o <- NodeOp p ;;
     ret (p, k, n, l, r, o)) s
    = Ret (brk s, kind, v, dummy_addr, dummy_addr, 0) (allocated kind v s) /\
    (forall q, q <> brk s -> heap (allocated kind v s) q = heap s q) /\
    out (allocated kind v s) = out s.
Proof.
  intros kind v s Hk.
  assert (L : leaf_node (allocated kind v s) (brk s) kind v).
  { split; [exact Hk|]. exists 0, dummy_addr, dummy_addr.
    apply allocated_heap_new. }
  split; [|split; [apply allocated_heap_other | reflexivity]].
  unfold bind at 1. rewrite MakeLeaf_eq.
  unfold bind at 1. rewrite (NodeKind_leaf _ _ _ _ L).
  unfold bind at 1. rewrite (IntVal_leaf _ _ _ _ L).
  unfold bind at 1. rewrite (LeftChild_leaf _ _ _ _ L).
  unfold bind at 1. rewrite (RightChild_leaf _ _ _ _ L).
  unfold bind at 1. rewrite (NodeOp_leaf _ _ _ _ L).
  reflexivity.
Qed.

Lemma MakeLeaf_reads_back_witness :
  (p <- MakeLeaf IDNode 7 ;;
   k <- NodeKind p ;;
   n <- IntVal p ;;
   l <- LeftChild p ;;
   r <- RightChild p ;;
   o <- NodeOp p ;;
   ret (p, k, n, l, r, o)) (init_state [] 1)
  = Ret (brk (init_state [] 1), IDNode, 7, dummy_addr, dummy_addr, 0)
        (allocated IDNode 7 (init_state [] 1)) /\
  (forall q, q <> brk (init_state [] 1) ->
             heap (allocated IDNode 7 (init_state [] 1)) q
             = heap (init_state [] 1) q) /\
  out (allocated IDNode 7 (init_state [] 1)) = out (init_state [] 1).
Proof.
  apply (MakeLeaf_reads_back IDNode 7 (init_state [] 1)). discriminate.
Defined.

(** X11.  An operator node reads back as it was made.  [MakeTree(op, l, r)]
    returns a new node that is not null, on which [NodeKind] gives
    [EXPRNode], [NodeOp] the operator, [LeftChild] and [RightChild] the two
    subtrees; [IntVal] on it prints its complaint and gives -1.  No other
    node changes. *)
Theorem MakeTree_reads_back :
  forall op l r s,
    exists s',
      (p <- MakeTree op l r ;;
       k <- NodeKind p ;;
       o <- NodeOp p ;;
       a <- LeftChild p ;;
       b <- RightChild p ;;
       z <- IsNull p ;;
       ret (p, k, o, a, b, z)) s
      = Ret (brk s, EXPRNode, op, l, r, false) s' /\
      (forall q, q <> brk s -> heap s' q = heap s q) /\
      out s' = out s /\
      IntVal (brk s) s' =
      Ret (-1) (set_out (out s' ++
                         [OStr "IntVal(): This node must be a leaf node!\n"])
                        s').
Proof.
  intros op l r s.
  set (s' := set_heap (upd (upd (heap s) (brk s) (Some (mkNode 0 0 0 0 0)))
                           (brk s) (Some (mkNode EXPRNode op 0 l r)))
                      (set_heap (upd (heap s) (brk s)
                                     (Some (mkNode 0 0 0 0 0)))
                                (set_brk (brk s + 1) s))).
  assert (E : MakeTree op l r s = Ret (brk s) s').
  { unfold MakeTree, malloc, store, bind, get, modify, ret. cbn.
    rewrite upd_same. reflexivity. }
  assert (N : expr_node s' (brk s) op l r).
  { exists 0. unfold s'. cbn. apply upd_same. }
  exists s'. split; [|split; [|split]].
  - unfold bind at 1. rewrite E.
    unfold bind at 1. destruct N as [iv N0].
    rewrite (NodeKind_at _ _ _ N0). cbn [nodekind].
    assert (N : expr_node s' (brk s) op l r) by (exists iv; exact N0).
    unfold bind at 1. rewrite (NodeOp_expr _ _ _ _ _ N).
    unfold bind at 1. rewrite (LeftChild_expr _ _ _ _ _ N).
    unfold bind at 1. rewrite (RightChild_expr _ _ _ _ _ N).
    unfold bind at 1. rewrite (IsNull_expr _ _ _ _ _ N).
    reflexivity.
  - intros q Hq. unfold s'. cbn. rewrite !upd_other by assumption.
    reflexivity.
  - reflexivity.
  - destruct N as [iv N0]. unfold IntVal, bind.
    rewrite (NodeKind_at _ _ _ N0). reflexivity.
Qed.

(** X12.  The accessors on a node of the other kind.  On a live node that
    is not an operator node, [LeftChild] and [RightChild] return the node
    [dummy] and [NodeOp] returns 0, whatever the fields of the node hold,
    and [IntVal] returns the value; on an operator node [IntVal] prints its
    complaint and returns -1.  None of them changes a node. *)
Theorem accessors_on_the_other_kind_of_node :
  forall s p n,
    heap s p = Some n ->
    (nodekind n <> EXPRNode ->
     LeftChild p s = Ret dummy_addr s /\
     RightChild p s = Ret dummy_addr s /\
     NodeOp p s = Ret 0 s /\
     IntVal p s = Ret (intval n) s) /\
    (nodekind n = EXPRNode ->
     LeftChild p s = Ret (leftc n) s /\
     RightChild p s = Ret (rightc n) s /\
     NodeOp p s = Ret (nodeoptype n) s /\
     IntVal p s =
     Ret (-1) (set_out (out s ++
                        [OStr "IntVal(): This node must be a leaf node!\n"])
                       s)).
Proof.
  intros s p n H. split; intros Hk.
  - assert (L : leaf_node s p (nodekind n) (intval n)).
    { split; [exact Hk|]. exists (nodeoptype n), (leftc n), (rightc n).
      rewrite H. destruct n; reflexivity. }
    split; [exact (LeftChild_leaf _ _ _ _ L)|].
    split; [exact (RightChild_leaf _ _ _ _ L)|].
    split; [exact (NodeOp_leaf _ _ _ _ L) | exact (IntVal_leaf _ _ _ _ L)].
  - assert (N : expr_node s p (nodeoptype n) (leftc n) (rightc n)).
    { exists (intval n). rewrite H. destruct n; cbn in *. subst.
      reflexivity. }
    split; [exact (LeftChild_expr _ _ _ _ _ N)|].
    split; [exact (RightChild_expr _ _ _ _ _ N)|].
    split; [exact (NodeOp_expr _ _ _ _ _ N)|].
    unfold IntVal, bind. rewrite (NodeKind_at _ _ _ H), Hk. reflexivity.
Qed.

Lemma accessors_on_the_other_kind_of_node_witness :
  (LeftChild 1000 st_sum = Ret dummy_addr st_sum /\
   RightChild 1000 st_sum = Ret dummy_addr st_sum /\
   NodeOp 1000 st_sum = Ret 0 st_sum /\
   IntVal 1000 st_sum = Ret 1 st_sum) /\
  (LeftChild 1002 st_sum = Ret 1000 st_sum /\
   RightChild 1002 st_sum = Ret 1001 st_sum /\
   NodeOp 1002 st_sum = Ret AddOp st_sum /\
   IntVal 1002 st_sum =
   Ret (-1) (set_out (out st_sum ++
                      [OStr "IntVal(): This node must be a leaf node!\n"])
                     st_sum)).
Proof.
  split.
  - apply (accessors_on_the_other_kind_of_node
             st_sum 1000 (mkNode NUMNode 0 1 dummy_addr dummy_addr)).
    + reflexivity.
    + discriminate.
  - apply (accessors_on_the_other_kind_of_node
             st_sum 1002 (mkNode EXPRNode AddOp 0 1000 1001)).
    + reflexivity.
    + reflexivity.
Defined.

Lemma SetRightChild_expr : forall t T c n,
  heap t T = Some n -> nodekind n = EXPRNode ->
  SetRightChild T c t = Ret tt (right_written T c n t).
Proof.
  intros t T c n H Hk. unfold SetRightChild, bind.
  rewrite (NodeKind_at _ _ _ H). rewrite Hk. cbn [negb Z.eqb EXPRNode Pos.eqb].
  unfold load. rewrite H. unfold store. rewrite H. reflexivity.
Qed.

(** X13.  [SetLeftChild] and [SetRightChild] act on operator nodes only.
    On an operator node they replace the one child: afterwards the
    accessor returns the new child, the other child and the operator are
    what they were, and no other node has changed.  On any other node they
    print their complaint and leave the heap as it is, so the new child is
    not attached. *)
Theorem SetLeftChild_and_SetRightChild_act_on_operator_nodes_only :
  forall s p n c,
    heap s p = Some n ->
    (nodekind n = EXPRNode ->
     (SetLeftChild p c ;;;
      a <- LeftChild p ;; b <- RightChild p ;; o <- NodeOp p ;;
      ret (a, b, o)) s
     = Ret (c, rightc n, nodeoptype n) (left_written p c n s) /\
     (SetRightChild p c ;;;
      a <- LeftChild p ;; b <- RightChild p ;; o <- NodeOp p ;;
      ret (a, b, o)) s
     = Ret (leftc n, c, nodeoptype n) (right_written p c n s) /\
     (forall q, q <> p ->
        heap (left_written p c n s) q = heap s q /\
        heap (right_written p c n s) q = heap s q)) /\
    (nodekind n <> EXPRNode ->
     SetLeftChild p c s =
     Ret tt (set_out (out s ++
               [OStr "SetLeftChild(): This node must be an EXPRNode!\n"]) s) /\
     SetRightChild p c s =
     Ret tt (set_out (out s ++
               [OStr "SetRightChild(): This node must be an EXPRNode!\n"]) s)).
Proof.
  intros s p n c H. split; intros Hk.
  - assert (NL : expr_node (left_written p c n s) p (nodeoptype n) c
                           (rightc n)).
    { exists (intval n). unfold left_written. cbn. rewrite upd_same, Hk.
      reflexivity. }
    assert (NR : expr_node (right_written p c n s) p (nodeoptype n)
                           (leftc n) c).
    { exists (intval n). unfold right_written. cbn. rewrite upd_same, Hk.
      reflexivity. }
    split; [|split].
    + unfold bind at 1.
      change (left_written p c n s) with (left_set p c n s) in *.
      rewrite (SetLeftChild_expr _ _ _ _ H Hk).
      unfold bind at 1. rewrite (LeftChild_expr _ _ _ _ _ NL).
      unfold bind at 1. rewrite (RightChild_expr _ _ _ _ _ NL).
      unfold bind at 1. rewrite (NodeOp_expr _ _ _ _ _ NL).
      reflexivity.
    + unfold bind at 1. rewrite (SetRightChild_expr _ _ _ _ H Hk).
      unfold bind at 1. rewrite (LeftChild_expr _ _ _ _ _ NR).
      unfold bind at 1. rewrite (RightChild_expr _ _ _ _ _ NR).
      unfold bind at 1. rewrite (NodeOp_expr _ _ _ _ _ NR).
      reflexivity.
    + intros q Hq. unfold left_written, right_written. cbn.
      rewrite !upd_other by assumption. split; reflexivity.
  - apply Z.eqb_neq in Hk. split.
    + unfold SetLeftChild, bind. rewrite (NodeKind_at _ _ _ H), Hk.
      reflexivity.
    + unfold SetRightChild, bind. rewrite (NodeKind_at _ _ _ H), Hk.
      reflexivity.
Qed.

Lemma SetLeftChild_and_SetRightChild_act_on_operator_nodes_only_witness :
  ((SetLeftChild 1002 1001 ;;;
    a <- LeftChild 1002 ;; b <- RightChild 1002 ;; o <- NodeOp 1002 ;;
    ret (a, b, o)) st_sum
   = Ret (1001, 1001, AddOp)
         (left_written 1002 1001 (mkNode EXPRNode AddOp 0 1000 1001) st_sum)) /\
  SetLeftChild 1000 1001 st_sum =
  Ret tt (set_out (out st_sum ++
            [OStr "SetLeftChild(): This node must be an EXPRNode!\n"]) st_sum).
Proof.
  split.
  - apply (SetLeftChild_and_SetRightChild_act_on_operator_nodes_only
             st_sum 1002 (mkNode EXPRNode AddOp 0 1000 1001) 1001).
    + reflexivity.
    + reflexivity.
  - apply (SetLeftChild_and_SetRightChild_act_on_operator_nodes_only
             st_sum 1000 (mkNode NUMNode 0 1 dummy_addr dummy_addr) 1001).
    + reflexivity.
    + discriminate.
Defined.

(** ** Spines *)

Lemma LeftChild_left_of : forall s p n,
  heap s p = Some n -> LeftChild p s = Ret (left_of n) s.
Proof.
  intros s p n H. unfold LeftChild, bind, left_of.
  rewrite (NodeKind_at _ _ _ H).
  destruct (nodekind n =? EXPRNode); cbn [negb].
  - unfold load. rewrite H. reflexivity.
  - reflexivity.
Qed.

Lemma RightChild_right_of : forall s p n,
  heap s p = Some n -> RightChild p s = Ret (right_of n) s.
Proof.
  intros s p n H. unfold RightChild, bind, right_of.
  rewrite (NodeKind_at _ _ _ H).
  destruct (nodekind n =? EXPRNode); cbn [negb].
  - unfold load. rewrite H. reflexivity.
  - reflexivity.
Qed.

Lemma IsNull_live : forall s p n,
  heap s p = Some n -> nodekind n <> DUMMYNode -> IsNull p s = Ret false s.
Proof.
  intros s p n H Hk. rewrite (IsNull_at _ _ _ H).
  apply Z.eqb_neq in Hk. rewrite Hk. reflexivity.
Qed.

Lemma spine_det : forall next s p l1,
  spine next s p l1 -> forall l2, spine next s p l2 -> l1 = l2.
Proof.
  intros next s p l1 H. induction H as [p Hn | p n l Hp Hk Hl IH];
    intros l2 H2.
  - inversion H2 as [|p' n' l' Hp' Hk' Hl']; subst; [reflexivity|].
    destruct Hn as (n & Hp & Hk). congruence.
  - inversion H2 as [p' Hn' | p' n' l' Hp' Hk' Hl']; subst.
    + destruct Hn' as (n' & Hp' & Hk'). congruence.
    + f_equal. apply IH. congruence.
Qed.

Lemma spine_suffix : forall next s l p m T,
  spine next s T (l ++ p :: m) -> spine next s p (p :: m).
Proof.
  intros next s l. induction l as [|a l IH]; intros p m T H.
  - cbn in H. inversion H; subst. assumption.
  - cbn in H. inversion H as [|p' n l' Hp Hk Hl]; subst.
    exact (IH _ _ _ Hl).
Qed.

Lemma spine_last_fresh : forall next s l p T,
  spine next s T (l ++ [p]) -> ~ In p l.
Proof.
  intros next s l. induction l as [|a l IH]; intros p T H Hin.
  - destruct Hin.
  - cbn in H. inversion H as [|p' n l' Hp Hk Hl]; subst.
    destruct Hin as [E | Hin].
    + subst a.
      pose proof (spine_suffix next s (p :: l) p [] p) as Hs.
      cbn in Hs. specialize (Hs H).
      pose proof (spine_det _ _ _ _ H _ Hs) as E.
      inversion E as [E']. destruct l; discriminate.
    + exact (IH _ _ Hl Hin).
Qed.

Lemma spine_frame : forall next s s' T l,
  spine next s T l ->
  forall l0,
    (forall q, In q l -> In q l0) ->
    (forall q, In q l0 -> heap s' q = heap s q) ->
    (forall q, ~ In q l0 -> null_node s q -> null_node s' q) ->
    spine next s' T l.
Proof.
  intros next s s' T l H.
  induction H as [p Hn | p n l Hp Hk Hl IH]; intros l0 Hsub Hin Hnull.
  - constructor. destruct (in_dec Z.eq_dec p l0) as [Hi | Hi].
    + destruct Hn as (n & Hp & Hk). exists n. split; [|exact Hk].
      rewrite Hin by assumption. exact Hp.
    + apply Hnull; assumption.
  - apply (spine_step next s' p n l).
    + rewrite Hin by (apply Hsub; left; reflexivity). exact Hp.
    + exact Hk.
    + apply (IH l0); try assumption.
      intros q Hq. apply Hsub. right. exact Hq.
Qed.

Lemma last_nonempty : forall (l : list tree) a d d',
  last (a :: l) d = last (a :: l) d'.
Proof.
  induction l as [|b l IH]; intros a d d'; [reflexivity|].
  change (last (b :: l) d = last (b :: l) d'). apply IH.
Qed.

Lemma LeftDepth_loop_spine : forall s p l,
  spine left_of s p l ->
  forall fuel r, (List.length l < fuel)%nat ->
  LeftDepth_loop fuel p r s = Ret (r + Z.of_nat (List.length l)) s.
Proof.
  intros s p l H. induction H as [p Hn | p n l Hp Hk Hl IH];
    intros fuel r Hf.
  - destruct fuel as [|fuel]; [cbn in Hf; lia|].
    cbn [LeftDepth_loop]. unfold bind. rewrite (IsNull_null _ _ Hn).
    cbn. rewrite Z.add_0_r. reflexivity.
  - destruct fuel as [|fuel]; [cbn in Hf; lia|].
    cbn [LeftDepth_loop]. unfold bind at 1.
    rewrite (IsNull_live _ _ _ Hp Hk).
    unfold bind at 1. rewrite (LeftChild_left_of _ _ _ Hp).
    rewrite IH by (cbn in Hf; lia).
    f_equal. cbn [List.length]. lia.
Qed.

(** X14.  [LeftDepth] counts the nodes of the left spine: the root and its
    left descendants down to the last node before a null node, a leaf
    included.  It changes nothing. *)
Theorem LeftDepth_counts_the_left_spine :
  forall s T l fuel,
    spine left_of s T l ->
    (List.length l < fuel)%nat ->
    LeftDepth fuel T s = Ret (Z.of_nat (List.length l)) s.
Proof.
  intros s T l fuel H Hf. unfold LeftDepth.
  rewrite (LeftDepth_loop_spine s T l H fuel 0 Hf). reflexivity.
Qed.

Lemma st_sum_dummy : null_node st_sum dummy_addr.
Proof. exists dummy_node. split; reflexivity. Qed.

Lemma st_sum_spine : spine left_of st_sum 1002 [1002; 1000].
Proof.
  apply (spine_step left_of st_sum 1002 (mkNode EXPRNode AddOp 0 1000 1001));
    [reflexivity | discriminate |].
  apply (spine_step left_of st_sum 1000
                    (mkNode NUMNode 0 1 dummy_addr dummy_addr));
    [reflexivity | discriminate |].
  constructor. exact st_sum_dummy.
Qed.

Lemma LeftDepth_counts_the_left_spine_witness :
  LeftDepth 3 1002 st_sum = Ret 2 st_sum.
Proof.
  apply (LeftDepth_counts_the_left_spine st_sum 1002 [1002; 1000] 3).
  - exact st_sum_spine.
  - cbn. lia.
Defined.

Lemma MkLeftC_loop_spine : forall s q l,
  spine left_of s q l ->
  forall fuel p0, (List.length l < fuel)%nat ->
  MkLeftC_loop fuel p0 q s = Ret (last l p0) s.
Proof.
  intros s q l H. induction H as [p Hn | p n l Hp Hk Hl IH];
    intros fuel p0 Hf.
  - destruct fuel as [|fuel]; [cbn in Hf; lia|].
    cbn [MkLeftC_loop]. unfold bind. rewrite (IsNull_null _ _ Hn).
    reflexivity.
  - destruct fuel as [|fuel]; [cbn in Hf; lia|].
    cbn [MkLeftC_loop]. unfold bind at 1.
    rewrite (IsNull_live _ _ _ Hp Hk).
    unfold bind at 1. rewrite (LeftChild_left_of _ _ _ Hp).
    rewrite IH by (cbn in Hf; lia).
    f_equal. destruct l as [|t l]; [reflexivity|].
    change (last (p :: t :: l) p0) with (last (t :: l) p0).
    apply last_nonempty.
Qed.

Lemma MkLeftC_spine : forall s T1 T2 l p n fuel,
  spine left_of s T2 (l ++ [p]) ->
  heap s p = Some n ->
  (List.length l < fuel)%nat ->
  MkLeftC fuel T1 T2 s = Ret T2 (left_written p T1 n s).
Proof.
  intros s T1 T2 l p n fuel H Hp Hf.
  remember (l ++ [p]) as m eqn:Em.
  destruct H as [q Hn | q n2 l' Hq Hk Hl].
  - destruct l; discriminate.
  - unfold MkLeftC.
    unfold bind at 1. rewrite (IsNull_live _ _ _ Hq Hk).
    unfold bind at 1. rewrite (LeftChild_left_of _ _ _ Hq).
    unfold bind at 1.
    assert (Hlen : (List.length l' < fuel)%nat).
    { assert (El : List.length (q :: l') = List.length (l ++ [p]))
        by (rewrite Em; reflexivity).
      rewrite length_app in El. cbn in El. unfold tree in *. lia. }
    rewrite (MkLeftC_loop_spine _ _ _ Hl fuel q Hlen).
    assert (Elast : last l' q = p).
    { transitivity (last (q :: l') q).
      - destruct l'; reflexivity.
      - rewrite Em. apply last_last. }
    rewrite Elast.
    unfold bind at 1. unfold load. rewrite Hp.
    unfold bind. unfold store. rewrite Hp. reflexivity.
Qed.

(** X15.  [MkLeftC(T1, T2)] hangs [T1] below the last node of the left
    spine of [T2].  For a null [T2] it returns [T1] and changes nothing.
    Otherwise it returns [T2], and the one change is that the left-child
    field of the last node of the spine, operator node or leaf, is [T1];
    the node [dummy] is never written. *)
Theorem MkLeftC_writes_the_last_node_of_the_left_spine :
  forall s T1 T2 fuel,
    (null_node s T2 -> MkLeftC fuel T1 T2 s = Ret T1 s) /\
    (forall l p n,
        spine left_of s T2 (l ++ [p]) ->
        heap s p = Some n ->
        (List.length l < fuel)%nat ->
        MkLeftC fuel T1 T2 s = Ret T2 (left_written p T1 n s) /\
        heap (left_written p T1 n s) p =
          Some (mkNode (nodekind n) (nodeoptype n) (intval n) T1 (rightc n)) /\
        (forall q, q <> p -> heap (left_written p T1 n s) q = heap s q) /\
        nodekind n <> DUMMYNode).
Proof.
  intros s T1 T2 fuel. split.
  - intros Hn. unfold MkLeftC, bind. rewrite (IsNull_null _ _ Hn).
    reflexivity.
  - intros l p n H Hp Hf. split; [|split; [|split]].
    + apply (MkLeftC_spine s T1 T2 l p n fuel); assumption.
    + unfold left_written. cbn. apply upd_same.
    + intros q Hq. unfold left_written. cbn. apply upd_other. exact Hq.
    + pose proof (spine_suffix left_of s l p [] T2 H) as Hs.
      inversion Hs as [|p' n' l' Hp' Hk' Hl']; subst. congruence.
Qed.

Lemma MkLeftC_writes_the_last_node_of_the_left_spine_witness :
  MkLeftC 3 1001 dummy_addr st_sum = Ret 1001 st_sum /\
  MkLeftC 3 1001 1002 st_sum =
  Ret 1002 (left_written 1000 1001
              (mkNode NUMNode 0 1 dummy_addr dummy_addr) st_sum).
Proof.
  split.
  - apply (MkLeftC_writes_the_last_node_of_the_left_spine
             st_sum 1001 dummy_addr 3).
    exact st_sum_dummy.
  - apply (proj2 (MkLeftC_writes_the_last_node_of_the_left_spine
                    st_sum 1001 1002 3) [1002] 1000
                 (mkNode NUMNode 0 1 dummy_addr dummy_addr)).
    + exact st_sum_spine.
    + reflexivity.
    + cbn. lia.
Defined.

Lemma LeftDepth_spine : forall s T l fuel,
  spine left_of s T l ->
  (List.length l < fuel)%nat ->
  LeftDepth fuel T s = Ret (Z.of_nat (List.length l)) s.
Proof.
  intros s T l fuel H Hf. unfold LeftDepth.
  rewrite (LeftDepth_loop_spine s T l H fuel 0 Hf). reflexivity.
Qed.

Lemma spine_graft : forall next s s' l p n n' l1 T,
  spine next s T (l ++ [p]) ->
  heap s p = Some n ->
  heap s' p = Some n' ->
  nodekind n' <> DUMMYNode ->
  (forall q, q <> p -> heap s' q = heap s q) ->
  spine next s' (next n') l1 ->
  spine next s' T (l ++ p :: l1).
Proof.
  intros next s s' l. induction l as [|a l IH];
    intros p n n' l1 T H Hp Hp' Hk' Hother Hl1.
  - cbn in *. inversion H; subst.
    apply (spine_step next s' p n' l1); assumption.
  - pose proof (spine_last_fresh next s (a :: l) p T H) as Hfresh.
    cbn in *. inversion H as [|p0 na l' Ha Hka Hl]; subst.
    apply (spine_step next s' a na (l ++ p :: l1)).
    + rewrite Hother; [exact Ha|]. intros E. apply Hfresh. left. exact E.
    + exact Hka.
    + apply (IH p n n' l1 (next na)); assumption.
Qed.

(** X16.  [MkLeftC] and [LeftDepth] together.  When the left spine of [T2]
    ends in an operator node and [T1] has a left spine that does not pass
    through that node, [LeftDepth] of the result is the sum of the two
    depths: this is how the parser's left-linked lists grow.  When the
    spine of [T2] ends in a leaf, [T1] goes into a field that [LeftChild]
    does not read, and the depth stays what it was. *)
Theorem MkLeftC_adds_left_depths :
  forall s T1 T2 l p n l1 fuel,
    spine left_of s T2 (l ++ [p]) ->
    heap s p = Some n ->
    spine left_of s T1 l1 ->
    ~ In p l1 ->
    (List.length l + List.length l1 + 1 < fuel)%nat ->
    (nodekind n = EXPRNode ->
     (MkLeftC fuel T1 T2 ;;; LeftDepth fuel T2) s =
     Ret (Z.of_nat (List.length l + 1 + List.length l1))
         (left_written p T1 n s)) /\
    (nodekind n <> EXPRNode ->
     (MkLeftC fuel T1 T2 ;;; LeftDepth fuel T2) s =
     Ret (Z.of_nat (List.length l + 1)) (left_written p T1 n s)).
Proof.
  intros s T1 T2 l p n l1 fuel H Hp H1 Hnot Hf.
  assert (Hk : nodekind n <> DUMMYNode).
  { pose proof (spine_suffix left_of s l p [] T2 H) as Hs.
    inversion Hs as [|p' n' l' Hp' Hk' Hl']; subst. congruence. }
  assert (Hrun : MkLeftC fuel T1 T2 s = Ret T2 (left_written p T1 n s)).
  { apply (MkLeftC_spine s T1 T2 l p n fuel); [assumption | assumption |].
    unfold tree in *. lia. }
  assert (Hother : forall q, q <> p ->
            heap (left_written p T1 n s) q = heap s q).
  { intros q Hq. unfold left_written. cbn. apply upd_other. exact Hq. }
  assert (Hnull : forall q, null_node s q ->
            null_node (left_written p T1 n s) q).
  { intros q (nq & Hq & Hkq). exists nq. split; [|exact Hkq].
    rewrite Hother; [exact Hq|]. intros ->. congruence. }
  split; intros Hkind; unfold bind at 1; rewrite Hrun.
  - assert (Hs' : spine left_of (left_written p T1 n s) T2 (l ++ p :: l1)).
    { apply (spine_graft left_of s (left_written p T1 n s) l p n
               (mkNode (nodekind n) (nodeoptype n) (intval n) T1 (rightc n))
               l1 T2); try assumption.
      - unfold left_written. cbn. apply upd_same.
      - unfold left_of. cbn [nodekind leftc]. rewrite Hkind.
        cbn [Z.eqb EXPRNode Pos.eqb].
        apply (spine_frame left_of s _ T1 l1 H1 l1); [auto | |].
        + intros q Hq. apply Hother. intros ->. contradiction.
        + intros q _ Hq. apply Hnull. exact Hq. }
    rewrite (LeftDepth_spine _ _ _ _ Hs').
    + f_equal. rewrite length_app. cbn [List.length]. f_equal. lia.
    + rewrite length_app. cbn [List.length]. unfold tree in *. lia.
  - assert (Hs' : spine left_of (left_written p T1 n s) T2 (l ++ [p])).
    { apply (spine_graft left_of s (left_written p T1 n s) l p n
               (mkNode (nodekind n) (nodeoptype n) (intval n) T1 (rightc n))
               [] T2); try assumption.
      - unfold left_written. cbn. apply upd_same.
      - unfold left_of. cbn [nodekind leftc].
        apply Z.eqb_neq in Hkind. rewrite Hkind.
        constructor. apply Hnull.
        pose proof (spine_suffix left_of s l p [] T2 H) as Hs.
        inversion Hs as [|p' n' l' Hp' Hk' Hl']; subst.
        assert (n' = n) by congruence. subst n'.
        unfold left_of in Hl'. rewrite Hkind in Hl'.
        inversion Hl'. assumption. }
    rewrite (LeftDepth_spine _ _ _ _ Hs').
    + f_equal. rewrite length_app. cbn [List.length]. f_equal.
    + rewrite length_app. cbn [List.length]. unfold tree in *. lia.
Qed.

Lemma st_list_dummy : null_node st_list dummy_addr.
Proof. exists dummy_node. split; reflexivity. Qed.

Lemma MkLeftC_adds_left_depths_witness :
  (MkLeftC 5 1001 1003 ;;; LeftDepth 5 1003) st_list =
  Ret 2 (left_written 1003 1001 (mkNode EXPRNode CommaOp 0 dummy_addr 1002)
                      st_list) /\
  (MkLeftC 5 1001 1002 ;;; LeftDepth 5 1002) st_sum =
  Ret 2 (left_written 1000 1001 (mkNode NUMNode 0 1 dummy_addr dummy_addr)
                      st_sum).
Proof.
  split.
  - apply (MkLeftC_adds_left_depths
             st_list 1001 1003 [] 1003
             (mkNode EXPRNode CommaOp 0 dummy_addr 1002) [1001] 5).
    + apply (spine_step left_of st_list 1003
               (mkNode EXPRNode CommaOp 0 dummy_addr 1002));
        [reflexivity | discriminate |].
      constructor. exact st_list_dummy.
    + reflexivity.
    + apply (spine_step left_of st_list 1001
               (mkNode EXPRNode CommaOp 0 dummy_addr 1000));
        [reflexivity | discriminate |].
      constructor. exact st_list_dummy.
    + intros [E | []]. discriminate.
    + cbn. lia.
    + reflexivity.
  - apply (MkLeftC_adds_left_depths
             st_sum 1001 1002 [1002] 1000
             (mkNode NUMNode 0 1 dummy_addr dummy_addr) [1001] 5).
    + exact st_sum_spine.
    + reflexivity.
    + apply (spine_step left_of st_sum 1001
               (mkNode NUMNode 0 2 dummy_addr dummy_addr));
        [reflexivity | discriminate |].
      constructor. exact st_sum_dummy.
    + intros [E | []]. discriminate.
    + cbn. lia.
    + discriminate.
Defined.

Lemma load_at : forall s p n, heap s p = Some n -> load p s = Ret n s.
Proof. intros s p n H. unfold load. rewrite H. reflexivity. Qed.

Lemma store_at : forall s p n m,
  heap s p = Some n ->
  store p m s = Ret tt (set_heap (upd (heap s) p (Some m)) s).
Proof. intros s p n m H. unfold store. rewrite H. reflexivity. Qed.

Ltac heap_simpl :=
  repeat (cbn [heap set_heap nodekind nodeoptype intval leftc rightc negb];
          rewrite ?upd_same).

Lemma SetNode_same : forall s T tn,
  heap s T = Some tn ->
  exists s',
    SetNode T T s = Ret tt s' /\
    heap s' T = Some (copied tn tn) /\
    (forall q, q <> T -> heap s' q = heap s q) /\
    out s' = out s.
Proof.
  intros s T tn HT. unfold copied.
  destruct (nodekind tn =? EXPRNode) eqn:Ek.
  - eexists. split.
    + unfold SetNode, NullExp, bind, load, store, ret.
      repeat (first [rewrite HT | rewrite Ek | progress heap_simpl]).
      reflexivity.
    + split; [|split].
      * heap_simpl. destruct tn; reflexivity.
      * intros q Hq. cbn [heap set_heap].
        rewrite !upd_other by assumption. reflexivity.
      * reflexivity.
  - eexists. split.
    + unfold SetNode, NullExp, bind, load, store, ret.
      repeat (first [rewrite HT | rewrite Ek | progress heap_simpl]).
      reflexivity.
    + split; [|split].
      * heap_simpl. reflexivity.
      * intros q Hq. cbn [heap set_heap].
        rewrite !upd_other by assumption. reflexivity.
      * reflexivity.
Qed.

Lemma SetNode_other : forall s T S tn sn,
  S <> T ->
  heap s T = Some tn ->
  heap s S = Some sn ->
  exists s',
    SetNode T S s = Ret tt s' /\
    heap s' T = Some (copied tn sn) /\
    (forall q, q <> T -> heap s' q = heap s q) /\
    out s' = out s.
Proof.
  intros s T S tn sn E HT HS. unfold copied.
  assert (U : forall (h : Z -> option ILTree) v, upd h T v S = h S)
    by (intros; apply upd_other; assumption).
  destruct (nodekind sn =? EXPRNode) eqn:Ek.
  - eexists. split.
    + unfold SetNode, NullExp, bind, load, store, ret.
      repeat (first [rewrite HT | rewrite HS | rewrite Ek | rewrite U
                    | progress heap_simpl]).
      reflexivity.
    + split; [|split].
      * heap_simpl. reflexivity.
      * intros q Hq. cbn [heap set_heap].
        rewrite !upd_other by assumption. reflexivity.
      * reflexivity.
  - eexists. split.
    + unfold SetNode, NullExp, bind, load, store, ret.
      repeat (first [rewrite HT | rewrite HS | rewrite Ek | rewrite U
                    | progress heap_simpl]).
      reflexivity.
    + split; [|split].
      * heap_simpl. reflexivity.
      * intros q Hq. cbn [heap set_heap].
        rewrite !upd_other by assumption. reflexivity.
      * reflexivity.
Qed.

Lemma SetNode_eq : forall s T S tn sn,
  heap s T = Some tn ->
  heap s S = Some sn ->
  exists s',
    SetNode T S s = Ret tt s' /\
    heap s' T = Some (copied tn sn) /\
    (forall q, q <> T -> heap s' q = heap s q) /\
    out s' = out s.
Proof.
  intros s T S tn sn HT HS. destruct (Z.eq_dec S T) as [E | E].
  - subst S. assert (sn = tn) by congruence. subst sn.
    apply SetNode_same. assumption.
  - apply SetNode_other; assumption.
Qed.

(** X17.  [SetNode(Target, Source)] makes the target read like the source.
    For live nodes, the same node included, the call returns; afterwards
    [NodeKind], [LeftChild] and [RightChild] return on the target what they
    returned on the source, and so does [IntVal] for a leaf and [NodeOp]
    for an operator node.  A leaf source gives the target the node [dummy]
    as children; no other node changes and nothing is printed. *)
Theorem SetNode_makes_target_read_like_source :
  forall s T S tn sn,
    heap s T = Some tn ->
    heap s S = Some sn ->
    exists s',
      SetNode T S s = Ret tt s' /\
      heap s' T = Some (copied tn sn) /\
      (forall q, q <> T -> heap s' q = heap s q) /\
      out s' = out s /\
      NodeKind T s' = Ret (nodekind sn) s' /\
      LeftChild T s' = Ret (left_of sn) s' /\
      RightChild T s' = Ret (right_of sn) s' /\
      (nodekind sn <> EXPRNode -> IntVal T s' = Ret (intval sn) s') /\
      (nodekind sn = EXPRNode -> NodeOp T s' = Ret (nodeoptype sn) s').
Proof.
  intros s T S tn sn HT HS.
  destruct (SetNode_eq s T S tn sn HT HS) as (s' & Hrun & HT' & Hother & Hout).
  exists s'. split; [exact Hrun|]. split; [exact HT'|].
  split; [exact Hother|]. split; [exact Hout|].
  assert (Ek : nodekind (copied tn sn) = nodekind sn).
  { unfold copied. destruct (nodekind sn =? EXPRNode); reflexivity. }
  split; [rewrite (NodeKind_at _ _ _ HT'), Ek; reflexivity|].
  split; [|split; [|split]].
  - rewrite (LeftChild_left_of _ _ _ HT'). f_equal.
    unfold left_of, copied.
    destruct (nodekind sn =? EXPRNode) eqn:E; cbn [nodekind leftc];
      rewrite E; reflexivity.
  - rewrite (RightChild_right_of _ _ _ HT'). f_equal.
    unfold right_of, copied.
    destruct (nodekind sn =? EXPRNode) eqn:E; cbn [nodekind rightc];
      rewrite E; reflexivity.
  - intros Hk. unfold IntVal, bind. rewrite (NodeKind_at _ _ _ HT'), Ek.
    rewrite kind_not_expr by assumption. unfold load. rewrite HT'.
    unfold copied. rewrite kind_not_expr by assumption. reflexivity.
  - intros Hk. unfold NodeOp, bind. rewrite (NodeKind_at _ _ _ HT'), Ek, Hk.
    cbn [negb Z.eqb EXPRNode Pos.eqb]. unfold load. rewrite HT'.
    unfold copied. rewrite Hk. reflexivity.
Qed.

Lemma SetNode_makes_target_read_like_source_witness :
  exists s',
    SetNode 1000 1002 st_sum = Ret tt s' /\
    heap s' 1000 =
      Some (copied (mkNode NUMNode 0 1 dummy_addr dummy_addr)
                   (mkNode EXPRNode AddOp 0 1000 1001)) /\
    (forall q, q <> 1000 -> heap s' q = heap st_sum q) /\
    out s' = out st_sum /\
    NodeKind 1000 s' = Ret EXPRNode s' /\
    LeftChild 1000 s' = Ret 1000 s' /\
    RightChild 1000 s' = Ret 1001 s' /\
    (EXPRNode <> EXPRNode -> IntVal 1000 s' = Ret 0 s') /\
    (EXPRNode = EXPRNode -> NodeOp 1000 s' = Ret AddOp s').
Proof.
  apply (SetNode_makes_target_read_like_source
           st_sum 1000 1002 (mkNode NUMNode 0 1 dummy_addr dummy_addr)
           (mkNode EXPRNode AddOp 0 1000 1001)).
  - reflexivity.
  - reflexivity.
Defined.

Lemma SetNodeOp_expr : forall s p n Op,
  heap s p = Some n -> nodekind n = EXPRNode ->
  SetNodeOp p Op s =
  Ret tt (set_heap (upd (heap s) p (Some (with_op Op n))) s).
Proof.
  intros s p n Op H Hk. unfold SetNodeOp, bind.
  rewrite (NodeKind_at _ _ _ H), Hk. cbn [negb Z.eqb EXPRNode Pos.eqb].
  unfold load. rewrite H. unfold store. rewrite H. reflexivity.
Qed.

Lemma SetNodeOp_other : forall s p n Op,
  heap s p = Some n -> nodekind n <> EXPRNode ->
  SetNodeOp p Op s =
  Ret tt (set_out (out s ++
            [OStr "SetNodeOp(): This node must be an EXPRNode!\n"]) s).
Proof.
  intros s p n Op H Hk. unfold SetNodeOp, bind.
  rewrite (NodeKind_at _ _ _ H). rewrite kind_not_expr by assumption.
  reflexivity.
Qed.

Lemma ops_set_at : forall l Op h q,
  ops_set l Op h q =
  match h q with
  | Some n => Some (if existsb (Z.eqb q) l then with_op Op n else n)
  | None => None
  end.
Proof.
  induction l as [|a l IH]; intros Op h q.
  - cbn. destruct (h q); reflexivity.
  - cbn [ops_set existsb]. rewrite IH. unfold upd.
    destruct (Z.eqb_spec q a) as [E | E].
    + subst a. cbn [orb]. destruct (h q) as [n|]; [|reflexivity].
      destruct (existsb (Z.eqb q) l); reflexivity.
    + cbn [orb]. reflexivity.
Qed.

Lemma spine_with_op : forall s p n Op T l,
  heap s p = Some n ->
  spine left_of s T l ->
  spine left_of (set_heap (upd (heap s) p (Some (with_op Op n))) s) T l.
Proof.
  intros s p n Op T l Hp H.
  induction H as [q Hn | q nq l Hq Hk Hl IH].
  - constructor. destruct Hn as (nq & Hq & Hk).
    destruct (Z.eq_dec q p) as [E | E].
    + subst q. exists (with_op Op n). cbn. rewrite upd_same.
      split; [reflexivity|]. cbn. congruence.
    + exists nq. cbn. rewrite upd_other by assumption. split; assumption.
  - destruct (Z.eq_dec q p) as [E | E].
    + subst q. assert (nq = n) by congruence. subst nq.
      apply (spine_step left_of _ p (with_op Op n) l).
      * cbn. apply upd_same.
      * exact Hk.
      * exact IH.
    + apply (spine_step left_of _ q nq l).
      * cbn. rewrite upd_other by assumption. exact Hq.
      * exact Hk.
      * exact IH.
Qed.

Lemma all_expr_with_op : forall s p n Op l,
  heap s p = Some n ->
  all_expr s l ->
  all_expr (set_heap (upd (heap s) p (Some (with_op Op n))) s) l.
Proof.
  intros s p n Op l Hp H. unfold all_expr in *.
  rewrite Forall_forall in *. intros q Hq.
  destruct (H q Hq) as (nq & Hnq & Hk).
  destruct (Z.eq_dec q p) as [E | E].
  - subst q. exists (with_op Op n). cbn. rewrite upd_same.
    split; [reflexivity|]. cbn. congruence.
  - exists nq. cbn. rewrite upd_other by assumption. split; assumption.
Qed.

Lemma SetLeftTreeOp_loop_spine : forall l s T Op fuel,
  spine left_of s T l ->
  l <> [] ->
  all_expr s l ->
  (List.length l <= fuel)%nat ->
  SetLeftTreeOp_loop fuel T Op s =
  Ret tt (set_heap (ops_set l Op (heap s)) s).
Proof.
  induction l as [|a l IH]; intros s T Op fuel H Hne Hall Hf;
    [contradiction|].
  inversion H as [|q n l' Hq Hk Hl]; subst.
  inversion Hall as [|q0 l0 (n0 & Hq0 & Hk0) Hall']; subst.
  assert (n0 = n) by congruence. subst n0.
  destruct fuel as [|fuel]; [cbn in Hf; lia|].
  cbn [SetLeftTreeOp_loop].
  unfold bind at 1. rewrite (SetNodeOp_expr _ _ _ _ Hq Hk0).
  set (s1 := set_heap (upd (heap s) a (Some (with_op Op n))) s).
  assert (Ha1 : heap s1 a = Some (with_op Op n))
    by (unfold s1; cbn; apply upd_same).
  unfold bind at 1. rewrite (LeftChild_left_of _ _ _ Ha1).
  assert (El : left_of (with_op Op n) = left_of n) by reflexivity.
  rewrite El.
  pose proof (spine_with_op s a n Op _ _ Hq Hl) as Hl1. fold s1 in Hl1.
  pose proof (all_expr_with_op s a n Op _ Hq Hall') as Hall1.
  fold s1 in Hall1.
  destruct l as [|b l].
  - inversion Hl1 as [p Hn |]; subst.
    unfold bind at 1. rewrite (IsNull_null _ _ Hn). cbn [negb].
    unfold s1. cbn [ops_set]. rewrite Hq. reflexivity.
  - inversion Hl1 as [| p nb l' Hb Hkb Hlb]; subst.
    unfold bind at 1. rewrite (IsNull_live _ _ _ Hb Hkb). cbn [negb].
    rewrite (IH s1 (left_of n) Op fuel Hl1); [| discriminate | exact Hall1
                                              | cbn in Hf; cbn; lia].
    unfold s1. cbn [ops_set heap set_heap]. rewrite Hq. reflexivity.
Qed.

(** X18.  [SetLeftTreeOp(T, Op)] sets the operator of the root and of the
    nodes below it along the left children.  When all nodes of the left
    spine are operator nodes, each of them has operator [Op] afterwards and
    keeps its kind, value and children, no other node changes and nothing
    is printed.  On a tree that is a leaf or null, [SetNodeOp] prints its
    complaint once and no node changes. *)
Theorem SetLeftTreeOp_sets_operators_along_the_left_spine :
  forall s T Op l fuel,
    spine left_of s T l ->
    (List.length l <= fuel)%nat ->
    (l <> [] -> all_expr s l ->
     SetLeftTreeOp fuel T Op s = Ret tt (set_heap (ops_set l Op (heap s)) s) /\
     (forall q n, In q l -> heap s q = Some n ->
                  ops_set l Op (heap s) q = Some (with_op Op n)) /\
     (forall q, ~ In q l -> ops_set l Op (heap s) q = heap s q)) /\
    (forall n, heap s T = Some n -> nodekind n <> EXPRNode ->
               null_node s dummy_addr ->
               SetLeftTreeOp (S fuel) T Op s =
               Ret tt (set_out (out s ++
                         [OStr "SetNodeOp(): This node must be an EXPRNode!\n"])
                         s)).
Proof.
  intros s T Op l fuel H Hf. split.
  - intros Hne Hall. split; [|split].
    + apply SetLeftTreeOp_loop_spine; assumption.
    + intros q n Hin Hq. rewrite ops_set_at, Hq.
      assert (E : existsb (Z.eqb q) l = true).
      { apply existsb_exists. exists q. split; [exact Hin | apply Z.eqb_refl]. }
      rewrite E. reflexivity.
    + intros q Hin. rewrite ops_set_at.
      assert (E : existsb (Z.eqb q) l = false).
      { apply not_true_is_false. intros E. apply existsb_exists in E.
        destruct E as (x & Hx & Ex). apply Z.eqb_eq in Ex. subst x.
        contradiction. }
      rewrite E. destruct (heap s q); reflexivity.
  - intros n Hn Hk Hd. unfold SetLeftTreeOp. cbn [SetLeftTreeOp_loop].
    unfold bind at 1. rewrite (SetNodeOp_other _ _ _ _ Hn Hk).
    set (s1 := set_out _ s).
    assert (Hn1 : heap s1 T = Some n) by exact Hn.
    unfold bind at 1. rewrite (LeftChild_left_of _ _ _ Hn1).
    unfold left_of. rewrite kind_not_expr by assumption.
    assert (Hd1 : null_node s1 dummy_addr) by exact Hd.
    unfold bind at 1. rewrite (IsNull_null _ _ Hd1). reflexivity.
Qed.

Lemma SetLeftTreeOp_sets_operators_along_the_left_spine_witness :
  SetLeftTreeOp 3 1003 ClassOp st_list =
  Ret tt (set_heap (ops_set [1003] ClassOp (heap st_list)) st_list) /\
  ops_set [1003] ClassOp (heap st_list) 1003 =
  Some (with_op ClassOp (mkNode EXPRNode CommaOp 0 dummy_addr 1002)) /\
  SetLeftTreeOp 3 1000 ClassOp st_list =
  Ret tt (set_out (out st_list ++
            [OStr "SetNodeOp(): This node must be an EXPRNode!\n"]) st_list).
Proof.
  assert (H1 : spine left_of st_list 1003 [1003]).
  { apply (spine_step left_of st_list 1003
             (mkNode EXPRNode CommaOp 0 dummy_addr 1002));
      [reflexivity | discriminate |].
    constructor. exact st_list_dummy. }
  assert (H2 : spine left_of st_list 1000 [1000]).
  { apply (spine_step left_of st_list 1000
             (mkNode NUMNode 0 1 dummy_addr dummy_addr));
      [reflexivity | discriminate |].
    constructor. exact st_list_dummy. }
  destruct (SetLeftTreeOp_sets_operators_along_the_left_spine
              st_list 1003 ClassOp [1003] 3 H1 ltac:(cbn; lia)) as [A _].
  destruct A as (A1 & A2 & _).
  { discriminate. }
  { constructor; [|constructor].
    exists (mkNode EXPRNode CommaOp 0 dummy_addr 1002).
    split; reflexivity. }
  destruct (SetLeftTreeOp_sets_operators_along_the_left_spine
              st_list 1000 ClassOp [1000] 2 H2 ltac:(cbn; lia)) as [_ B].
  split; [exact A1|]. split.
  - apply A2; [left; reflexivity | reflexivity].
  - apply (B (mkNode NUMNode 0 1 dummy_addr dummy_addr)).
    + reflexivity.
    + discriminate.
    + exact st_list_dummy.
Defined.

(** * [varop] on a 2-dimensional array of integers *)

Section VarOp_on_array.

(** The call [varop(node, declop)] in state [s]: the node is a [VarOp] over
    the name leaf [base] and the access chain [r1]; the topmost frame named
    like the base is [f] and carries the symbol [arr], an array of two
    dimensions named [nm] whose type node [ty] has the integer type as its
    left child. *)
Variable rec : tree -> M unit.
Variable s : State.
Variables node base r1 ty tleft tright : tree.
Variables bname f arr nm tv : Z.
Variable nn : ILTree.

Hypothesis Hnode : heap s node = Some nn.
Hypothesis Hnn : nodekind nn = EXPRNode /\ nodeoptype nn = VarOp /\
                 leftc nn = base /\ rightc nn = r1.
Hypothesis Hbase : leaf_node s base IDNode bname.
Hypothesis Hstack : 0 <= stack_top s < STACK_SIZE.
Hypothesis Hf : 1 <= f <= stack_top s.
Hypothesis Hnames : names (stack s f) bname = true.
Hypothesis Htopmost :
  forall j, f < j <= stack_top s -> names (stack s j) bname = false.
Hypothesis Harr : st_ptr (stack s f) = arr.
Hypothesis Harr_range : 1 <= arr < ST_SIZE.
Hypothesis Hpool : attr_top s < ATTR_SIZE.
Hypothesis Hkind : has_attr s arr KIND_ATTR ARR.
Hypothesis Hdimen : has_attr s arr DIMEN_ATTR 2.
Hypothesis Htype : has_attr s arr TYPE_ATTR ty.
Hypothesis Hname : has_attr s arr NAME_ATTR nm.
Hypothesis Hty : expr_node s ty TypeIdOp tleft tright.
Hypothesis Hint : leaf_node s tleft INTEGERTNode tv.
Hypothesis Hfresh : fresh_block s.

Let s1 : State := resolved node f arr nn s.

Lemma s1_heap : forall q n,
  q <> node -> heap s q = Some n -> heap s1 q = Some n.
Proof.
  intros q n Hq H. unfold s1. rewrite resolved_heap;
    [assumption | assumption | eapply live_not_fresh; eassumption].
Qed.

Lemma s1_expr : forall q op l r,
  op <> VarOp -> expr_node s q op l r -> expr_node s1 q op l r.
Proof.
  intros q op l r Hop [iv H]. exists iv. apply s1_heap; [|assumption].
  intros ->. rewrite Hnode in H. inversion H. subst nn.
  destruct Hnn as (_ & E & _). cbn in E. contradiction.
Qed.

Lemma s1_leaf : forall q k v, leaf_node s q k v -> leaf_node s1 q k v.
Proof.
  intros q k v (Hk & op & l & r & H). split; [assumption|].
  exists op, l, r. apply s1_heap; [|assumption].
  intros ->. rewrite Hnode in H. inversion H. destruct Hnn as [E _].
  subst nn. cbn in E. contradiction.
Qed.

Lemma s1_null : forall q, null_node s q -> null_node s1 q.
Proof.
  intros q (n & H & Hk). exists n. split; [|assumption].
  apply s1_heap; [|assumption].
  intros ->. rewrite Hnode in H. inversion H. subst n.
  destruct Hnn as [E _]. rewrite Hk in E. discriminate.
Qed.

Lemma s1_live : forall q n,
  heap s q = Some n -> nodekind n <> DUMMYNode ->
  IsNull q s1 = Ret false s1.
Proof.
  intros q n H Hk. destruct (Z.eq_dec q node) as [->|Hq].
  - unfold s1. rewrite (IsNull_at _ _ _ (resolved_node node f arr nn s)).
    cbn [nodekind]. destruct Hnn as [-> _]. reflexivity.
  - rewrite (IsNull_at _ _ _ (s1_heap _ _ Hq H)).
    apply Z.eqb_neq in Hk. rewrite Hk. reflexivity.
Qed.

Lemma s1_attr : forall k v, has_attr s arr k v -> has_attr s1 arr k v.
Proof.
  intros k v H. apply (has_attr_same s); try reflexivity. assumption.
Qed.

Lemma s1_get : forall k v,
  has_attr s arr k v -> GetAttr arr k s1 = Ret v s1.
Proof.
  intros k v H.
  apply has_attr_get; [lia | exact Hpool | apply s1_attr; exact H].
Qed.

(** The lookup of the base name and the replacement of the name leaf. *)
Lemma varop_enters_loop : forall fuel declop,
  varop rec fuel node declop s =
  varop_loop rec fuel base declop (mkVars arr (-1) r1 None) s1.
Proof.
  intros fuel declop. destruct Hnn as (K1 & K2 & K3 & K4).
  assert (He : expr_node s node VarOp base r1).
  { exists (intval nn). rewrite Hnode. destruct nn; cbn in *. subst.
    reflexivity. }
  unfold varop.
  unfold bind at 1. rewrite (LeftChild_expr _ _ _ _ _ He).
  unfold bind at 1. rewrite (RightChild_expr _ _ _ _ _ He).
  unfold bind at 1. rewrite (IntVal_leaf _ _ _ _ Hbase).
  unfold bind at 1.
  rewrite (LookUp_found bname s f Hstack Hf Hnames Htopmost).
  rewrite Harr.
  assert (E0 : (arr =? 0) = false) by (apply Z.eqb_neq; lia).
  rewrite E0. cbn [negb].
  unfold bind at 1. rewrite MakeLeaf_eq.
  unfold bind at 1.
  rewrite (SetLeftChild_expr _ node _ nn).
  - reflexivity.
  - unfold allocated. cbn. rewrite !upd_other; [exact Hnode | |];
      intros E; apply (live_not_fresh s node nn Hfresh Hnode); congruence.
  - exact K1.
Qed.

(** The [ARR] case up to the index loop. *)
Lemma varop_case_reaches_index_loop :
  forall fuel declop x1 r2,
    expr_node s r1 SelectOp x1 r2 ->
    varop_case rec fuel base declop (mkVars arr (-1) r1 None) s1 =
    bind (index_loop rec fuel arr 2 r1 x1 0)
      (fun c =>
        match c with
        | Return => ret Return
        | Next (r, fld_indop, d) =>
            null <- IsNull r ;;
            if null && (d <? 2) then
              nm <- GetAttr arr NAME_ATTR ;;
              error_msg INDX_MIS CONTINUE nm 0 ;;;
              ret Return
            else if negb null then
              fleaf <- LeftChild fld_indop ;;
              fid <- IntVal fleaf ;;
              len <- loc_str "length" ;;
              if negb (fid =? len) then
                nm <- GetAttr arr NAME_ATTR ;;
                error_msg TYPE_MIS CONTINUE nm 0 ;;;
                ret Return
              else
                after <- RightChild r ;;
                anull <- IsNull after ;;
                if negb anull then
                  nm <- GetAttr arr NAME_ATTR ;;
                  error_msg TYPE_MIS CONTINUE nm 0 ;;;
                  ret Return
                else
                  r' <- RightChild r ;;
                  _ <- LeftChild r ;;
                  ret (Next (mkVars arr (-1) r' None))
            else ret (Next (mkVars arr (-1) r None))
        end) s1.
Proof.
  intros fuel declop x1 r2 Hr1.
  assert (Hr1' : expr_node s1 r1 SelectOp x1 r2)
    by (apply s1_expr; [discriminate | assumption]).
  assert (Hty' : expr_node s1 ty TypeIdOp tleft tright)
    by (apply s1_expr; [discriminate | assumption]).
  pose proof (s1_leaf _ _ _ Hint) as Hint'.
  unfold varop_case. cbn [st_ind0 rchild nest0 found].
  unfold bind at 1. rewrite (s1_get _ _ Hkind).
  cbn [Z.eqb ARR VAR PROCE FUNC CLASS Pos.eqb orb].
  unfold bind at 1. rewrite (IsNull_expr _ _ _ _ _ Hr1').
  unfold bind at 1. rewrite (s1_get _ _ Htype).
  unfold bind at 1. rewrite (LeftChild_expr _ _ _ _ _ Hty').
  unfold bind at 1. rewrite (LeftChild_expr _ _ _ _ _ Hr1').
  unfold bind at 1. rewrite (s1_get _ _ Hdimen).
  unfold bind at 1. rewrite (NodeKind_leaf _ _ _ _ Hint').
  rewrite Z.eqb_refl. reflexivity.
Qed.

Lemma index_loop_null : forall fuel sym dim r x d t,
  null_node t r ->
  index_loop rec (S fuel) sym dim r x d t = Ret (Next (r, x, d)) t.
Proof.
  intros fuel sym dim r x d t Hn. cbn [index_loop].
  unfold bind at 1. rewrite (IsNull_null _ _ Hn). reflexivity.
Qed.

Lemma index_loop_field : forall fuel sym dim r x d t opr x' r' a b,
  expr_node t r opr x' r' ->
  expr_node t x FieldOp a b ->
  index_loop rec (S fuel) sym dim r x d t = Ret (Next (r, x, d)) t.
Proof.
  intros fuel sym dim r x d t opr x' r' a b Hr Hx. cbn [index_loop].
  unfold bind at 1. rewrite (IsNull_expr _ _ _ _ _ Hr).
  unfold bind at 1. rewrite (NodeOp_expr _ _ _ _ _ Hx). reflexivity.
Qed.

Lemma index_loop_too_many : forall fuel sym dim r x d t opr x' r' a b id,
  expr_node t r opr x' r' ->
  expr_node t x IndexOp a b ->
  dim < d + 1 ->
  GetAttr sym NAME_ATTR t = Ret id t ->
  index_loop rec (S fuel) sym dim r x d t =
  Ret Return (reported INDX_MIS id 0 t).
Proof.
  intros fuel sym dim r x d t opr x' r' a b id Hr Hx Hd Hg.
  cbn [index_loop].
  unfold bind at 1. rewrite (IsNull_expr _ _ _ _ _ Hr).
  unfold bind at 1. rewrite (NodeOp_expr _ _ _ _ _ Hx).
  cbn [orb Z.eqb IndexOp FieldOp Pos.eqb].
  destruct (Z.gtb_spec (d + 1) dim) as [_ | Hle]; [|lia].
  unfold bind at 1. rewrite Hg.
  unfold bind at 1. rewrite error_msg_continue. reflexivity.
Qed.

Lemma index_loop_turn : forall fuel sym dim r x d t t' r' e o nodes,
  expr_node t r SelectOp x r' ->
  expr_node t x IndexOp e o ->
  d + 1 <= dim ->
  analysed rec nodes arr nm e t t' ->
  heap t' r = heap t r ->
  index_loop rec (S fuel) sym dim r x d t =
  bind (LeftChild r') (fun f' => index_loop rec fuel sym dim r' f' (d + 1)) t'.
Proof.
  intros fuel sym dim r x d t t' r' e o nodes Hr Hx Hd Han Hkeep.
  cbn [index_loop].
  unfold bind at 1. rewrite (IsNull_expr _ _ _ _ _ Hr).
  unfold bind at 1. rewrite (NodeOp_expr _ _ _ _ _ Hx).
  cbn [orb Z.eqb IndexOp FieldOp Pos.eqb].
  destruct (Z.gtb_spec (d + 1) dim) as [Hgt | _]; [lia|].
  rewrite (operand_step _ rec nodes arr nm e x o t t' _ Hx Han).
  unfold bind at 1.
  rewrite (RightChild_expr t' r SelectOp x r' (expr_node_same _ _ _ _ _ _ Hkeep Hr)).
  reflexivity.
Qed.

Lemma s1_in_pool : attr_top s1 < ATTR_SIZE.
Proof. exact Hpool. Qed.

Lemma keeps_get : forall nodes t t',
  keeps nodes arr nm t t' -> GetAttr arr NAME_ATTR t' = Ret nm t'.
Proof.
  intros nodes t t' (_ & Hn & Htop & _).
  apply has_attr_get; [lia | exact Htop | exact Hn].
Qed.

Lemma analysed_s1 : forall nodes e t',
  analysed rec nodes arr nm e s1 t' -> keeps nodes arr nm s1 t'.
Proof.
  intros nodes e t' H.
  apply (analysed_keeps rec nodes arr nm e s1 t');
    [exact Hpool | apply s1_attr; exact Hname | exact H].
Qed.

Lemma keeps_trans_get : forall nodes nodes' e t t' t'',
  keeps nodes arr nm t t' ->
  analysed rec nodes' arr nm e t' t'' ->
  keeps nodes' arr nm t' t''.
Proof.
  intros nodes nodes' e t t' t'' (_ & Hn & Htop & _) H.
  apply (analysed_keeps rec nodes' arr nm e t' t''); assumption.
Qed.

(** The first turn of [varop] on the array, down to the exit of the index
    loop. *)
Lemma varop_array_turn : forall fuel declop x1 r2,
  expr_node s r1 SelectOp x1 r2 ->
  varop rec (S fuel) node declop s =
  bind
    (bind (index_loop rec fuel arr 2 r1 x1 0)
      (fun c =>
        match c with
        | Return => ret Return
        | Next (r, fld_indop, d) =>
            null <- IsNull r ;;
            if null && (d <? 2) then
              nm <- GetAttr arr NAME_ATTR ;;
              error_msg INDX_MIS CONTINUE nm 0 ;;;
              ret Return
            else if negb null then
              fleaf <- LeftChild fld_indop ;;
              fid <- IntVal fleaf ;;
              len <- loc_str "length" ;;
              if negb (fid =? len) then
                nm <- GetAttr arr NAME_ATTR ;;
                error_msg TYPE_MIS CONTINUE nm 0 ;;;
                ret Return
              else
                after <- RightChild r ;;
                anull <- IsNull after ;;
                if negb anull then
                  nm <- GetAttr arr NAME_ATTR ;;
                  error_msg TYPE_MIS CONTINUE nm 0 ;;;
                  ret Return
                else
                  r' <- RightChild r ;;
                  _ <- LeftChild r ;;
                  ret (Next (mkVars arr (-1) r' None))
            else ret (Next (mkVars arr (-1) r None))
        end))
    (fun c =>
       match c with
       | Return => ret tt
       | Next v' =>
           null <- IsNull (rchild v') ;;
           if null then ret tt else varop_loop rec fuel base declop v'
       end) s1.
Proof.
  intros fuel declop x1 r2 Hr1. rewrite varop_enters_loop.
  cbn [varop_loop]. unfold bind at 1.
  rewrite (varop_case_reaches_index_loop fuel declop x1 r2 Hr1).
  reflexivity.
Qed.

(** X19.  The pseudo-field [length] of an array of integers.  On a [VarOp]
    whose base name is a 2-dimensional array of integers and whose first
    access is a field, [varop] resolves the base name and then: accepts the
    access without a message when the field is spelled [length] and
    nothing follows it; reports a type mismatch on the array when
    something follows [length]; and reports a type mismatch when the field
    has any other name. *)
Theorem varop_accepts_only_length_as_field_of_an_integer_array :
  forall fuel declop x1 r2 lf o1 kind v,
    expr_node s r1 SelectOp x1 r2 ->
    expr_node s x1 FieldOp lf o1 ->
    leaf_node s lf kind v ->
    (2 <= fuel)%nat ->
    (v = loc_str_from (strg_tbl s) 0 "length" ->
     null_node s r2 ->
     varop rec fuel node declop s = Ret tt (resolved node f arr nn s) /\
     out (resolved node f arr nn s) = out s) /\
    (v = loc_str_from (strg_tbl s) 0 "length" ->
     forall n2, heap s r2 = Some n2 -> nodekind n2 <> DUMMYNode ->
     varop rec fuel node declop s =
     Ret tt (reported TYPE_MIS nm 0 (resolved node f arr nn s))) /\
    (v <> loc_str_from (strg_tbl s) 0 "length" ->
     varop rec fuel node declop s =
     Ret tt (reported TYPE_MIS nm 0 (resolved node f arr nn s))).
Proof.
  intros fuel declop x1 r2 lf o1 kind v Hr1 Hx1 Hlf Hfuel.
  destruct fuel as [|[|fuel]]; [lia | lia |].
  assert (Hr1' : expr_node s1 r1 SelectOp x1 r2)
    by (apply s1_expr; [discriminate | assumption]).
  assert (Hx1' : expr_node s1 x1 FieldOp lf o1)
    by (apply s1_expr; [discriminate | assumption]).
  pose proof (s1_leaf _ _ _ Hlf) as Hlf'.
  assert (Hstart :
    forall K : ctl (tree * tree * Z) -> M (ctl varop_vars),
      bind (index_loop rec (S fuel) arr 2 r1 x1 0) K s1
      = K (Next (r1, x1, 0)) s1).
  { intros K. unfold bind.
    rewrite (index_loop_field fuel arr 2 r1 x1 0 s1 _ _ _ _ _ Hr1' Hx1').
    reflexivity. }
  fold s1.
  split; [|split].
  - intros Ev Hnull. split; [|reflexivity].
    rewrite (varop_array_turn _ declop x1 r2 Hr1).
    unfold bind at 1. rewrite Hstart.
    unfold bind at 1. rewrite (IsNull_expr _ _ _ _ _ Hr1').
    cbn [andb negb].
    unfold bind at 1. rewrite (LeftChild_expr _ _ _ _ _ Hx1').
    unfold bind at 1. rewrite (IntVal_leaf _ _ _ _ Hlf').
    unfold bind at 1. rewrite loc_str_eq.
    change (strg_tbl s1) with (strg_tbl s). rewrite <- Ev.
    rewrite Z.eqb_refl. cbn [negb].
    unfold bind at 1. rewrite (RightChild_expr _ _ _ _ _ Hr1').
    unfold bind at 1. rewrite (IsNull_null _ _ (s1_null _ Hnull)).
    cbn [negb].
    unfold bind at 1. rewrite (RightChild_expr _ _ _ _ _ Hr1').
    unfold bind at 1. rewrite (LeftChild_expr _ _ _ _ _ Hr1').
    cbn [ret rchild].
    unfold bind at 1. rewrite (IsNull_null _ _ (s1_null _ Hnull)).
    reflexivity.
  - intros Ev n2 Hn2 Hk2.
    rewrite (varop_array_turn _ declop x1 r2 Hr1).
    unfold bind at 1. rewrite Hstart.
    unfold bind at 1. rewrite (IsNull_expr _ _ _ _ _ Hr1').
    cbn [andb negb].
    unfold bind at 1. rewrite (LeftChild_expr _ _ _ _ _ Hx1').
    unfold bind at 1. rewrite (IntVal_leaf _ _ _ _ Hlf').
    unfold bind at 1. rewrite loc_str_eq.
    change (strg_tbl s1) with (strg_tbl s). rewrite <- Ev.
    rewrite Z.eqb_refl. cbn [negb].
    unfold bind at 1. rewrite (RightChild_expr _ _ _ _ _ Hr1').
    unfold bind at 1. rewrite (s1_live _ _ Hn2 Hk2).
    cbn [negb].
    unfold bind at 1. rewrite (s1_get _ _ Hname).
    unfold bind at 1. rewrite error_msg_continue.
    reflexivity.
  - intros Ev.
    rewrite (varop_array_turn _ declop x1 r2 Hr1).
    unfold bind at 1. rewrite Hstart.
    unfold bind at 1. rewrite (IsNull_expr _ _ _ _ _ Hr1').
    cbn [andb negb].
    unfold bind at 1. rewrite (LeftChild_expr _ _ _ _ _ Hx1').
    unfold bind at 1. rewrite (IntVal_leaf _ _ _ _ Hlf').
    unfold bind at 1. rewrite loc_str_eq.
    change (strg_tbl s1) with (strg_tbl s).
    apply Z.eqb_neq in Ev. rewrite Ev. cbn [negb].
    unfold bind at 1. rewrite (s1_get _ _ Hname).
    unfold bind at 1. rewrite error_msg_continue.
    reflexivity.
Qed.

(** X20.  The count of the indices of an array of integers.  On a [VarOp]
    whose base name is a 2-dimensional array of integers, [varop] resolves
    the base name and then: with no access at all, or with one index and
    nothing after it, it reports an index mismatch on the array; with two
    indices and nothing after them it accepts the access without a message
    of its own; with a third index it reports an index mismatch, before it
    looks at the operand of that index.  The operands of the first two
    indices are dealt with on the way, in order. *)
Theorem varop_counts_the_indices_of_an_integer_array :
  forall fuel declop,
    (4 <= fuel)%nat ->
    (null_node s r1 ->
     varop rec fuel node declop s =
     Ret tt (reported INDX_MIS nm 0 (resolved node f arr nn s))) /\
    (forall x1 r2 e1 o1 s2,
        expr_node s r1 SelectOp x1 r2 ->
        expr_node s x1 IndexOp e1 o1 ->
        null_node s r2 ->
        analysed rec [r1; r2] arr nm e1 (resolved node f arr nn s) s2 ->
        varop rec fuel node declop s = Ret tt (reported INDX_MIS nm 0 s2)) /\
    (forall x1 r2 e1 o1 s2 x2 r3 e2 o2 s3,
        expr_node s r1 SelectOp x1 r2 ->
        expr_node s x1 IndexOp e1 o1 ->
        expr_node s r2 SelectOp x2 r3 ->
        expr_node s x2 IndexOp e2 o2 ->
        analysed rec [r1; r2; x2; r3] arr nm e1 (resolved node f arr nn s) s2 ->
        analysed rec [r2; r3] arr nm e2 s2 s3 ->
        null_node s r3 ->
        varop rec fuel node declop s = Ret tt s3) /\
    (forall x1 r2 e1 o1 s2 x2 r3 e2 o2 s3 x3 r4 e3 o3,
        expr_node s r1 SelectOp x1 r2 ->
        expr_node s x1 IndexOp e1 o1 ->
        expr_node s r2 SelectOp x2 r3 ->
        expr_node s x2 IndexOp e2 o2 ->
        expr_node s r3 SelectOp x3 r4 ->
        expr_node s x3 IndexOp e3 o3 ->
        analysed rec [r1; r2; x2; r3; x3] arr nm e1
                 (resolved node f arr nn s) s2 ->
        analysed rec [r2; r3; x3] arr nm e2 s2 s3 ->
        varop rec fuel node declop s = Ret tt (reported INDX_MIS nm 0 s3)).
Proof.
  intros fuel declop Hfuel.
  destruct fuel as [|[|[|[|fuel]]]]; try lia.
  fold s1.
  split; [|split; [|split]].
  - (* no access *)
    intros Hnull. rewrite varop_enters_loop.
    cbn [varop_loop]. unfold bind at 1. unfold varop_case.
    cbn [st_ind0 rchild nest0 found].
    unfold bind at 1. rewrite (s1_get _ _ Hkind).
    cbn [Z.eqb ARR VAR PROCE FUNC CLASS Pos.eqb orb].
    unfold bind at 1. rewrite (IsNull_null _ _ (s1_null _ Hnull)).
    unfold bind at 1. rewrite (s1_get _ _ Hname).
    unfold bind at 1. rewrite error_msg_continue. reflexivity.
  - (* one index *)
    intros x1 r2 e1 o1 s2 Hr1 Hx1 Hnull Han1.
    assert (Hr1' : expr_node s1 r1 SelectOp x1 r2)
      by (apply s1_expr; [discriminate | assumption]).
    assert (Hx1' : expr_node s1 x1 IndexOp e1 o1)
      by (apply s1_expr; [discriminate | assumption]).
    pose proof (analysed_s1 _ _ _ Han1) as K1.
    pose proof K1 as (Hk1 & _).
    assert (Hnull2 : null_node s2 r2).
    { apply (null_node_same s1); [apply Hk1; cbn; auto | apply s1_null].
      exact Hnull. }
    rewrite (varop_array_turn _ declop x1 r2 Hr1).
    unfold bind at 1. unfold bind at 1.
    rewrite (index_loop_turn _ arr 2 r1 x1 0 s1 s2 r2 e1 o1 _ Hr1' Hx1'
               ltac:(lia) Han1 ltac:(apply Hk1; cbn; auto)).
    unfold bind at 1. rewrite (LeftChild_null_node _ _ Hnull2).
    rewrite (index_loop_null _ arr 2 r2 dummy_addr (0 + 1) s2 Hnull2).
    unfold bind at 1. rewrite (IsNull_null _ _ Hnull2).
    cbn [andb Z.ltb Z.add Z.compare Pos.compare Pos.compare_cont Pos.add].
    unfold bind at 1. rewrite (keeps_get _ _ _ K1).
    unfold bind at 1. rewrite error_msg_continue. reflexivity.
  - (* two indices *)
    intros x1 r2 e1 o1 s2 x2 r3 e2 o2 s3 Hr1 Hx1 Hr2 Hx2 Han1 Han2 Hnull.
    assert (Hr1' : expr_node s1 r1 SelectOp x1 r2)
      by (apply s1_expr; [discriminate | assumption]).
    assert (Hx1' : expr_node s1 x1 IndexOp e1 o1)
      by (apply s1_expr; [discriminate | assumption]).
    assert (Hr2' : expr_node s1 r2 SelectOp x2 r3)
      by (apply s1_expr; [discriminate | assumption]).
    assert (Hx2' : expr_node s1 x2 IndexOp e2 o2)
      by (apply s1_expr; [discriminate | assumption]).
    pose proof (analysed_s1 _ _ _ Han1) as K1.
    pose proof K1 as (Hk1 & _).
    pose proof (keeps_trans_get _ _ _ _ _ _ K1 Han2) as K2.
    pose proof K2 as (Hk2 & _).
    assert (Hr2'' : expr_node s2 r2 SelectOp x2 r3)
      by (apply (expr_node_same s1); [apply Hk1; cbn; auto | exact Hr2']).
    assert (Hx2'' : expr_node s2 x2 IndexOp e2 o2)
      by (apply (expr_node_same s1); [apply Hk1; cbn; auto | exact Hx2']).
    assert (Hnull3 : null_node s3 r3).
    { apply (null_node_same s2); [apply Hk2; cbn; auto|].
      apply (null_node_same s1); [apply Hk1; cbn; auto|].
      apply s1_null. exact Hnull. }
    rewrite (varop_array_turn _ declop x1 r2 Hr1).
    unfold bind at 1. unfold bind at 1.
    rewrite (index_loop_turn _ arr 2 r1 x1 0 s1 s2 r2 e1 o1 _ Hr1' Hx1'
               ltac:(lia) Han1 ltac:(apply Hk1; cbn; auto)).
    unfold bind at 1. rewrite (LeftChild_expr _ _ _ _ _ Hr2'').
    rewrite (index_loop_turn _ arr 2 r2 x2 (0 + 1) s2 s3 r3 e2 o2 _
               Hr2'' Hx2'' ltac:(lia) Han2 ltac:(apply Hk2; cbn; auto)).
    unfold bind at 1. rewrite (LeftChild_null_node _ _ Hnull3).
    rewrite (index_loop_null _ arr 2 r3 dummy_addr (0 + 1 + 1) s3 Hnull3).
    unfold bind at 1. rewrite (IsNull_null _ _ Hnull3).
    cbn [andb negb Z.ltb Z.add Z.compare Pos.compare Pos.compare_cont
         Pos.add Pos.succ].
    cbn [ret rchild].
    unfold bind at 1. rewrite (IsNull_null _ _ Hnull3). reflexivity.
  - (* three indices *)
    intros x1 r2 e1 o1 s2 x2 r3 e2 o2 s3 x3 r4 e3 o3
           Hr1 Hx1 Hr2 Hx2 Hr3 Hx3 Han1 Han2.
    assert (Hr1' : expr_node s1 r1 SelectOp x1 r2)
      by (apply s1_expr; [discriminate | assumption]).
    assert (Hx1' : expr_node s1 x1 IndexOp e1 o1)
      by (apply s1_expr; [discriminate | assumption]).
    assert (Hr2' : expr_node s1 r2 SelectOp x2 r3)
      by (apply s1_expr; [discriminate | assumption]).
    assert (Hx2' : expr_node s1 x2 IndexOp e2 o2)
      by (apply s1_expr; [discriminate | assumption]).
    assert (Hr3' : expr_node s1 r3 SelectOp x3 r4)
      by (apply s1_expr; [discriminate | assumption]).
    assert (Hx3' : expr_node s1 x3 IndexOp e3 o3)
      by (apply s1_expr; [discriminate | assumption]).
    pose proof (analysed_s1 _ _ _ Han1) as K1.
    pose proof K1 as (Hk1 & _).
    pose proof (keeps_trans_get _ _ _ _ _ _ K1 Han2) as K2.
    pose proof K2 as (Hk2 & _).
    assert (Hr2'' : expr_node s2 r2 SelectOp x2 r3)
      by (apply (expr_node_same s1); [apply Hk1; cbn; auto | exact Hr2']).
    assert (Hx2'' : expr_node s2 x2 IndexOp e2 o2)
      by (apply (expr_node_same s1); [apply Hk1; cbn; auto | exact Hx2']).
    assert (Hr3'' : expr_node s3 r3 SelectOp x3 r4).
    { apply (expr_node_same s2); [apply Hk2; cbn; auto|].
      apply (expr_node_same s1); [apply Hk1; cbn; auto 6 | exact Hr3']. }
    assert (Hx3'' : expr_node s3 x3 IndexOp e3 o3).
    { apply (expr_node_same s2); [apply Hk2; cbn; auto|].
      apply (expr_node_same s1); [apply Hk1; cbn; auto 6 | exact Hx3']. }
    rewrite (varop_array_turn _ declop x1 r2 Hr1).
    unfold bind at 1. unfold bind at 1.
    rewrite (index_loop_turn _ arr 2 r1 x1 0 s1 s2 r2 e1 o1 _ Hr1' Hx1'
               ltac:(lia) Han1 ltac:(apply Hk1; cbn; auto)).
    unfold bind at 1. rewrite (LeftChild_expr _ _ _ _ _ Hr2'').
    rewrite (index_loop_turn _ arr 2 r2 x2 (0 + 1) s2 s3 r3 e2 o2 _
               Hr2'' Hx2'' ltac:(lia) Han2 ltac:(apply Hk2; cbn; auto)).
    unfold bind at 1. rewrite (LeftChild_expr _ _ _ _ _ Hr3'').
    rewrite (index_loop_too_many _ arr 2 r3 x3 (0 + 1 + 1) s3 _ _ _ _ _ nm
               Hr3'' Hx3'' ltac:(lia) (keeps_get _ _ _ K2)).
    reflexivity.
Qed.

Lemma s1_live_node : forall q n,
  heap s q = Some n -> nodekind n <> DUMMYNode ->
  exists n', heap s1 q = Some n' /\ nodekind n' <> DUMMYNode.
Proof.
  intros q n H Hk. destruct (Z.eq_dec q node) as [->|Hq].
  - eexists. split; [unfold s1; apply resolved_node|].
    cbn [nodekind]. destruct Hnn as [-> _]. discriminate.
  - exists n. split; [apply s1_heap; assumption | exact Hk].
Qed.

Lemma keeps_leaf : forall nodes t t' q kind v,
  keeps nodes arr nm t t' -> In q nodes ->
  leaf_node t q kind v -> leaf_node t' q kind v.
Proof.
  intros nodes t t' q kind v (Hk & _) Hin (Hknd & op & l & r & H).
  split; [exact Hknd|]. exists op, l, r. rewrite (Hk q Hin). exact H.
Qed.

Lemma keeps_tbl : forall nodes t t',
  keeps nodes arr nm t t' -> strg_tbl t' = strg_tbl t.
Proof. intros nodes t t' (_ & _ & _ & H). exact H. Qed.

Ltac length_with_rest Hr Hx Hlf Etbl Hrest Hknd Hg :=
  unfold bind at 1; rewrite (IsNull_expr _ _ _ _ _ Hr); cbn [andb negb];
  unfold bind at 1; rewrite (LeftChild_expr _ _ _ _ _ Hx);
  unfold bind at 1; rewrite (IntVal_leaf _ _ _ _ Hlf);
  unfold bind at 1; rewrite loc_str_eq; rewrite Etbl;
  rewrite Z.eqb_refl; cbn [negb];
  unfold bind at 1; rewrite (RightChild_expr _ _ _ _ _ Hr);
  unfold bind at 1; rewrite (IsNull_live _ _ _ Hrest Hknd); cbn [negb];
  unfold bind at 1; rewrite Hg;
  unfold bind at 1; rewrite error_msg_continue;
  reflexivity.

(** C7, as the code has it.  Take a [VarOp] whose base name resolves to a
    2-dimensional array of integers [arr].  [varop] replaces the name leaf
    by the leaf of the symbol and walks the access chain; the operand of an
    index is left alone when it is a leaf and handed to [MkST] when it is
    an operator node.  Whenever those calls of [MkST] return and leave the
    chain and the name of the array as they are:
    - a chain of three indices reports the index mismatch on [arr], after
      the operands of the first two indices and before the third;
    - a chain of one index and nothing after it reports the index mismatch;
    - a chain in which something follows the field [length], after no, one
      or two indices, reports the type mismatch;
    - a chain that is the field [length] alone is accepted: nothing is
      printed. *)
Theorem varop_checks_accesses_to_two_dimensional_integer_array :
  forall fuel declop lenid,
    (4 <= fuel)%nat ->
    lenid = loc_str_from (strg_tbl s) 0 "length" ->
    (forall x1 r2 e1 o1 s2 x2 r3 e2 o2 s3 x3 r4 e3 o3,
        expr_node s r1 SelectOp x1 r2 ->
        expr_node s x1 IndexOp e1 o1 ->
        expr_node s r2 SelectOp x2 r3 ->
        expr_node s x2 IndexOp e2 o2 ->
        expr_node s r3 SelectOp x3 r4 ->
        expr_node s x3 IndexOp e3 o3 ->
        analysed rec [r1; r2; x2; r3; x3] arr nm e1
                 (resolved node f arr nn s) s2 ->
        analysed rec [r2; r3; x3] arr nm e2 s2 s3 ->
        varop rec fuel node declop s = Ret tt (reported INDX_MIS nm 0 s3)) /\
    (forall x1 r2 e1 o1 s2,
        expr_node s r1 SelectOp x1 r2 ->
        expr_node s x1 IndexOp e1 o1 ->
        null_node s r2 ->
        analysed rec [r1; r2] arr nm e1 (resolved node f arr nn s) s2 ->
        varop rec fuel node declop s = Ret tt (reported INDX_MIS nm 0 s2)) /\
    (forall x1 r2 lf o1 kind n2,
        expr_node s r1 SelectOp x1 r2 ->
        expr_node s x1 FieldOp lf o1 ->
        leaf_node s lf kind lenid ->
        heap s r2 = Some n2 -> nodekind n2 <> DUMMYNode ->
        varop rec fuel node declop s =
        Ret tt (reported TYPE_MIS nm 0 (resolved node f arr nn s))) /\
    (forall x1 r2 e1 o1 s2 x2 r3 lf o2 kind n3,
        expr_node s r1 SelectOp x1 r2 ->
        expr_node s x1 IndexOp e1 o1 ->
        expr_node s r2 SelectOp x2 r3 ->
        expr_node s x2 FieldOp lf o2 ->
        leaf_node s lf kind lenid ->
        heap s r3 = Some n3 -> nodekind n3 <> DUMMYNode ->
        analysed rec [r1; r2; x2; lf; r3] arr nm e1
                 (resolved node f arr nn s) s2 ->
        varop rec fuel node declop s = Ret tt (reported TYPE_MIS nm 0 s2)) /\
    (forall x1 r2 e1 o1 s2 x2 r3 e2 o2 s3 x3 r4 lf o3 kind n4,
        expr_node s r1 SelectOp x1 r2 ->
        expr_node s x1 IndexOp e1 o1 ->
        expr_node s r2 SelectOp x2 r3 ->
        expr_node s x2 IndexOp e2 o2 ->
        expr_node s r3 SelectOp x3 r4 ->
        expr_node s x3 FieldOp lf o3 ->
        leaf_node s lf kind lenid ->
        heap s r4 = Some n4 -> nodekind n4 <> DUMMYNode ->
        analysed rec [r1; r2; x2; r3; x3; lf; r4] arr nm e1
                 (resolved node f arr nn s) s2 ->
        analysed rec [r2; r3; x3; lf; r4] arr nm e2 s2 s3 ->
        varop rec fuel node declop s = Ret tt (reported TYPE_MIS nm 0 s3)) /\
    (forall x1 r2 lf o1 kind,
        expr_node s r1 SelectOp x1 r2 ->
        expr_node s x1 FieldOp lf o1 ->
        leaf_node s lf kind lenid ->
        null_node s r2 ->
        varop rec fuel node declop s = Ret tt (resolved node f arr nn s) /\
        out (resolved node f arr nn s) = out s).
Proof.
  intros fuel declop lenid Hfuel Elen.
  destruct fuel as [|[|[|[|fuel]]]]; try lia.
  fold s1.
  assert (Etbl1 : strg_tbl s1 = strg_tbl s) by reflexivity.
  split; [|split; [|split; [|split; [|split]]]].
  - (* three indices *)
    intros x1 r2 e1 o1 s2 x2 r3 e2 o2 s3 x3 r4 e3 o3
           Hr1 Hx1 Hr2 Hx2 Hr3 Hx3 Han1 Han2.
    assert (Hr1' : expr_node s1 r1 SelectOp x1 r2)
      by (apply s1_expr; [discriminate | assumption]).
    assert (Hx1' : expr_node s1 x1 IndexOp e1 o1)
      by (apply s1_expr; [discriminate | assumption]).
    assert (Hr2' : expr_node s1 r2 SelectOp x2 r3)
      by (apply s1_expr; [discriminate | assumption]).
    assert (Hx2' : expr_node s1 x2 IndexOp e2 o2)
      by (apply s1_expr; [discriminate | assumption]).
    assert (Hr3' : expr_node s1 r3 SelectOp x3 r4)
      by (apply s1_expr; [discriminate | assumption]).
    assert (Hx3' : expr_node s1 x3 IndexOp e3 o3)
      by (apply s1_expr; [discriminate | assumption]).
    pose proof (analysed_s1 _ _ _ Han1) as K1.
    pose proof K1 as (Hk1 & _).
    pose proof (keeps_trans_get _ _ _ _ _ _ K1 Han2) as K2.
    pose proof K2 as (Hk2 & _).
    assert (Hr2'' : expr_node s2 r2 SelectOp x2 r3)
      by (apply (expr_node_same s1); [apply Hk1; cbn; auto | exact Hr2']).
    assert (Hx2'' : expr_node s2 x2 IndexOp e2 o2)
      by (apply (expr_node_same s1); [apply Hk1; cbn; auto | exact Hx2']).
    assert (Hr3'' : expr_node s3 r3 SelectOp x3 r4).
    { apply (expr_node_same s2); [apply Hk2; cbn; auto|].
      apply (expr_node_same s1); [apply Hk1; cbn; auto 6 | exact Hr3']. }
    assert (Hx3'' : expr_node s3 x3 IndexOp e3 o3).
    { apply (expr_node_same s2); [apply Hk2; cbn; auto|].
      apply (expr_node_same s1); [apply Hk1; cbn; auto 6 | exact Hx3']. }
    rewrite (varop_array_turn _ declop x1 r2 Hr1).
    unfold bind at 1. unfold bind at 1.
    rewrite (index_loop_turn _ arr 2 r1 x1 0 s1 s2 r2 e1 o1 _ Hr1' Hx1'
               ltac:(lia) Han1 ltac:(apply Hk1; cbn; auto)).
    unfold bind at 1. rewrite (LeftChild_expr _ _ _ _ _ Hr2'').
    rewrite (index_loop_turn _ arr 2 r2 x2 (0 + 1) s2 s3 r3 e2 o2 _
               Hr2'' Hx2'' ltac:(lia) Han2 ltac:(apply Hk2; cbn; auto)).
    unfold bind at 1. rewrite (LeftChild_expr _ _ _ _ _ Hr3'').
    rewrite (index_loop_too_many _ arr 2 r3 x3 (0 + 1 + 1) s3 _ _ _ _ _ nm
               Hr3'' Hx3'' ltac:(lia) (keeps_get _ _ _ K2)).
    reflexivity.
  - (* one index *)
    intros x1 r2 e1 o1 s2 Hr1 Hx1 Hnull Han1.
    assert (Hr1' : expr_node s1 r1 SelectOp x1 r2)
      by (apply s1_expr; [discriminate | assumption]).
    assert (Hx1' : expr_node s1 x1 IndexOp e1 o1)
      by (apply s1_expr; [discriminate | assumption]).
    pose proof (analysed_s1 _ _ _ Han1) as K1.
    pose proof K1 as (Hk1 & _).
    assert (Hnull2 : null_node s2 r2).
    { apply (null_node_same s1); [apply Hk1; cbn; auto | apply s1_null].
      exact Hnull. }
    rewrite (varop_array_turn _ declop x1 r2 Hr1).
    unfold bind at 1. unfold bind at 1.
    rewrite (index_loop_turn _ arr 2 r1 x1 0 s1 s2 r2 e1 o1 _ Hr1' Hx1'
               ltac:(lia) Han1 ltac:(apply Hk1; cbn; auto)).
    unfold bind at 1. rewrite (LeftChild_null_node _ _ Hnull2).
    rewrite (index_loop_null _ arr 2 r2 dummy_addr (0 + 1) s2 Hnull2).
    unfold bind at 1. rewrite (IsNull_null _ _ Hnull2).
    cbn [andb Z.ltb Z.add Z.compare Pos.compare Pos.compare_cont Pos.add].
    unfold bind at 1. rewrite (keeps_get _ _ _ K1).
    unfold bind at 1. rewrite error_msg_continue. reflexivity.
  - (* length and more, no index *)
    intros x1 r2 lf o1 kind n2 Hr1 Hx1 Hlf Hn2 Hk2.
    assert (Hr1' : expr_node s1 r1 SelectOp x1 r2)
      by (apply s1_expr; [discriminate | assumption]).
    assert (Hx1' : expr_node s1 x1 FieldOp lf o1)
      by (apply s1_expr; [discriminate | assumption]).
    pose proof (s1_leaf _ _ _ Hlf) as Hlf'. rewrite Elen in Hlf'.
    destruct (s1_live_node _ _ Hn2 Hk2) as (n2' & Hn2' & Hk2').
    rewrite (varop_array_turn _ declop x1 r2 Hr1).
    unfold bind at 1. unfold bind at 1.
    rewrite (index_loop_field _ arr 2 r1 x1 0 s1 _ _ _ _ _ Hr1' Hx1').
    length_with_rest Hr1' Hx1' Hlf' Etbl1 Hn2' Hk2' (s1_get _ _ Hname).
  - (* length and more, one index *)
    intros x1 r2 e1 o1 s2 x2 r3 lf o2 kind n3
           Hr1 Hx1 Hr2 Hx2 Hlf Hn3 Hk3 Han1.
    assert (Hr1' : expr_node s1 r1 SelectOp x1 r2)
      by (apply s1_expr; [discriminate | assumption]).
    assert (Hx1' : expr_node s1 x1 IndexOp e1 o1)
      by (apply s1_expr; [discriminate | assumption]).
    assert (Hr2' : expr_node s1 r2 SelectOp x2 r3)
      by (apply s1_expr; [discriminate | assumption]).
    assert (Hx2' : expr_node s1 x2 FieldOp lf o2)
      by (apply s1_expr; [discriminate | assumption]).
    pose proof (s1_leaf _ _ _ Hlf) as Hlf'. rewrite Elen in Hlf'.
    destruct (s1_live_node _ _ Hn3 Hk3) as (n3' & Hn3' & Hk3').
    pose proof (analysed_s1 _ _ _ Han1) as K1.
    pose proof K1 as (Hk1 & _).
    assert (Etbl2 : strg_tbl s2 = strg_tbl s)
      by (rewrite (keeps_tbl _ _ _ K1); exact Etbl1).
    assert (Hr2'' : expr_node s2 r2 SelectOp x2 r3)
      by (apply (expr_node_same s1); [apply Hk1; cbn; auto | exact Hr2']).
    assert (Hx2'' : expr_node s2 x2 FieldOp lf o2)
      by (apply (expr_node_same s1); [apply Hk1; cbn; auto | exact Hx2']).
    assert (Hlf'' : leaf_node s2 lf kind
                      (loc_str_from (strg_tbl s) 0 "length"))
      by (apply (keeps_leaf _ _ _ _ _ _ K1); [cbn; auto 6 | exact Hlf']).
    assert (Hn3'' : heap s2 r3 = Some n3')
      by (rewrite (Hk1 r3); [exact Hn3' | cbn; auto 6]).
    rewrite (varop_array_turn _ declop x1 r2 Hr1).
    unfold bind at 1. unfold bind at 1.
    rewrite (index_loop_turn _ arr 2 r1 x1 0 s1 s2 r2 e1 o1 _ Hr1' Hx1'
               ltac:(lia) Han1 ltac:(apply Hk1; cbn; auto)).
    unfold bind at 1. rewrite (LeftChild_expr _ _ _ _ _ Hr2'').
    rewrite (index_loop_field _ arr 2 r2 x2 (0 + 1) s2 _ _ _ _ _
               Hr2'' Hx2'').
    length_with_rest Hr2'' Hx2'' Hlf'' Etbl2 Hn3'' Hk3' (keeps_get _ _ _ K1).
  - (* length and more, two indices *)
    intros x1 r2 e1 o1 s2 x2 r3 e2 o2 s3 x3 r4 lf o3 kind n4
           Hr1 Hx1 Hr2 Hx2 Hr3 Hx3 Hlf Hn4 Hk4 Han1 Han2.
    assert (Hr1' : expr_node s1 r1 SelectOp x1 r2)
      by (apply s1_expr; [discriminate | assumption]).
    assert (Hx1' : expr_node s1 x1 IndexOp e1 o1)
      by (apply s1_expr; [discriminate | assumption]).
    assert (Hr2' : expr_node s1 r2 SelectOp x2 r3)
      by (apply s1_expr; [discriminate | assumption]).
    assert (Hx2' : expr_node s1 x2 IndexOp e2 o2)
      by (apply s1_expr; [discriminate | assumption]).
    assert (Hr3' : expr_node s1 r3 SelectOp x3 r4)
      by (apply s1_expr; [discriminate | assumption]).
    assert (Hx3' : expr_node s1 x3 FieldOp lf o3)
      by (apply s1_expr; [discriminate | assumption]).
    pose proof (s1_leaf _ _ _ Hlf) as Hlf'. rewrite Elen in Hlf'.
    destruct (s1_live_node _ _ Hn4 Hk4) as (n4' & Hn4' & Hk4').
    pose proof (analysed_s1 _ _ _ Han1) as K1.
    pose proof K1 as (Hk1 & _).
    pose proof (keeps_trans_get _ _ _ _ _ _ K1 Han2) as K2.
    pose proof K2 as (Hk2 & _).
    assert (Etbl3 : strg_tbl s3 = strg_tbl s).
    { rewrite (keeps_tbl _ _ _ K2), (keeps_tbl _ _ _ K1). exact Etbl1. }
    assert (Hr2'' : expr_node s2 r2 SelectOp x2 r3)
      by (apply (expr_node_same s1); [apply Hk1; cbn; auto | exact Hr2']).
    assert (Hx2'' : expr_node s2 x2 IndexOp e2 o2)
      by (apply (expr_node_same s1); [apply Hk1; cbn; auto | exact Hx2']).
    assert (Hr3'' : expr_node s3 r3 SelectOp x3 r4).
    { apply (expr_node_same s2); [apply Hk2; cbn; auto|].
      apply (expr_node_same s1); [apply Hk1; cbn; auto 6 | exact Hr3']. }
    assert (Hx3'' : expr_node s3 x3 FieldOp lf o3).
    { apply (expr_node_same s2); [apply Hk2; cbn; auto|].
      apply (expr_node_same s1); [apply Hk1; cbn; auto 6 | exact Hx3']. }
    assert (Hlf'' : leaf_node s3 lf kind
                      (loc_str_from (strg_tbl s) 0 "length")).
    { apply (keeps_leaf _ _ _ _ _ _ K2); [cbn; auto 6|].
      apply (keeps_leaf _ _ _ _ _ _ K1); [cbn; auto 8 | exact Hlf']. }
    assert (Hn4'' : heap s3 r4 = Some n4').
    { rewrite (Hk2 r4) by (cbn; auto 6).
      rewrite (Hk1 r4) by (cbn; auto 8). exact Hn4'. }
    rewrite (varop_array_turn _ declop x1 r2 Hr1).
    unfold bind at 1. unfold bind at 1.
    rewrite (index_loop_turn _ arr 2 r1 x1 0 s1 s2 r2 e1 o1 _ Hr1' Hx1'
               ltac:(lia) Han1 ltac:(apply Hk1; cbn; auto)).
    unfold bind at 1. rewrite (LeftChild_expr _ _ _ _ _ Hr2'').
    rewrite (index_loop_turn _ arr 2 r2 x2 (0 + 1) s2 s3 r3 e2 o2 _
               Hr2'' Hx2'' ltac:(lia) Han2 ltac:(apply Hk2; cbn; auto)).
    unfold bind at 1. rewrite (LeftChild_expr _ _ _ _ _ Hr3'').
    rewrite (index_loop_field _ arr 2 r3 x3 (0 + 1 + 1) s3 _ _ _ _ _
               Hr3'' Hx3'').
    length_with_rest Hr3'' Hx3'' Hlf'' Etbl3 Hn4'' Hk4' (keeps_get _ _ _ K2).
  - (* length alone *)
    intros x1 r2 lf o1 kind Hr1 Hx1 Hlf Hnull.
    assert (Hr1' : expr_node s1 r1 SelectOp x1 r2)
      by (apply s1_expr; [discriminate | assumption]).
    assert (Hx1' : expr_node s1 x1 FieldOp lf o1)
      by (apply s1_expr; [discriminate | assumption]).
    pose proof (s1_leaf _ _ _ Hlf) as Hlf'. rewrite Elen in Hlf'.
    split; [|reflexivity].
    rewrite (varop_array_turn _ declop x1 r2 Hr1).
    unfold bind at 1. unfold bind at 1.
    rewrite (index_loop_field _ arr 2 r1 x1 0 s1 _ _ _ _ _ Hr1' Hx1').
    unfold bind at 1. rewrite (IsNull_expr _ _ _ _ _ Hr1').
    cbn [andb negb].
    unfold bind at 1. rewrite (LeftChild_expr _ _ _ _ _ Hx1').
    unfold bind at 1. rewrite (IntVal_leaf _ _ _ _ Hlf').
    unfold bind at 1. rewrite loc_str_eq. rewrite Etbl1.
    rewrite Z.eqb_refl. cbn [negb].
    unfold bind at 1. rewrite (RightChild_expr _ _ _ _ _ Hr1').
    unfold bind at 1. rewrite (IsNull_null _ _ (s1_null _ Hnull)).
    cbn [negb].
    unfold bind at 1. rewrite (RightChild_expr _ _ _ _ _ Hr1').
    unfold bind at 1. rewrite (LeftChild_expr _ _ _ _ _ Hr1').
    cbn [ret rchild].
    unfold bind at 1. rewrite (IsNull_null _ _ (s1_null _ Hnull)).
    reflexivity.
Qed.

End VarOp_on_array.

Lemma resolved_attr_top : forall node f arr n s,
  attr_top (resolved node f arr n s) = attr_top s.
Proof. reflexivity. Qed.

Lemma resolved_attr : forall node f arr n s p k v,
  has_attr s p k v -> has_attr (resolved node f arr n s) p k v.
Proof.
  intros node f arr n s p k v H.
  apply (has_attr_same s); [reflexivity | reflexivity | reflexivity |].
  exact H.
Qed.

Lemma st_array_attr : forall k v,
  assoc k [(NAME_ATTR, 0); (NEST_ATTR, 1); (KIND_ATTR, ARR);
           (TYPE_ATTR, 1001); (DIMEN_ATTR, 2)] = Some v ->
  has_attr st_array 1 k v.
Proof.
  intros k v H. exists [1; 2; 5; 3; 4]. split; [|split].
  - unfold chain. repeat chain_step.
  - unfold attrs_ok.
    change (kinds st_array [1; 2; 5; 3; 4]) with [1; 2; 5; 6; 9]. split.
    + repeat constructor.
    + repeat (constructor; [unfold is_char; lia|]). constructor.
  - exact H.
Qed.

Lemma st_array_fresh : fresh_block st_array.
Proof. reflexivity. Qed.

Lemma st_array_rec_on_sum : forall t,
  heap t 1004 = heap st_array 1004 ->
  heap t 1005 = heap st_array 1005 ->
  heap t 1006 = heap st_array 1006 ->
  heap t dummy_addr = heap st_array dummy_addr ->
  MkST 5 1006 t = Ret tt t.
Proof.
  intros t H4 H5 H6 Hd.
  assert (D : null_node t dummy_addr).
  { exists dummy_node. split; [rewrite Hd|]; reflexivity. }
  apply (MkST_plain t 1006 4).
  apply (plain_op t 1006 AddOp 1004 1005 3).
  - exists 0. rewrite H6. reflexivity.
  - reflexivity.
  - apply (plain_leaf t 1004 NUMNode 2 2).
    + split; [discriminate|]. exists 0, dummy_addr, dummy_addr.
      rewrite H4. reflexivity.
    + discriminate.
    + exact D.
  - apply (plain_leaf t 1005 NUMNode 3 2).
    + split; [discriminate|]. exists 0, dummy_addr, dummy_addr.
      rewrite H5. reflexivity.
    + discriminate.
    + exact D.
Qed.

Lemma varop_accepts_only_length_as_field_of_an_integer_array_witness :
  varop (MkST 5) 2 1019 0 st_array =
  Ret tt (resolved 1019 2 1 (mkNode EXPRNode VarOp 0 1018 1017) st_array) /\
  out (resolved 1019 2 1 (mkNode EXPRNode VarOp 0 1018 1017) st_array)
  = out st_array.
Proof.
  destruct (varop_accepts_only_length_as_field_of_an_integer_array
              (MkST 5) st_array 1019 1018 1017 1001 1000 dummy_addr
              0 2 1 0 0 (mkNode EXPRNode VarOp 0 1018 1017))
    with (fuel := 2%nat) (declop := 0) (x1 := 1016) (r2 := dummy_addr)
         (lf := 1015) (o1 := dummy_addr) (kind := IDNode) (v := 2)
    as (A & _).
  - reflexivity.
  - repeat split.
  - split; [discriminate|]. exists 0, dummy_addr, dummy_addr. reflexivity.
  - change (stack_top st_array) with 2. unfold STACK_SIZE. lia.
  - change (stack_top st_array) with 2. lia.
  - reflexivity.
  - change (stack_top st_array) with 2. intros j Hj. lia.
  - reflexivity.
  - unfold ST_SIZE. lia.
  - change (attr_top st_array) with 5. unfold ATTR_SIZE. lia.
  - apply st_array_attr. reflexivity.
  - apply st_array_attr. reflexivity.
  - apply st_array_attr. reflexivity.
  - apply st_array_attr. reflexivity.
  - exists 0. reflexivity.
  - split; [discriminate|]. exists 0, dummy_addr, dummy_addr. reflexivity.
  - exact st_array_fresh.
  - exists 0. reflexivity.
  - exists 0. reflexivity.
  - split; [discriminate|]. exists 0, dummy_addr, dummy_addr. reflexivity.
  - lia.
  - apply A.
    + reflexivity.
    + exists dummy_node. split; reflexivity.
Defined.

Lemma varop_counts_the_indices_of_an_integer_array_witness :
  varop (MkST 5) 5 1014 0 st_array =
  Ret tt (reported INDX_MIS 0 0
            (resolved 1014 2 1 (mkNode EXPRNode VarOp 0 1002 1013) st_array)).
Proof.
  set (S1 := resolved 1014 2 1 (mkNode EXPRNode VarOp 0 1002 1013) st_array).
  assert (Hname1 : has_attr S1 1 NAME_ATTR 0).
  { apply resolved_attr. apply st_array_attr. reflexivity. }
  assert (Htop1 : attr_top S1 < ATTR_SIZE).
  { unfold S1. rewrite resolved_attr_top.
    change (attr_top st_array) with 5. unfold ATTR_SIZE. lia. }
  destruct (varop_counts_the_indices_of_an_integer_array
              (MkST 5) st_array 1014 1002 1013 1001 1000 dummy_addr
              0 2 1 0 0 (mkNode EXPRNode VarOp 0 1002 1013))
    with (fuel := 5%nat) (declop := 0)
    as (_ & _ & _ & D).
  - reflexivity.
  - repeat split.
  - split; [discriminate|]. exists 0, dummy_addr, dummy_addr. reflexivity.
  - change (stack_top st_array) with 2. unfold STACK_SIZE. lia.
  - change (stack_top st_array) with 2. lia.
  - reflexivity.
  - change (stack_top st_array) with 2. intros j Hj. lia.
  - reflexivity.
  - unfold ST_SIZE. lia.
  - change (attr_top st_array) with 5. unfold ATTR_SIZE. lia.
  - apply st_array_attr. reflexivity.
  - apply st_array_attr. reflexivity.
  - apply st_array_attr. reflexivity.
  - apply st_array_attr. reflexivity.
  - exists 0. reflexivity.
  - split; [discriminate|]. exists 0, dummy_addr, dummy_addr. reflexivity.
  - exact st_array_fresh.
  - lia.
  - apply (D 1012 1011 1003 dummy_addr S1 1010 1009 1006 dummy_addr S1
             1008 dummy_addr 1007 dummy_addr).
    + exists 0. reflexivity.
    + exists 0. reflexivity.
    + exists 0. reflexivity.
    + exists 0. reflexivity.
    + exists 0. reflexivity.
    + exists 0. reflexivity.
    + exists (mkNode NUMNode 0 1 dummy_addr dummy_addr).
      split; [reflexivity|]. left. split; [discriminate | reflexivity].
    + exists (mkNode EXPRNode AddOp 0 1004 1005).
      split; [reflexivity|]. right. split; [reflexivity|]. split.
      * apply st_array_rec_on_sum; vm_compute; reflexivity.
      * split; [intros q Hq; reflexivity|].
        split; [exact Hname1|]. split; [exact Htop1 | reflexivity].
Defined.

Lemma st_chains_attr : forall k v,
  assoc k [(NAME_ATTR, 0); (NEST_ATTR, 1); (KIND_ATTR, ARR);
           (TYPE_ATTR, 1001); (DIMEN_ATTR, 2)] = Some v ->
  has_attr st_chains 1 k v.
Proof.
  intros k v H. exists [1; 2; 5; 3; 4]. split; [|split].
  - unfold chain. repeat chain_step.
  - unfold attrs_ok.
    change (kinds st_chains [1; 2; 5; 3; 4]) with [1; 2; 5; 6; 9]. split.
    + repeat constructor.
    + repeat (constructor; [unfold is_char; lia|]). constructor.
  - exact H.
Qed.

(** The premises on the two example states: the tops of the stack and of
    the pool are 2 and 5 in both. *)
Ltac leaf_here :=
  split; [discriminate|]; exists 0, dummy_addr, dummy_addr; reflexivity.

Ltac tops_here :=
  change (stack_top st_array) with 2; change (attr_top st_array) with 5;
  change (stack_top st_chains) with 2; change (attr_top st_chains) with 5;
  unfold STACK_SIZE, ST_SIZE, ATTR_SIZE; intros; lia.

Ltac leaf_operand v :=
  exists (mkNode NUMNode 0 v dummy_addr dummy_addr);
  split; [reflexivity|]; left; split; [discriminate | reflexivity].

Lemma varop_checks_accesses_to_two_dimensional_integer_array_witness :
  varop (MkST 5) 5 1014 0 st_array =
  Ret tt (reported INDX_MIS 0 0
            (resolved 1014 2 1 (mkNode EXPRNode VarOp 0 1002 1013) st_array))
  /\
  varop (MkST 5) 5 1006 0 st_chains =
  Ret tt (reported INDX_MIS 0 0
            (resolved 1006 2 1 (mkNode EXPRNode VarOp 0 1002 1005) st_chains))
  /\
  varop (MkST 5) 5 1014 0 st_chains =
  Ret tt (reported TYPE_MIS 0 0
            (resolved 1014 2 1 (mkNode EXPRNode VarOp 0 1007 1013) st_chains))
  /\
  varop (MkST 5) 5 1025 0 st_chains =
  Ret tt (reported TYPE_MIS 0 0
            (resolved 1025 2 1 (mkNode EXPRNode VarOp 0 1015 1024) st_chains))
  /\
  varop (MkST 5) 5 1039 0 st_chains =
  Ret tt (reported TYPE_MIS 0 0
            (resolved 1039 2 1 (mkNode EXPRNode VarOp 0 1026 1038) st_chains))
  /\
  (varop (MkST 5) 5 1019 0 st_array =
   Ret tt (resolved 1019 2 1 (mkNode EXPRNode VarOp 0 1018 1017) st_array) /\
   out (resolved 1019 2 1 (mkNode EXPRNode VarOp 0 1018 1017) st_array)
   = out st_array).
Proof.
  split; [|split; [|split; [|split; [|split]]]].
  - (* a[1][2 + 3][4] *)
    set (S1 := resolved 1014 2 1 (mkNode EXPRNode VarOp 0 1002 1013)
                        st_array).
    assert (Hname1 : has_attr S1 1 NAME_ATTR 0).
    { apply resolved_attr. apply st_array_attr. reflexivity. }
    assert (Htop1 : attr_top S1 < ATTR_SIZE).
    { unfold S1. rewrite resolved_attr_top. tops_here. }
    destruct (varop_checks_accesses_to_two_dimensional_integer_array
                (MkST 5) st_array 1014 1002 1013 1001 1000 dummy_addr
                0 2 1 0 0 (mkNode EXPRNode VarOp 0 1002 1013))
      with (fuel := 5%nat) (declop := 0) (lenid := 2)
      as (A & _);
      [ reflexivity | repeat split | leaf_here | tops_here | tops_here
      | reflexivity | tops_here | reflexivity | tops_here | tops_here
      | apply st_array_attr; reflexivity | apply st_array_attr; reflexivity
      | apply st_array_attr; reflexivity | apply st_array_attr; reflexivity
      | exists 0; reflexivity | leaf_here | exact st_array_fresh
      | lia | reflexivity | ].
    apply (A 1012 1011 1003 dummy_addr S1 1010 1009 1006 dummy_addr S1
             1008 dummy_addr 1007 dummy_addr).
    + exists 0. reflexivity.
    + exists 0. reflexivity.
    + exists 0. reflexivity.
    + exists 0. reflexivity.
    + exists 0. reflexivity.
    + exists 0. reflexivity.
    + leaf_operand 1.
    + exists (mkNode EXPRNode AddOp 0 1004 1005).
      split; [reflexivity|]. right. split; [reflexivity|]. split.
      * apply st_array_rec_on_sum; vm_compute; reflexivity.
      * split; [intros q Hq; reflexivity|].
        split; [exact Hname1|]. split; [exact Htop1 | reflexivity].
  - (* a[1] *)
    destruct (varop_checks_accesses_to_two_dimensional_integer_array
                (MkST 5) st_chains 1006 1002 1005 1001 1000 dummy_addr
                0 2 1 0 0 (mkNode EXPRNode VarOp 0 1002 1005))
      with (fuel := 5%nat) (declop := 0) (lenid := 2)
      as (_ & B & _);
      [ reflexivity | repeat split | leaf_here | tops_here | tops_here
      | reflexivity | tops_here | reflexivity | tops_here | tops_here
      | apply st_chains_attr; reflexivity | apply st_chains_attr; reflexivity
      | apply st_chains_attr; reflexivity | apply st_chains_attr; reflexivity
      | exists 0; reflexivity | leaf_here | reflexivity
      | lia | reflexivity | ].
    apply (B 1004 dummy_addr 1003 dummy_addr).
    + exists 0. reflexivity.
    + exists 0. reflexivity.
    + exists dummy_node. split; reflexivity.
    + leaf_operand 1.
  - (* a.length.x *)
    destruct (varop_checks_accesses_to_two_dimensional_integer_array
                (MkST 5) st_chains 1014 1007 1013 1001 1000 dummy_addr
                0 2 1 0 0 (mkNode EXPRNode VarOp 0 1007 1013))
      with (fuel := 5%nat) (declop := 0) (lenid := 2)
      as (_ & _ & C0 & _);
      [ reflexivity | repeat split | leaf_here | tops_here | tops_here
      | reflexivity | tops_here | reflexivity | tops_here | tops_here
      | apply st_chains_attr; reflexivity | apply st_chains_attr; reflexivity
      | apply st_chains_attr; reflexivity | apply st_chains_attr; reflexivity
      | exists 0; reflexivity | leaf_here | reflexivity
      | lia | reflexivity | ].
    apply (C0 1012 1010 1011 dummy_addr IDNode
              (mkNode EXPRNode SelectOp 0 1009 dummy_addr)).
    + exists 0. reflexivity.
    + exists 0. reflexivity.
    + leaf_here.
    + reflexivity.
    + discriminate.
  - (* a[1].length.x *)
    destruct (varop_checks_accesses_to_two_dimensional_integer_array
                (MkST 5) st_chains 1025 1015 1024 1001 1000 dummy_addr
                0 2 1 0 0 (mkNode EXPRNode VarOp 0 1015 1024))
      with (fuel := 5%nat) (declop := 0) (lenid := 2)
      as (_ & _ & _ & C1 & _);
      [ reflexivity | repeat split | leaf_here | tops_here | tops_here
      | reflexivity | tops_here | reflexivity | tops_here | tops_here
      | apply st_chains_attr; reflexivity | apply st_chains_attr; reflexivity
      | apply st_chains_attr; reflexivity | apply st_chains_attr; reflexivity
      | exists 0; reflexivity | leaf_here | reflexivity
      | lia | reflexivity | ].
    apply (C1 1023 1021 1022 dummy_addr
              (resolved 1025 2 1 (mkNode EXPRNode VarOp 0 1015 1024)
                        st_chains)
              1020 1018 1019 dummy_addr IDNode
              (mkNode EXPRNode SelectOp 0 1017 dummy_addr)).
    + exists 0. reflexivity.
    + exists 0. reflexivity.
    + exists 0. reflexivity.
    + exists 0. reflexivity.
    + leaf_here.
    + reflexivity.
    + discriminate.
    + leaf_operand 1.
  - (* a[1][2].length.x *)
    set (S1 := resolved 1039 2 1 (mkNode EXPRNode VarOp 0 1026 1038)
                        st_chains).
    destruct (varop_checks_accesses_to_two_dimensional_integer_array
                (MkST 5) st_chains 1039 1026 1038 1001 1000 dummy_addr
                0 2 1 0 0 (mkNode EXPRNode VarOp 0 1026 1038))
      with (fuel := 5%nat) (declop := 0) (lenid := 2)
      as (_ & _ & _ & _ & C2 & _);
      [ reflexivity | repeat split | leaf_here | tops_here | tops_here
      | reflexivity | tops_here | reflexivity | tops_here | tops_here
      | apply st_chains_attr; reflexivity | apply st_chains_attr; reflexivity
      | apply st_chains_attr; reflexivity | apply st_chains_attr; reflexivity
      | exists 0; reflexivity | leaf_here | reflexivity
      | lia | reflexivity | ].
    apply (C2 1037 1035 1036 dummy_addr S1 1034 1032 1033 dummy_addr S1
              1031 1029 1030 dummy_addr IDNode
              (mkNode EXPRNode SelectOp 0 1028 dummy_addr)).
    + exists 0. reflexivity.
    + exists 0. reflexivity.
    + exists 0. reflexivity.
    + exists 0. reflexivity.
    + exists 0. reflexivity.
    + exists 0. reflexivity.
    + leaf_here.
    + reflexivity.
    + discriminate.
    + leaf_operand 1.
    + leaf_operand 2.
  - (* a.length *)
    destruct (varop_checks_accesses_to_two_dimensional_integer_array
                (MkST 5) st_array 1019 1018 1017 1001 1000 dummy_addr
                0 2 1 0 0 (mkNode EXPRNode VarOp 0 1018 1017))
      with (fuel := 5%nat) (declop := 0) (lenid := 2)
      as (_ & _ & _ & _ & _ & D);
      [ reflexivity | repeat split | leaf_here | tops_here | tops_here
      | reflexivity | tops_here | reflexivity | tops_here | tops_here
      | apply st_array_attr; reflexivity | apply st_array_attr; reflexivity
      | apply st_array_attr; reflexivity | apply st_array_attr; reflexivity
      | exists 0; reflexivity | leaf_here | exact st_array_fresh
      | lia | reflexivity | ].
    apply (D 1016 dummy_addr 1015 dummy_addr IDNode).
    + exists 0. reflexivity.
    + exists 0. reflexivity.
    + leaf_here.
    + exists dummy_node. split; reflexivity.
Defined.

Lemma st_method_index_attr : forall k v,
  assoc k [(NAME_ATTR, 0); (NEST_ATTR, 1); (KIND_ATTR, ARR);
           (TYPE_ATTR, 1001); (DIMEN_ATTR, 2)] = Some v ->
  has_attr st_method_index 1 k v.
Proof.
  intros k v H. exists [1; 2; 5; 3; 4]. split; [|split].
  - unfold chain. repeat chain_step.
  - unfold attrs_ok.
    change (kinds st_method_index [1; 2; 5; 3; 4]) with [1; 2; 5; 6; 9].
    split.
    + repeat constructor.
    + repeat (constructor; [unfold is_char; lia|]). constructor.
  - exact H.
Qed.

(** C7 does not hold for every chain of three indices.  In the state
    [st_method_index] the symbol 1 is a 2-dimensional array of integers,
    and the [VarOp] 1016 on it has three [IndexOp]s, [a[m.x][0][0]].  The
    operand of the first index is an operator node, so [varop] hands it to
    [MkST] before it counts the second index; [m] is a method, and [varop]
    on [m.x] prints that the members of a method cannot be accessed and
    leaves the process with status 1.  Nothing else is printed: the index
    mismatch is never reported. *)
Lemma varop_three_indices_exit_in_the_first_operand :
  has_attr st_method_index 1 KIND_ATTR ARR /\
  has_attr st_method_index 1 DIMEN_ATTR 2 /\
  has_attr st_method_index 1 TYPE_ATTR 1001 /\
  expr_node st_method_index 1001 TypeIdOp 1000 dummy_addr /\
  leaf_node st_method_index 1000 INTEGERTNode 0 /\
  expr_node st_method_index 1016 VarOp 1015 1014 /\
  leaf_node st_method_index 1015 IDNode 0 /\
  (exists t, LookUp 0 st_method_index = Ret 1 t) /\
  expr_node st_method_index 1014 SelectOp 1013 1012 /\
  expr_node st_method_index 1013 IndexOp 1006 dummy_addr /\
  expr_node st_method_index 1012 SelectOp 1011 1010 /\
  expr_node st_method_index 1011 IndexOp 1007 dummy_addr /\
  expr_node st_method_index 1010 SelectOp 1009 dummy_addr /\
  expr_node st_method_index 1009 IndexOp 1008 dummy_addr /\
  out st_method_index = [] /\
  exists s',
    varop (MkST 5) 5 1016 0 st_method_index = Exit 1 s' /\
    MkST 6 1016 st_method_index = Exit 1 s' /\
    out s' = [OStr "method "; OName 2;
              OStr " members cannot be accessed\n"] /\
    out s' <> out (reported INDX_MIS 0 0 st_method_index).
Proof.
  split; [apply st_method_index_attr; reflexivity|].
  split; [apply st_method_index_attr; reflexivity|].
  split; [apply st_method_index_attr; reflexivity|].
  split; [exists 0; reflexivity|].
  split; [split; [discriminate|];
          exists 0, dummy_addr, dummy_addr; reflexivity|].
  split; [exists 0; reflexivity|].
  split; [split; [discriminate|];
          exists 0, dummy_addr, dummy_addr; reflexivity|].
  split; [eexists; vm_compute; reflexivity|].
  split; [exists 0; reflexivity|].
  split; [exists 0; reflexivity|].
  split; [exists 0; reflexivity|].
  split; [exists 0; reflexivity|].
  split; [exists 0; reflexivity|].
  split; [exists 0; reflexivity|].
  split; [reflexivity|].
  eexists. split; [vm_compute; reflexivity|].
  split; [vm_compute; reflexivity|].
  split; [vm_compute; reflexivity|].
  vm_compute. discriminate.
Qed.
